(** * Conduit: route detection, controller lookup, collection inference,
      document sampling and hybrid payload prediction

    A shallow embedding of the analysis core of the Conduit editor extension
    (TypeScript).  Each module of the first part follows one source file:

    - [Js]                  the string, array and number primitives of the host
                            language that the code relies on;
    - [Ast]                 the syntax-tree nodes the two analysers consume and
                            the order in which the tree walker visits them;
    - [RouteDetection]      [src/conduit/src/routeDetection.ts];
    - [PayloadPredictor]    the controller lookup of [ai/payloadPredictor.ts];
    - [MongoConnector]      the sampling policy of [db/mongoConnector.ts];
    - [CollectionInferencer] [db/collectionInferencer.ts];
    - [ObjectIdResolver]    [db/objectIdResolver.ts];
    - [HybridPayloadGenerator] [db/hybridPayloadGenerator.ts], with
                            [fetchFieldSamples] of [db/sampleDataFetcher.ts].

    [Samples] holds the concrete inputs used in examples; the second part
    states and proves the properties, one module of claims per source file.

    Conventions.  JavaScript numbers are IEEE-754 binary64 values and are
    modelled by the kernel's primitive floats, so that sums such as
    [0.5 + 0.3 + 0.2 + 0.1] evaluate exactly as they do at run time.  Strings
    are byte strings: the case conversions act on ASCII letters and leave
    every other byte alone.  A block that may throw returns an [Exc]; a
    [try]/[catch] is a match on it.  Calls that leave the process (file
    system, parser, database driver, the language model) are fields of a
    record ([Host], [Connector], [Store], [World]) that the definitions take
    as a parameter.  The route detector is an object with mutable fields: its
    walk over a file is given on the contents of the fields, and the two
    entry points on a heap of arrays and maps, where copying, clearing in
    place and assigning a field are different things.  An asynchronous
    function is given as what a call of it that is awaited does; the two entry
    points of the route detector, which work on the fields of one object, are
    also given stretch by stretch, from one [await] to the next, on the job
    queue of the engine. *)

From Stdlib Require Import Strings.Ascii Floats.PrimFloat.
From stdpp Require Import gmap strings list.

#[local] Set Warnings "-inexact-float,-register-all".
#[local] Open Scope string_scope.

(* ===================================================================== *)
(** ** Host-language primitives                                           *)
(* ===================================================================== *)

Module Js.

(** [s.startsWith(p)] *)
Definition startsWith (s p : string) : bool := String.prefix p s.

(** [s.endsWith(suf)]: some suffix of [s] is [suf]. *)
Fixpoint endsWith (s suf : string) : bool :=
  String.eqb s suf ||
  match s with
  | EmptyString => false
  | String _ s' => endsWith s' suf
  end.

(** [s.includes(sub)]: [sub] is a prefix of some suffix of [s]. *)
Fixpoint includes (s sub : string) : bool :=
  String.prefix sub s ||
  match s with
  | EmptyString => false
  | String _ s' => includes s' sub
  end.

(** [s.slice(0, -1)]: all but the last character. *)
Fixpoint dropLast (s : string) : string :=
  match s with
  | EmptyString => EmptyString
  | String _ EmptyString => EmptyString
  | String c s' => String c (dropLast s')
  end.

(** [s.slice(0, -n)] for a literal [n]. *)
Fixpoint dropLastN (n : nat) (s : string) : string :=
  match n with
  | O => s
  | S n' => dropLastN n' (dropLast s)
  end.

Definition lowerChar (c : ascii) : ascii :=
  let n := nat_of_ascii c in
  if (65 <=? n)%nat && (n <=? 90)%nat then ascii_of_nat (n + 32) else c.

Definition upperChar (c : ascii) : ascii :=
  let n := nat_of_ascii c in
  if (97 <=? n)%nat && (n <=? 122)%nat then ascii_of_nat (n - 32) else c.

Fixpoint mapChars (f : ascii -> ascii) (s : string) : string :=
  match s with
  | EmptyString => EmptyString
  | String c s' => String (f c) (mapChars f s')
  end.

Definition toLowerCase : string -> string := mapChars lowerChar.
Definition toUpperCase : string -> string := mapChars upperChar.

(** [s.split(sep)] for a separator that is one of the characters accepted
    by [isSep] (a one-character string, or a character class such as
    [/[\/\\]/]).  The result always has at least one piece. *)
Fixpoint splitOn (isSep : ascii -> bool) (s : string) : list string :=
  match s with
  | EmptyString => [EmptyString]
  | String c s' =>
      if isSep c then EmptyString :: splitOn isSep s'
      else match splitOn isSep s' with
           | piece :: rest => String c piece :: rest
           | [] => [String c EmptyString]
           end
  end.

Definition split (sep : ascii) : string -> list string :=
  splitOn (Ascii.eqb sep).

(** [pieces.join(sep)] *)
Fixpoint join (sep : string) (pieces : list string) : string :=
  match pieces with
  | [] => EmptyString
  | [p] => p
  | p :: rest => p +:+ sep +:+ join sep rest
  end.

(** [xs.includes(x)] on an array of strings. *)
Definition arrayIncludes (xs : list string) (x : string) : bool :=
  existsb (String.eqb x) xs.

(** [xs.slice(start, end)] with the language's treatment of negative and
    out-of-range indices. *)
Definition clampIndex (len i : Z) : Z :=
  if (i <? 0)%Z then Z.max (len + i) 0 else Z.min i len.

Definition slice {A} (xs : list A) (start stop : Z) : list A :=
  let len := Z.of_nat (length xs) in
  let s := clampIndex len start in
  let e := clampIndex len stop in
  take (Z.to_nat (e - s)) (drop (Z.to_nat s) xs).

(** [[...new Set(xs)]]: first occurrences, in insertion order. *)
Fixpoint setAddAll (seen xs : list string) : list string :=
  match xs with
  | [] => seen
  | x :: rest =>
      setAddAll (if arrayIncludes seen x then seen else seen ++ [x]) rest
  end.

Definition dedup : list string -> list string := setAddAll [].

(** Truthiness of a string that may be [undefined]: the empty string
    counts as absent. *)
Definition truthyString (o : option string) : option string :=
  match o with
  | Some EmptyString => None
  | other => other
  end.

(** Numbers.  [x || 0] on a number: zero and NaN are replaced by [0]. *)
Definition isNaN (x : float) : bool := negb (PrimFloat.eqb x x).

Definition numberOrZero (x : float) : float :=
  if PrimFloat.eqb x 0 || isNaN x then 0%float else x.

(** [Math.min] and [Math.max] on two numbers (NaN is contagious). *)
Definition mathMin (x y : float) : float :=
  if isNaN x || isNaN y then nan
  else if PrimFloat.ltb y x then y else x.

Definition mathMax (x y : float) : float :=
  if isNaN x || isNaN y then nan
  else if PrimFloat.ltb x y then y else x.

(** [xs.sort(cmp)]: the sort is stable, and a comparator result that is
    not a positive number leaves the two elements in their order. *)
Fixpoint sortInsert {A} (cmp : A -> A -> float) (x : A) (l : list A)
  : list A :=
  match l with
  | [] => [x]
  | y :: l' =>
      if PrimFloat.ltb 0 (cmp x y) then y :: sortInsert cmp x l'
      else x :: l
  end.

Definition sort {A} (cmp : A -> A -> float) (l : list A) : list A :=
  foldr (sortInsert cmp) [] l.

(** A value that is [undefined], [null] or present, as seen by the
    optional-chaining operator and by strict comparison with [null]. *)
Inductive Nullish (A : Type) : Type :=
| Undefined
| Null
| Present (a : A).
Arguments Undefined {A}.
Arguments Null {A}.
Arguments Present {A} a.

(** [x !== null] *)
Definition strictNotNull {A} (x : Nullish A) : bool :=
  match x with
  | Null => false
  | _ => true
  end.

(** Structured values ([any]): what a document field, an example or a
    sampled value can hold.  A date is kept as its ISO-8601 text and an
    object identifier as its 24-digit hexadecimal text. *)
Inductive Value : Type :=
| VNull
| VUndefined
| VBool (b : bool)
| VNumber (x : float)
| VString (s : string)
| VDate (iso : string)
| VObjectId (hex : string)
| VArray (items : list Value)
| VObject (props : list (string * Value)).

(** Own-property lookup [obj[key]] on a plain object. *)
Fixpoint assocGet {A} (props : list (string * A)) (key : string) : option A :=
  match props with
  | [] => None
  | (k, v) :: rest => if String.eqb k key then Some v else assocGet rest key
  end.

(** Outcome of a block that may throw; a thrown error carries its message
    (for errors raised by the engine the wording is the engine's). *)
Inductive Exc (A : Type) : Type :=
| Ok (a : A)
| Thrown (message : string).
Arguments Ok {A} a.
Arguments Thrown {A} message.

(** [/^[0-9a-fA-F]{24}$/.test(s)] *)
Definition isHexDigit (c : ascii) : bool :=
  let n := nat_of_ascii c in
  ((48 <=? n)%nat && (n <=? 57)%nat)
  || ((65 <=? n)%nat && (n <=? 70)%nat)
  || ((97 <=? n)%nat && (n <=? 102)%nat).

Definition isHex24 (s : string) : bool :=
  (String.length s =? 24)%nat && forallb isHexDigit (String.list_ascii_of_string s).

End Js.

(* ===================================================================== *)
(** ** Syntax trees                                                       *)
(* ===================================================================== *)

Module Ast.

(** [node.loc]: the 1-based first and last source line of a node. *)
Record SourceLocation : Type := mkLoc {
  start_line : nat;
  end_line : nat;
}.

Inductive ImportSpecifierKind : Type :=
| ImportDefaultSpecifier
| ImportNamespaceSpecifier
| ImportSpecifier.

(** The node kinds the analysers match on; every other kind is an
    [OtherNode] carrying its children in visiting order.  The children of a
    function ([params] then [body]) are kept as one list.  An import
    declaration keeps, for each specifier, its kind and local name; none of
    its children is of a kind that has a visitor. *)
Inductive Node : Type :=
| Identifier (name : string)
| StringLiteral (value : string)
| MemberExpression (object property : Node)
| CallExpression (loc : option SourceLocation) (callee : Node)
    (arguments : list Node)
| ImportDeclaration (specifiers : list (ImportSpecifierKind * string))
    (source : string)
| VariableDeclarator (loc : option SourceLocation) (id : Node)
    (init : option Node)
| FunctionDeclaration (loc : option SourceLocation) (id : option string)
    (children : list Node)
| ArrowFunctionExpression (children : list Node)
| FunctionExpression (children : list Node)
| AssignmentExpression (loc : option SourceLocation) (left right : Node)
| ObjectMethod (loc : option SourceLocation) (key : Node)
    (children : list Node)
| OtherNode (children : list Node).

(** The walker visits a node, then its children from left to right
    (depth first), calling the visitor registered for the node's kind when
    it enters the node.  [traverse] lists the nodes in that order. *)
Fixpoint traverse (n : Node) : list Node :=
  n ::
  match n with
  | Identifier _ | StringLiteral _ | ImportDeclaration _ _ => []
  | MemberExpression o p => traverse o ++ traverse p
  | CallExpression _ c args => traverse c ++ flat_map traverse args
  | VariableDeclarator _ i init =>
      traverse i ++ match init with Some e => traverse e | None => [] end
  | FunctionDeclaration _ _ cs => flat_map traverse cs
  | ArrowFunctionExpression cs => flat_map traverse cs
  | FunctionExpression cs => flat_map traverse cs
  | AssignmentExpression _ l r => traverse l ++ traverse r
  | ObjectMethod _ k cs => traverse k ++ flat_map traverse cs
  | OtherNode cs => flat_map traverse cs
  end.

(** [node.loc?.start.line || 0] and [node.loc?.end.line || 0] *)
Definition startLineOr0 (loc : option SourceLocation) : nat :=
  match loc with Some l => start_line l | None => 0 end.

Definition endLineOr0 (loc : option SourceLocation) : nat :=
  match loc with Some l => end_line l | None => 0 end.

Definition isFunctionValue (n : Node) : bool :=
  match n with
  | ArrowFunctionExpression _ | FunctionExpression _ => true
  | _ => false
  end.

End Ast.

(* ===================================================================== *)
(** ** routeDetection.ts                                                  *)
(* ===================================================================== *)

Module RouteDetection.
Import Js Ast.

Record DetectedRoute : Type := mkRoute {
  method : string;
  path : string;
  filePath : string;
  line : nat;
  middlewares : list string;
  handler : string;
  controllerFilePath : option string;
  controllerFunction : option string;
}.

(** What the private fields of a [RouteDetector] hold. *)
Record Detector : Type := mkDetector {
  routes : list DetectedRoute;
  routerPrefixes : gmap string string;
  controllerImports : gmap string string;
  functionImports : gmap string string;
}.

Definition cleared : Detector := mkDetector [] ∅ ∅ ∅.

(** A [void] method either returns or throws; in both cases the writes it
    made to the detector so far stay. *)
Inductive Completion : Type :=
| Returns (d : Detector)
| Throws (d : Detector).

Definition stateOf (c : Completion) : Detector :=
  match c with Returns d | Throws d => d end.

(** One walk of the tree with a visitor: stops at the first throw. *)
Fixpoint visitAll (visit : Detector -> Node -> Completion) (d : Detector)
  (nodes : list Node) : Completion :=
  match nodes with
  | [] => Returns d
  | n :: rest =>
      match visit d n with
      | Returns d' => visitAll visit d' rest
      | Throws d' => Throws d'
      end
  end.

Definition httpMethods : list string :=
  ["get"; "post"; "put"; "delete"; "patch"; "head"; "options"].

Definition combinePaths (prefix path : string) : string :=
  let cleanPrefix := if endsWith prefix "/" then dropLast prefix else prefix in
  let cleanPath := if startsWith path "/" then path else "/" +:+ path in
  cleanPrefix +:+ cleanPath.

(** The loop over [arguments[1..]] of a route call: the last argument names
    the handler, the identifiers before it are middlewares. *)
Record HandlerInfo : Type := mkHandlerInfo {
  hi_middlewares : list string;
  hi_handler : string;
  hi_controllerFilePath : option string;
  hi_controllerFunction : option string;
}.

Fixpoint scanHandlerArgs (d : Detector) (args : list Node) (acc : HandlerInfo)
  : HandlerInfo :=
  match args with
  | [] => acc
  | [Identifier name] =>
      match truthyString (functionImports d !! name) with
      | Some resolvedPath =>
          mkHandlerInfo (hi_middlewares acc) name (Some resolvedPath) (Some name)
      | None =>
          mkHandlerInfo (hi_middlewares acc) name
            (hi_controllerFilePath acc) (hi_controllerFunction acc)
      end
  | [MemberExpression (Identifier controllerName) (Identifier methodName)] =>
      let h := controllerName +:+ "." +:+ methodName in
      match truthyString (controllerImports d !! controllerName) with
      | Some resolvedPath =>
          mkHandlerInfo (hi_middlewares acc) h (Some resolvedPath)
            (Some methodName)
      | None =>
          mkHandlerInfo (hi_middlewares acc) h
            (hi_controllerFilePath acc) (hi_controllerFunction acc)
      end
  | [_] => acc
  | Identifier name :: rest =>
      scanHandlerArgs d rest
        (mkHandlerInfo (hi_middlewares acc ++ [name]) (hi_handler acc)
           (hi_controllerFilePath acc) (hi_controllerFunction acc))
  | _ :: rest => scanHandlerArgs d rest acc
  end.

(** The prefix applied to a route call whose receiver is [object]. *)
Definition prefixFor (d : Detector) (object : Node) : option string :=
  match object with
  | Identifier routerName => truthyString (routerPrefixes d !! routerName)
  | _ => None
  end.

Definition detectRoute (d : Detector) (loc : option SourceLocation)
  (callee : Node) (arguments : list Node) (file : string) : Completion :=
  match callee with
  | MemberExpression object (Identifier property) =>
      let method := toLowerCase property in
      if negb (arrayIncludes httpMethods method) then Returns d
      else
        match arguments with
        | [] => Throws d   (* [pathArg] is [undefined]; reading its type throws *)
        | StringLiteral routePath :: rest =>
            let fullPath :=
              match prefixFor d object with
              | Some prefix => combinePaths prefix routePath
              | None => routePath
              end in
            let h := scanHandlerArgs d rest (mkHandlerInfo [] "anonymous" None None) in
            Returns
              (mkDetector
                 (routes d ++
                  [mkRoute (toUpperCase method) fullPath file (startLineOr0 loc)
                     (hi_middlewares h) (hi_handler h)
                     (hi_controllerFilePath h) (hi_controllerFunction h)])
                 (routerPrefixes d) (controllerImports d) (functionImports d))
        | _ :: _ => Returns d
        end
  | _ => Returns d
  end.

Definition detectRouterPrefix (d : Detector) (callee : Node)
  (arguments : list Node) : Detector :=
  match callee, arguments with
  | MemberExpression _ (Identifier "use"),
    StringLiteral prefix :: Identifier router :: _ =>
      mkDetector (routes d) (<[router := prefix]> (routerPrefixes d))
        (controllerImports d) (functionImports d)
  | _, _ => d
  end.

(** What the detector needs from its host: the files the workspace search
    returns (already deduplicated), reading and parsing a file ([None] when
    either step throws), and the path and file-system helpers used to
    resolve an import. *)
Record Host : Type := mkHost {
  findRouteFiles : list string;
  readAndParse : string -> option Node;
  existsSync : string -> bool;
  dirname : string -> string;
  resolve : string -> string -> string;
  extname : string -> string;
  joinPath : string -> string -> string;
}.

Section WithHost.
Variable host : Host.

Definition extensions : list string := [".js"; ".ts"; ".jsx"; ".tsx"].

Definition resolveControllerPath (importPath currentFilePath : string)
  : option string :=
  if negb (startsWith importPath ".") then None
  else
    let resolvedPath := resolve host (dirname host currentFilePath) importPath in
    if negb (String.eqb (extname host importPath) "") then
      if existsSync host resolvedPath then Some resolvedPath else None
    else
      match List.find (existsSync host)
              (map (fun ext => resolvedPath +:+ ext) extensions) with
      | Some fullPath => Some fullPath
      | None =>
          List.find (existsSync host)
            (map (fun ext => joinPath host resolvedPath ("index" +:+ ext))
               extensions)
      end.

Definition addImportSpecifier (resolvedPath : string) (d : Detector)
  (spec : ImportSpecifierKind * string) : Detector :=
  match spec with
  | (ImportDefaultSpecifier, local) | (ImportNamespaceSpecifier, local) =>
      mkDetector (routes d) (routerPrefixes d)
        (<[local := resolvedPath]> (controllerImports d)) (functionImports d)
  | (ImportSpecifier, local) =>
      mkDetector (routes d) (routerPrefixes d) (controllerImports d)
        (<[local := resolvedPath]> (functionImports d))
  end.

Definition detectImports (d : Detector)
  (specifiers : list (ImportSpecifierKind * string)) (source file : string)
  : Detector :=
  match truthyString (resolveControllerPath source file) with
  | Some resolvedPath => foldl (addImportSpecifier resolvedPath) d specifiers
  | None => d
  end.

Definition detectRequires (d : Detector) (id : Node) (init : option Node)
  (file : string) : Detector :=
  match id, init with
  | Identifier name,
    Some (CallExpression _ (Identifier "require") (StringLiteral requirePath :: _)) =>
      match truthyString (resolveControllerPath requirePath file) with
      | Some resolvedPath =>
          mkDetector (routes d) (routerPrefixes d)
            (<[name := resolvedPath]> (controllerImports d)) (functionImports d)
      | None => d
      end
  | _, _ => d
  end.

Definition importVisitor (file : string) (d : Detector) (n : Node) : Completion :=
  match n with
  | ImportDeclaration specifiers source =>
      Returns (detectImports d specifiers source file)
  | VariableDeclarator _ id init => Returns (detectRequires d id init file)
  | _ => Returns d
  end.

Definition prefixVisitor (d : Detector) (n : Node) : Completion :=
  match n with
  | CallExpression _ callee arguments =>
      Returns (detectRouterPrefix d callee arguments)
  | _ => Returns d
  end.

Definition routeVisitor (file : string) (d : Detector) (n : Node) : Completion :=
  match n with
  | CallExpression loc callee arguments =>
      detectRoute d loc callee arguments file
  | _ => Returns d
  end.

(** The [try] block of [parseFileForRoutes]. *)
Definition parseFileBody (d : Detector) (file : string) : Completion :=
  match readAndParse host file with
  | None => Throws d
  | Some ast =>
      let d0 := mkDetector (routes d) (routerPrefixes d) ∅ ∅ in
      let nodes := traverse ast in
      match visitAll (importVisitor file) d0 nodes with
      | Throws d1 => Throws d1
      | Returns d1 =>
          match visitAll prefixVisitor d1 nodes with
          | Throws d2 => Throws d2
          | Returns d2 => visitAll (routeVisitor file) d2 nodes
          end
      end
  end.

(** [parseFileForRoutes]: the [catch] logs a warning and returns. *)
Definition parseFileForRoutes (d : Detector) (file : string) : Detector :=
  stateOf (parseFileBody d file).

(** The files of a scan, one after the other. *)
Definition scanFiles (d : Detector) (files : list string) : Detector :=
  foldl parseFileForRoutes d files.

(** *** The detector as an object

    The four private fields hold references: [routes] to an array, the other
    three to [Map] objects.  [parseFileForRoutes] reaches them only through
    [push], [get], [set] and [clear], so it changes those four objects in
    place and leaves the fields pointing where they did.  [detectRoutes] and
    [detectRoutesInFile] also create objects and assign fields. *)

Record Heap : Type := mkHeap {
  arrays : gmap nat (list DetectedRoute);
  maps : gmap nat (gmap string string);
  next : nat;
}.

Record Fields : Type := mkFields {
  routesRef : nat;
  routerPrefixesRef : nat;
  controllerImportsRef : nat;
  functionImportsRef : nat;
}.

Definition arrayAt (h : Heap) (a : nat) : list DetectedRoute :=
  default [] (arrays h !! a).

Definition mapAt (h : Heap) (a : nat) : gmap string string :=
  default ∅ (maps h !! a).

(** [[...xs]] and [[]] *)
Definition newArray (xs : list DetectedRoute) (h : Heap) : nat * Heap :=
  (next h, mkHeap (<[next h := xs]> (arrays h)) (maps h) (S (next h))).

(** [new Map(m)] and [new Map()] *)
Definition newMap (m : gmap string string) (h : Heap) : nat * Heap :=
  (next h, mkHeap (arrays h) (<[next h := m]> (maps h)) (S (next h))).

(** [m.clear()] *)
Definition clearMap (a : nat) (h : Heap) : Heap :=
  mkHeap (arrays h) (<[a := ∅]> (maps h)) (next h).

(** What the fields of the detector currently hold. *)
Definition contents (h : Heap) (this : Fields) : Detector :=
  mkDetector (arrayAt h (routesRef this)) (mapAt h (routerPrefixesRef this))
    (mapAt h (controllerImportsRef this)) (mapAt h (functionImportsRef this)).

(** The four objects are changed in place so that they hold [d]. *)
Definition mutateInPlace (this : Fields) (d : Detector) (h : Heap) : Heap :=
  mkHeap
    (<[routesRef this := routes d]> (arrays h))
    (<[functionImportsRef this := functionImports d]>
       (<[controllerImportsRef this := controllerImports d]>
          (<[routerPrefixesRef this := routerPrefixes d]> (maps h))))
    (next h).

(** The fields refer to objects that exist, and the three maps are three
    different objects (as the constructor makes them). *)
Definition wellFormed (h : Heap) (this : Fields) : Prop :=
  routesRef this < next h
  /\ routerPrefixesRef this < next h
  /\ controllerImportsRef this < next h
  /\ functionImportsRef this < next h
  /\ routerPrefixesRef this <> controllerImportsRef this
  /\ routerPrefixesRef this <> functionImportsRef this
  /\ controllerImportsRef this <> functionImportsRef this.

(** A detector fresh from its constructor. *)
Definition constructed : Heap * Fields :=
  (mkHeap {[0 := []]} {[1 := ∅; 2 := ∅; 3 := ∅]} 4, mkFields 0 1 2 3).

(** [parseFileForRoutes] on the object: on a well-formed detector, what
    its [push], [set] and [clear] calls leave in the four objects. *)
Definition parseFileForRoutesInPlace (this : Fields) (h : Heap) (file : string)
  : Heap :=
  mutateInPlace this (parseFileForRoutes (contents h this) file) h.

(** [this.routes = []; this.routerPrefixes.clear();
     this.controllerImports.clear(); this.functionImports.clear();] *)
Definition reset (h : Heap) (this : Fields) : Heap * Fields :=
  let '(fresh, h) := newArray [] h in
  let this :=
    mkFields fresh (routerPrefixesRef this) (controllerImportsRef this)
      (functionImportsRef this) in
  let h := clearMap (routerPrefixesRef this) h in
  let h := clearMap (controllerImportsRef this) h in
  let h := clearMap (functionImportsRef this) h in
  (h, this).

(** [detectRoutes], called and awaited while no other call of the detector
    is under way: the array returned (by reference), and the heap and the
    fields afterwards. *)
Definition detectRoutes (h : Heap) (this : Fields) : nat * Heap * Fields :=
  let '(h, this) := reset h this in
  let h := foldl (parseFileForRoutesInPlace this) h (findRouteFiles host) in
  (routesRef this, h, this).

(** [detectRoutesInFile], called and awaited while no other call of the
    detector is under way: the array returned, and the heap and the fields
    afterwards.  The [catch] block cannot be reached, since
    [parseFileForRoutes] never rejects. *)
Definition detectRoutesInFile (h : Heap) (this : Fields) (file : string)
  : nat * Heap * Fields :=
  let '(originalRoutes, h) := newArray (arrayAt h (routesRef this)) h in
  let '(originalPrefixes, h) := newMap (mapAt h (routerPrefixesRef this)) h in
  let '(originalControllerImports, h) :=
    newMap (mapAt h (controllerImportsRef this)) h in
  let '(originalFunctionImports, h) :=
    newMap (mapAt h (functionImportsRef this)) h in
  (* try *)
  let '(h, this) := reset h this in
  let h := parseFileForRoutesInPlace this h file in
  let '(result, h) := newArray (arrayAt h (routesRef this)) h in
  (* finally *)
  (result, h,
   mkFields originalRoutes originalPrefixes originalControllerImports
     originalFunctionImports).

(** *** Calls that overlap

    Both entry points are [async].  A call runs up to its first [await]
    when it is made; each later stretch of it, from one [await] to the next,
    is a job of the engine's queue, and the queue is served first in, first
    out.  The fields belong to the detector and not to a call: a stretch
    finds them as the stretch before it, of whatever call, left them.

    [parseFileForRoutes] awaits nothing, so it runs through inside the
    stretch that calls it and the promise it returns is settled by then: the
    [await] of its caller queues the caller's next stretch at once, behind
    the jobs that wait already.  [findRouteFiles] awaits the workspace
    search, whose answers arrive in a later turn of the event loop; its own
    stretches touch no field and are taken together. *)

(** The constants of a [detectRoutesInFile] call. *)
Record Snapshot : Type := mkSnapshot {
  originalRoutes : nat;
  originalPrefixes : nat;
  originalControllerImports : nat;
  originalFunctionImports : nat;
}.

Inductive Call : Type :=
| CallDetectRoutes
| CallDetectRoutesInFile (file : string).

(** What waits in the queue: a [detectRoutesInFile] call at its [await], a
    [detectRoutes] call in its loop with the files it has not parsed yet,
    and a stretch of the extension's own code that calls the detector after
    an [await] of its own (as [handleActiveEditorChange] does). *)
Inductive Job : Type :=
| ProbeResumes (locals : Snapshot)
| ScanResumes (files : list string)
| CallerResumes (calls : list Call).

(** [searching] counts the [detectRoutes] calls that wait for the search;
    [fromProbes] and [fromScans] are the arrays that the calls of
    [detectRoutesInFile] and of [detectRoutes] have returned so far, in the
    order in which they returned. *)
Record Engine : Type := mkEngine {
  heap : Heap;
  detector : Fields;
  queue : list Job;
  searching : nat;
  fromProbes : list nat;
  fromScans : list nat;
}.

Definition idle (h : Heap) (this : Fields) : Engine := mkEngine h this [] 0 [] [].

(** [detectRoutesInFile] up to its [await]: the four copies, the emptying
    and the walk over the file. *)
Definition detectRoutesInFile_enters (file : string) (e : Engine) : Engine :=
  let h := heap e in
  let this := detector e in
  let '(originalRoutes, h) := newArray (arrayAt h (routesRef this)) h in
  let '(originalPrefixes, h) := newMap (mapAt h (routerPrefixesRef this)) h in
  let '(originalControllerImports, h) :=
    newMap (mapAt h (controllerImportsRef this)) h in
  let '(originalFunctionImports, h) :=
    newMap (mapAt h (functionImportsRef this)) h in
  let '(h, this) := reset h this in
  let h := parseFileForRoutesInPlace this h file in
  mkEngine h this
    (queue e ++
     [ProbeResumes
        (mkSnapshot originalRoutes originalPrefixes originalControllerImports
           originalFunctionImports)])
    (searching e) (fromProbes e) (fromScans e).

(** [detectRoutesInFile] from its [await] on: [return [...this.routes]],
    then the [finally] block. *)
Definition detectRoutesInFile_resumes (locals : Snapshot) (e : Engine) : Engine :=
  let '(result, h) :=
    newArray (arrayAt (heap e) (routesRef (detector e))) (heap e) in
  mkEngine h
    (mkFields (originalRoutes locals) (originalPrefixes locals)
       (originalControllerImports locals) (originalFunctionImports locals))
    (queue e) (searching e) (fromProbes e ++ [result]) (fromScans e).

(** [detectRoutes] up to [await this.findRouteFiles()]. *)
Definition detectRoutes_enters (e : Engine) : Engine :=
  let '(h, this) := reset (heap e) (detector e) in
  mkEngine h this (queue e) (S (searching e)) (fromProbes e) (fromScans e).

(** [detectRoutes] from an [await] on: the next file of the loop and the
    [await] after it, or [return this.routes] when no file is left. *)
Definition detectRoutes_resumes (files : list string) (e : Engine) : Engine :=
  match files with
  | [] =>
      mkEngine (heap e) (detector e) (queue e) (searching e) (fromProbes e)
        (fromScans e ++ [routesRef (detector e)])
  | file :: rest =>
      mkEngine (parseFileForRoutesInPlace (detector e) (heap e) file)
        (detector e) (queue e ++ [ScanResumes rest]) (searching e)
        (fromProbes e) (fromScans e)
  end.

Definition call (e : Engine) (c : Call) : Engine :=
  match c with
  | CallDetectRoutes => detectRoutes_enters e
  | CallDetectRoutesInFile file => detectRoutesInFile_enters file e
  end.

Definition runJob (job : Job) (e : Engine) : Engine :=
  match job with
  | ProbeResumes locals => detectRoutesInFile_resumes locals e
  | ScanResumes files => detectRoutes_resumes files e
  | CallerResumes calls => foldl call e calls
  end.

(** The jobs are run from the head of the queue until none is left; a job
    queues at most the stretches counted here. *)
Definition stretches (job : Job) : nat :=
  match job with
  | ProbeResumes _ => 1
  | ScanResumes files => S (length files)
  | CallerResumes calls => S (length calls)
  end.

Fixpoint drain (fuel : nat) (e : Engine) : Engine :=
  match fuel, queue e with
  | S fuel, job :: rest =>
      drain fuel
        (runJob job
           (mkEngine (heap e) (detector e) rest (searching e) (fromProbes e)
              (fromScans e)))
  | _, _ => e
  end.

Definition runQueue (e : Engine) : Engine :=
  drain (sum_list (map stretches (queue e))) e.

(** What happens in a turn of the event loop before the queue is run: code
    of the extension makes calls one after the other and awaits none of
    them in between, or queues a stretch that will make them, or the
    answers of the workspace search arrive and every waiting [detectRoutes]
    call is queued with the files found. *)
Inductive Event : Type :=
| Calls (calls : list Call)
| Queues (calls : list Call)
| SearchAnswers.

Definition happen (e : Engine) (ev : Event) : Engine :=
  match ev with
  | Calls calls => foldl call e calls
  | Queues calls =>
      mkEngine (heap e) (detector e) (queue e ++ [CallerResumes calls])
        (searching e) (fromProbes e) (fromScans e)
  | SearchAnswers =>
      mkEngine (heap e) (detector e)
        (queue e ++ replicate (searching e) (ScanResumes (findRouteFiles host)))
        0 (fromProbes e) (fromScans e)
  end.

Definition turn (e : Engine) (events : list Event) : Engine :=
  runQueue (foldl happen e events).

Definition run (turns : list (list Event)) (e : Engine) : Engine :=
  foldl turn e turns.


End WithHost.

Definition canonicalVerbs : list string :=
  ["GET"; "POST"; "PUT"; "DELETE"; "PATCH"; "HEAD"; "OPTIONS"].

Definition hasCanonicalVerb (r : DetectedRoute) : Prop :=
  In (method r) canonicalVerbs.

(** The route a recognised call [object.property(routePath, ...rest)]
    pushes. *)
Definition routeOfCall (d : Detector) (loc : option SourceLocation)
  (object : Node) (property routePath : string) (rest : list Node)
  (file : string) : DetectedRoute :=
  let h := scanHandlerArgs d rest (mkHandlerInfo [] "anonymous" None None) in
  mkRoute (toUpperCase (toLowerCase property))
    (match prefixFor d object with
     | Some prefix => combinePaths prefix routePath
     | None => routePath
     end)
    file (startLineOr0 loc) (hi_middlewares h) (hi_handler h)
    (hi_controllerFilePath h) (hi_controllerFunction h).

Definition withRoute (d : Detector) (r : DetectedRoute) : Detector :=
  mkDetector (routes d ++ [r]) (routerPrefixes d) (controllerImports d)
    (functionImports d).

(** The string begins with "/" and its second character, if any, is not
    "/". *)
Definition beginsWithOneSlash (s : string) : bool :=
  match s with
  | EmptyString => false
  | String c rest =>
      Ascii.eqb c "/"
      && match rest with
         | EmptyString => true
         | String c' _ => negb (Ascii.eqb c' "/")
         end
  end.

End RouteDetection.

(* ===================================================================== *)
(** ** ai/payloadPredictor.ts: locating a handler in a parsed file        *)
(* ===================================================================== *)

Module PayloadPredictor.
Import Js Ast.

Record ControllerContext : Type := mkContext {
  route : RouteDetection.DetectedRoute;
  reqBodyFields : list string;
  controllerCode : string;
  functionName : string;
  startLine : nat;
  endLine : nat;
}.

(** The variables the four visitors of [findControllerFunctionInAST]
    assign to. *)
Record Found : Type := mkFound {
  f_controllerFunction : option Node;
  f_functionName : string;
  f_startLine : nat;
  f_endLine : nat;
}.

(** What a visitor assigns when the node it enters defines
    [targetFunction] under one of the four patterns; [None] when the node is
    not such a definition. *)
Definition definitionOf (targetFunction : string) (n : Node) : option Found :=
  match n with
  | FunctionDeclaration loc (Some name) _ =>
      if String.eqb name targetFunction
      then Some (mkFound (Some n) name (startLineOr0 loc) (endLineOr0 loc))
      else None
  | VariableDeclarator loc (Identifier name) (Some init) =>
      if String.eqb name targetFunction && isFunctionValue init
      then Some (mkFound (Some init) name (startLineOr0 loc) (endLineOr0 loc))
      else None
  | AssignmentExpression loc
      (MemberExpression (Identifier object) (Identifier property)) rhs =>
      if (String.eqb object "exports" || String.eqb object "module")
         && String.eqb property targetFunction && isFunctionValue rhs
      then Some (mkFound (Some rhs) property (startLineOr0 loc) (endLineOr0 loc))
      else None
  | ObjectMethod loc (Identifier name) _ =>
      if String.eqb name targetFunction
      then Some (mkFound (Some n) name (startLineOr0 loc) (endLineOr0 loc))
      else None
  | _ => None
  end.

(** Entering a node: a matching definition overwrites the variables. *)
Definition visitDefinition (targetFunction : string) (acc : Found) (n : Node)
  : Found :=
  match definitionOf targetFunction n with
  | Some found => found
  | None => acc
  end.

(** [extractReqBodyFields]: [req.body.<field>] member expressions. *)
Definition reqBodyField (n : Node) : option string :=
  match n with
  | MemberExpression
      (MemberExpression (Identifier "req") (Identifier "body"))
      (Identifier field) => Some field
  | _ => None
  end.

Definition findControllerFunctionInAST (ast : Node) (targetFunction : string)
  (fileContent : string) (route : RouteDetection.DetectedRoute)
  : option ControllerContext :=
  let nodes := traverse ast in
  let found :=
    foldl (visitDefinition targetFunction)
      (mkFound None targetFunction 0 0) nodes in
  match f_controllerFunction found with
  | None => None
  | Some _ =>
      let fields := omap reqBodyField nodes in
      let lines := split "010"%char fileContent in
      let controllerCode :=
        join (String "010"%char EmptyString)
          (slice lines (Z.of_nat (f_startLine found) - 1)
             (Z.of_nat (f_endLine found))) in
      Some (mkContext route (dedup fields) controllerCode
              (f_functionName found) (f_startLine found) (f_endLine found))
  end.

(** The definitions of [targetFunction] in a file, in the order in which
    the walker enters them. *)
Definition definitionsOf (targetFunction : string) (ast : Node) : list Found :=
  omap (definitionOf targetFunction) (traverse ast).

End PayloadPredictor.

(* ===================================================================== *)
(** ** db/mongoConnector.ts: the sampling policy                          *)
(* ===================================================================== *)

Module MongoConnector.
Import Js.

(** A database maps a collection name to its documents in natural order; a
    name that was never written to is an empty collection. *)
Record Connector : Type := mkConnector {
  isConnected : bool;
  db : option (string -> list Value);
}.

Definition isAvailable (c : Connector) : bool :=
  isConnected c && match db c with Some _ => true | None => false end.

Definition getCollection (c : Connector) (collectionName : string)
  : option (list Value) :=
  if negb (isAvailable c) then None
  else match db c with
       | Some database => Some (database collectionName)
       | None => None
       end.

(** The random draws of one call: [Math.random()] as the fraction
    [rnd_num / rnd_den] (below 1 when [rnd_num < rnd_den]), and the server's
    choices for [$sample]. *)
Record Chance : Type := mkChance {
  rnd_num : nat;
  rnd_den : nat;
  choose : nat -> nat;
}.

(** [Math.floor(Math.random() * m)] *)
Definition randomBelow (ch : Chance) (m : nat) : nat :=
  (rnd_num ch * m) / rnd_den ch.

(** Driver: [find({}).skip(s).limit(l).toArray()].  A limit of 0 means
    "no limit". *)
Definition findSkipLimit (docs : list Value) (skip limit : nat) : list Value :=
  let rest := drop skip docs in
  if (limit =? 0)%nat then rest else take limit rest.

(** Driver: [$sample] draws [size] distinct documents (all of them when the
    collection is smaller). *)
Fixpoint drawSample (choose : nat -> nat) (size : nat) (docs : list Value)
  : list Value :=
  match size with
  | O => []
  | S size' =>
      let i := choose size' mod length docs in
      match docs !! i with
      | Some doc => doc :: drawSample choose size' (delete i docs)
      | None => []
      end
  end.

(** Driver: [aggregate([{ $sample: { size } }]).toArray()]; the server
    rejects a size that is not positive. *)
Definition aggregateSample (ch : Chance) (docs : list Value) (size : nat)
  : Exc (list Value) :=
  if (size =? 0)%nat
  then Thrown "size argument to $sample must be a positive integer"
  else Ok (drawSample (choose ch) size docs).

Definition getSampleDocuments (c : Connector) (ch : Chance)
  (collectionName : string) (limit : nat) : list Value :=
  if negb (isAvailable c) then []
  else
    match getCollection c collectionName with
    | None => []
    | Some collection =>
        let count := length collection in
        if (count <=? limit)%nat then collection
        else if (count <? 100)%nat then
          let skip := randomBelow ch (count - limit) in
          findSkipLimit collection skip limit
        else
          match aggregateSample ch collection limit with
          | Ok documents => documents
          | Thrown _ => []
          end
    end.

End MongoConnector.

(* ===================================================================== *)
(** ** db/collectionInferencer.ts                                         *)
(* ===================================================================== *)

Module CollectionInferencer.
Import Js.
Import RouteDetection (DetectedRoute, method, path, filePath).

Record CollectionInference : Type := mkInference {
  collectionName : string;
  confidence : float;
  reasoning : string;
  alternativeNames : list string;
}.

Definition SPECIAL_CASES : list (string * list string) :=
  [ ("auth", ["users"; "accounts"]);
    ("login", ["users"; "accounts"]);
    ("register", ["users"; "accounts"]);
    ("signup", ["users"; "accounts"]);
    ("signin", ["users"; "accounts"]);
    ("logout", ["users"; "sessions"]);
    ("profile", ["users"; "profiles"]);
    ("me", ["users"; "profiles"]);
    ("account", ["users"; "accounts"]);
    ("session", ["sessions"; "users"]) ].

Definition IGNORED_SEGMENTS : list string :=
  ["api"; "v1"; "v2"; "v3"; "admin"; "public"; "private"; "endpoints"].

(** Lower-case names every object inherits; indexing the table with one of
    them yields a value that is not a list. *)
Definition inheritedLowerCaseKeys : list string := ["constructor"; "__proto__"].

Definition parseRoutePath (path : string) : list string :=
  map toLowerCase
    (List.filter
       (fun segment =>
          negb (String.eqb segment "")
          && negb (startsWith segment ":")
          && negb (startsWith segment "*")
          && negb (arrayIncludes IGNORED_SEGMENTS (toLowerCase segment)))
       (split "/" path)).

Definition pluralizeToSingular (word : string) : string :=
  if endsWith word "ies" then dropLastN 3 word +:+ "y"
  else if endsWith word "ves" then dropLastN 3 word +:+ "f"
  else if endsWith word "s" then dropLast word
  else word.

Definition pluralizeToPlural (word : string) : string :=
  if endsWith word "y" then dropLast word +:+ "ies"
  else if endsWith word "f" then dropLast word +:+ "ves"
  else word +:+ "s".

Definition isPlural (word : string) : bool :=
  endsWith word "s" || endsWith word "ies" || endsWith word "ves".

Definition commonResources : list string :=
  ["users"; "user"; "products"; "product"; "orders"; "order"; "items"; "item";
   "posts"; "post"; "comments"; "comment"; "categories"; "category";
   "tags"; "tag"; "files"; "file"].

Definition calculateSegmentConfidence (segment method : string) : float :=
  let confidence := 0.5%float in
  let confidence :=
    if arrayIncludes commonResources segment
    then (confidence + 0.3)%float else confidence in
  let confidence :=
    if isPlural segment then (confidence + 0.2)%float else confidence in
  let confidence :=
    if arrayIncludes ["GET"; "POST"; "PUT"; "PATCH"; "DELETE"] method
    then (confidence + 0.1)%float else confidence in
  mathMin confidence 1.0.

Definition inferFromPathSegments (segments : list string) (route : DetectedRoute)
  : CollectionInference :=
  match segments with
  | [] =>
      mkInference "documents" 0.1 "No meaningful segments found, using default"
        ["items"; "data"]
  | resourceSegment :: _ =>
      let collectionName := pluralizeToSingular resourceSegment in
      let confidence := calculateSegmentConfidence resourceSegment (method route) in
      mkInference collectionName confidence
        ("Inferred from path segment: " +:+ resourceSegment)
        (List.filter (fun name => negb (String.eqb name collectionName))
           [resourceSegment; pluralizeToPlural collectionName])
  end.

Definition authKeywords : list string :=
  ["login"; "logout"; "auth"; "signin"; "signup"; "register"; "token"; "session"].

Definition isAuthRoute (route : DetectedRoute) : bool :=
  let pathLower := toLowerCase (path route) in
  existsb (fun keyword => includes pathLower keyword) authKeywords
  || (String.eqb (method route) "POST" && includes pathLower "password").

(** The loop of [inferFromSpecialCases] over the segments: the first
    segment that indexes the table decides. *)
Fixpoint firstSpecialCase (segments : list string)
  : option (Exc CollectionInference) :=
  match segments with
  | [] => None
  | segment :: rest =>
      match assocGet SPECIAL_CASES segment with
      | Some potentialCollections =>
          Some (Ok (mkInference (hd "" potentialCollections) 0.8
                      ("Special case mapping for '" +:+ segment +:+ "'")
                      (tl potentialCollections)))
      | None =>
          if arrayIncludes inheritedLowerCaseKeys segment
          then Some (Thrown "potentialCollections.slice is not a function")
          else firstSpecialCase rest
      end
  end.

Definition inferFromSpecialCases (segments : list string) (route : DetectedRoute)
  : Exc CollectionInference :=
  match firstSpecialCase segments with
  | Some outcome => outcome
  | None =>
      if isAuthRoute route then
        Ok (mkInference "users" 0.7 "Appears to be authentication-related route"
              ["accounts"; "profiles"])
      else Ok (mkInference "unknown" 0.0 "No special cases matched" [])
  end.

Definition inferFromRouteMethod (segments : list string) (route : DetectedRoute)
  : CollectionInference :=
  match segments with
  | [] => mkInference "unknown" 0.0 "No segments to analyze" []
  | resourceSegment :: _ =>
      let confidence := 0.3%float in
      let hasIdParam := includes (path route) ":id" || includes (path route) "/:" in
      let confidence :=
        if hasIdParam && arrayIncludes ["GET"; "PUT"; "PATCH"; "DELETE"] (method route)
        then (confidence + 0.2)%float else confidence in
      let confidence :=
        if arrayIncludes ["POST"] (method route) && negb hasIdParam
        then (confidence + 0.2)%float else confidence in
      let collectionName := pluralizeToSingular resourceSegment in
      mkInference collectionName confidence
        ("REST pattern: " +:+ method route +:+ " suggests '" +:+ collectionName
         +:+ "' collection")
        [resourceSegment]
  end.

Definition isPathSeparator (c : ascii) : bool :=
  Ascii.eqb c "/" || Ascii.eqb c "\".

(** [name.replace(/\.(js|ts)$/, "")] *)
Definition stripScriptExtension (name : string) : string :=
  if endsWith name ".js" || endsWith name ".ts" then dropLastN 3 name else name.

Definition genericNames : list string :=
  ["index"; "routes"; "route"; "router"; "app"; "server"; "api"].

Definition inferFromFileName (filePath : string) : CollectionInference :=
  let fileName := stripScriptExtension (List.last (splitOn isPathSeparator filePath) "") in
  let cleanFileName := toLowerCase fileName in
  if arrayIncludes genericNames cleanFileName then
    mkInference "unknown" 0.0 "Generic file name provides no collection hints" []
  else
    let pathParts := splitOn isPathSeparator (toLowerCase filePath) in
    let potentialCollections :=
      List.filter (fun part => (2 <? String.length part)%nat)
        (List.filter
           (fun part =>
              negb (includes part ".") && negb (arrayIncludes IGNORED_SEGMENTS part))
           pathParts) in
    match List.rev potentialCollections with
    | lastPart :: earlier =>
        mkInference (pluralizeToSingular lastPart) 0.4
          ("Inferred from file path: " +:+ fileName) (List.rev earlier)
    | [] => mkInference "unknown" 0.0 "File path provides no collection hints" []
    end.

(** [inferences.reduce((best, current) =>
      current.confidence > best.confidence ? current : best)] *)
Definition better (best current : CollectionInference) : CollectionInference :=
  if PrimFloat.ltb (confidence best) (confidence current) then current else best.

Definition collectAlternatives (bestName : string) (seen : list string)
  (inference : CollectionInference) : list string :=
  let seen :=
    if negb (String.eqb (collectionName inference) bestName)
    then setAddAll seen [collectionName inference] else seen in
  setAddAll seen (alternativeNames inference).

Definition inferCollectionName (route : DetectedRoute) : Exc CollectionInference :=
  let pathSegments := parseRoutePath (path route) in
  let first := inferFromPathSegments pathSegments route in
  match inferFromSpecialCases pathSegments route with
  | Thrown message => Thrown message
  | Ok second =>
      let inferences :=
        [first; second; inferFromRouteMethod pathSegments route;
         inferFromFileName (filePath route)] in
      let bestInference := foldl better first (tl inferences) in
      let allAlternatives :=
        foldl (collectAlternatives (collectionName bestInference)) [] inferences in
      Ok (mkInference (collectionName bestInference) (confidence bestInference)
            (reasoning bestInference) (slice allAlternatives 0 5))
  end.

Definition byConfidenceDescending (a b : CollectionInference) : float :=
  (confidence b - confidence a)%float.

Definition getCollectionSuggestions (route : DetectedRoute)
  : Exc (list CollectionInference) :=
  match inferCollectionName route with
  | Thrown message => Thrown message
  | Ok primary =>
      let alternatives :=
        map (fun altName =>
               mkInference altName (mathMax 0.1 (confidence primary - 0.3)%float)
                 ("Alternative to " +:+ collectionName primary) [])
          (List.filter
             (fun altName => negb (String.eqb altName (collectionName primary)))
             (alternativeNames primary)) in
      Ok (sort byConfidenceDescending (primary :: alternatives))
  end.

End CollectionInferencer.

(* ===================================================================== *)
(** ** db/objectIdResolver.ts                                             *)
(* ===================================================================== *)

Module ObjectIdResolver.
Import Js.

Record ResolvedObjectId : Type := mkResolved {
  objectId : string;
  sourceCollection : string;
  displayInfo : Value;
  confidence : float;
}.

Record ObjectIdResolution : Type := mkResolution {
  fieldName : string;
  suggestedIds : list ResolvedObjectId;
  possibleCollections : list string;
  success : bool;
  errorMessage : option string;
}.

Definition FIELD_COLLECTION_MAPPINGS : list (string * list string) :=
  [ ("userId", ["users"; "user"; "accounts"; "profiles"]);
    ("user_id", ["users"; "user"; "accounts"; "profiles"]);
    ("authorId", ["users"; "user"; "authors"; "profiles"]);
    ("author_id", ["users"; "user"; "authors"; "profiles"]);
    ("ownerId", ["users"; "user"; "owners"]);
    ("owner_id", ["users"; "user"; "owners"]);
    ("createdBy", ["users"; "user"; "accounts"]);
    ("updatedBy", ["users"; "user"; "accounts"]);
    ("productId", ["products"; "product"; "items"]);
    ("product_id", ["products"; "product"; "items"]);
    ("itemId", ["items"; "item"; "products"]);
    ("item_id", ["items"; "item"; "products"]);
    ("orderId", ["orders"; "order"; "purchases"]);
    ("order_id", ["orders"; "order"; "purchases"]);
    ("purchaseId", ["purchases"; "purchase"; "orders"]);
    ("purchase_id", ["purchases"; "purchase"; "orders"]);
    ("categoryId", ["categories"; "category"; "tags"]);
    ("category_id", ["categories"; "category"; "tags"]);
    ("tagId", ["tags"; "tag"; "categories"]);
    ("tag_id", ["tags"; "tag"; "categories"]);
    ("postId", ["posts"; "post"; "articles"; "blogs"]);
    ("post_id", ["posts"; "post"; "articles"; "blogs"]);
    ("articleId", ["articles"; "article"; "posts"]);
    ("article_id", ["articles"; "article"; "posts"]);
    ("commentId", ["comments"; "comment"; "replies"]);
    ("comment_id", ["comments"; "comment"; "replies"]);
    ("fileId", ["files"; "file"; "uploads"; "attachments"]);
    ("file_id", ["files"; "file"; "uploads"; "attachments"]);
    ("uploadId", ["uploads"; "upload"; "files"]);
    ("upload_id", ["uploads"; "upload"; "files"]);
    ("sessionId", ["sessions"; "session"; "tokens"]);
    ("session_id", ["sessions"; "session"; "tokens"]);
    ("tokenId", ["tokens"; "token"; "sessions"]);
    ("token_id", ["tokens"; "token"; "sessions"]);
    ("organizationId", ["organizations"; "organization"; "orgs"; "companies"]);
    ("organization_id", ["organizations"; "organization"; "orgs"; "companies"]);
    ("companyId", ["companies"; "company"; "organizations"]);
    ("company_id", ["companies"; "company"; "organizations"]);
    ("projectId", ["projects"; "project"]);
    ("project_id", ["projects"; "project"]);
    ("taskId", ["tasks"; "task"; "todos"]);
    ("task_id", ["tasks"; "task"; "todos"]) ].

(** Names every object inherits: indexing the table with one of them gives
    a value that is truthy and cannot be spread into an array. *)
Definition inheritedKeys : list string :=
  ["constructor"; "toString"; "toLocaleString"; "valueOf"; "hasOwnProperty";
   "isPrototypeOf"; "propertyIsEnumerable"; "__proto__"; "__defineGetter__";
   "__defineSetter__"; "__lookupGetter__"; "__lookupSetter__"].

Definition getPossibleCollections (fieldName : string) : Exc (list string) :=
  match assocGet FIELD_COLLECTION_MAPPINGS fieldName with
  | Some collections => Ok collections
  | None =>
      if arrayIncludes inheritedKeys fieldName
      then Thrown "this.FIELD_COLLECTION_MAPPINGS[fieldName] is not iterable"
      else
        let lowerFieldName := toLowerCase fieldName in
        match List.find
                (fun entry => String.eqb (toLowerCase (fst entry)) lowerFieldName)
                FIELD_COLLECTION_MAPPINGS with
        | Some (_, collections) => Ok collections
        | None => Ok []
        end
  end.

(** [s.replace(/suffix$/, "")] *)
Definition stripSuffix (suffix s : string) : string :=
  if endsWith s suffix then dropLastN (String.length suffix) s else s.

Definition inferCollectionFromFieldName (fieldName : string) : list string :=
  let lowerFieldName := toLowerCase fieldName in
  let withoutSuffix :=
    stripSuffix "_ref" (stripSuffix "ref" (stripSuffix "_id"
      (stripSuffix "id" lowerFieldName))) in
  if negb (String.eqb withoutSuffix "")
     && negb (String.eqb withoutSuffix lowerFieldName)
  then
    [withoutSuffix; withoutSuffix +:+ "s"]
    ++ (if endsWith withoutSuffix "y"
        then [dropLast withoutSuffix +:+ "ies"] else [])
  else [].

(** The connection as the resolver sees it: availability, the collection
    names the connector lists (an empty list on any driver error), and the
    queries behind [getObjectIdsFromCollection]. *)
Record Store : Type := mkStore {
  isAvailable : bool;
  listCollections : list string;
  getObjectIdsFromCollection :
    string -> string -> option string -> nat -> Exc (list ResolvedObjectId);
}.

Definition byConfidenceDescending (a b : ResolvedObjectId) : float :=
  (confidence b - confidence a)%float.

Section WithStore.
Variable store : Store.

(** The loop that gathers identifiers from every candidate collection. *)
Fixpoint collectIds (fieldName : string) (contextCollection : option string)
  (limit : nat) (collections : list string) (acc : list ResolvedObjectId)
  : Exc (list ResolvedObjectId) :=
  match collections with
  | [] => Ok acc
  | collectionName :: rest =>
      match getObjectIdsFromCollection store collectionName fieldName
              contextCollection limit with
      | Thrown message => Thrown message
      | Ok objectIds =>
          collectIds fieldName contextCollection limit rest (acc ++ objectIds)
      end
  end.

(** The tail of the [try] block, once the candidate collections that exist
    are known. *)
Definition suggestFrom (fieldName : string) (contextCollection : option string)
  (limit : nat) (existingCollections : list string) : Exc ObjectIdResolution :=
  match collectIds fieldName contextCollection limit existingCollections [] with
  | Thrown message => Thrown message
  | Ok allSuggestedIds =>
      let topSuggestions :=
        slice (sort byConfidenceDescending allSuggestedIds) 0 (Z.of_nat limit) in
      Ok (mkResolution fieldName topSuggestions existingCollections true None)
  end.

(** The [try] block of [resolveObjectIdField]. *)
Definition resolveBody (fieldName : string) (contextCollection : option string)
  (limit : nat) : Exc ObjectIdResolution :=
  match getPossibleCollections fieldName with
  | Thrown message => Thrown message
  | Ok possibleCollections =>
      let availableCollections := listCollections store in
      let existingCollections :=
        List.filter (arrayIncludes availableCollections) possibleCollections in
      match existingCollections with
      | [] =>
          let inferredCollections :=
            List.filter (arrayIncludes availableCollections)
              (inferCollectionFromFieldName fieldName) in
          match inferredCollections with
          | [] =>
              Ok (mkResolution fieldName [] availableCollections true
                    (Some ("No matching collections found for field '"
                           +:+ fieldName +:+ "'")))
          | _ :: _ =>
              suggestFrom fieldName contextCollection limit inferredCollections
          end
      | _ :: _ =>
          suggestFrom fieldName contextCollection limit existingCollections
      end
  end.

Definition resolveObjectIdField (fieldName : string)
  (contextCollection : option string) (limit : nat) : ObjectIdResolution :=
  if negb (isAvailable store) then
    mkResolution fieldName [] [] false (Some "MongoDB not connected")
  else
    match resolveBody fieldName contextCollection limit with
    | Ok resolution => resolution
    | Thrown message => mkResolution fieldName [] [] false (Some message)
    end.

(** [resolveMultipleObjectIds]: one resolution per field, later entries of
    the same name replacing earlier ones. *)
Definition resolveMultipleObjectIds (fields : list string)
  (contextCollection : option string) : gmap string ObjectIdResolution :=
  foldl
    (fun results field =>
       <[field := resolveObjectIdField field contextCollection 5]> results)
    ∅ fields.

End WithStore.

End ObjectIdResolver.

(* ===================================================================== *)
(** ** db/hybridPayloadGenerator.ts                                       *)
(* ===================================================================== *)

Module HybridPayloadGenerator.
Import Js.
Import RouteDetection (DetectedRoute, method).

(** [PredictedField] and [PayloadPrediction] (the optional [headers] and
    [baseUrl] of a prediction are not read by the generator).  The fields of
    a prediction are the [fields] of the language model's answer, which
    [parseBackendResponse] passes on as it receives them: [name] and [type],
    whose methods the generator calls, are kept as the values they are,
    strings or not ([undefined] when the property is missing).  Of
    [required] the generator reads the truthiness alone, of [description]
    the text. *)
Record PredictedField : Type := mkPredicted {
  pf_name : Value;
  pf_type : Value;
  pf_required : bool;
  pf_example : Value;
  pf_description : string;
}.

(** The predicted field is as [PredictedField] declares it: its name and
    its type are strings. *)
Definition asDeclared (field : PredictedField) : bool :=
  match pf_name field, pf_type field with
  | VString _, VString _ => true
  | _, _ => false
  end.

Record PayloadPrediction : Type := mkPrediction {
  pp_fields : list PredictedField;
}.

Record SampleDocument : Type := mkSample {
  _id : Value;
  data : Value;
  displayName : string;
  summary : string;
}.

Record CollectionSampleData : Type := mkSampleData {
  sd_collectionName : string;
  sd_confidence : float;
  sd_samples : list SampleDocument;
  sd_totalDocuments : nat;
  sd_success : bool;
  sd_errorMessage : option string;
}.

(** The part of a [DetailedSchemaField] and of a [CollectionSchema] that
    the generator reads. *)
Record DetailedSchemaField : Type := mkSchemaField {
  sf_name : string;
  sf_type : string;
  sf_frequency : float;
  sf_examples : list Value;
  sf_isRequired : bool;
  sf_possibleValues : option (list Value);
}.

Record CollectionSchema : Type := mkSchema {
  detailedFields : list DetailedSchemaField;
}.

(** What [getMongoData] resolves to when it is not [null]. *)
Record MongoData : Type := mkMongoData {
  primary : CollectionSampleData;
  schema : option CollectionSchema;
}.

Inductive Source : Type := ai | mongodb | hybrid.

Inductive Approach : Type := ai_only | mongo_only | hybrid_approach.

Record MongoFieldInfo : Type := mkFieldInfo {
  mfi_type : string;
  mfi_frequency : float;
  mfi_isRequired : bool;
  mfi_possibleValues : option (list Value);
}.

Record HybridFieldPrediction : Type := mkHybridField {
  name : Value;
  type : Value;
  required : bool;
  example : Value;
  description : string;
  realValues : option (list Value);
  hasRealData : bool;
  confidence : float;
  source : Source;
  mongoFieldInfo : option MongoFieldInfo;
}.

(** Both the name and the type of the field are strings. *)
Definition textual (field : HybridFieldPrediction) : Prop :=
  (exists text, name field = VString text)
  /\ (exists text, type field = VString text).

Record HybridPayloadPrediction : Type := mkHybridPrediction {
  fields : list HybridFieldPrediction;
  collectionName : option string;
  collectionConfidence : float;
  sampleDocuments : list SampleDocument;
  hasMongoData : bool;
  aiPrediction : option PayloadPrediction;
  mongoSchema : option CollectionSchema;
  recommendedApproach : Approach;
}.

Record PayloadGenerationOptions : Type := mkOptions {
  preferRealData : bool;
  includeAllFields : bool;
  useAIFallback : bool;
  limitFields : option nat;
  excludeFields : option (list string);
  forceFields : option (list string);
}.

(** The field has at least one real value. *)
Definition hasValues (field : HybridFieldPrediction) : bool :=
  match realValues field with
  | Some (_ :: _) => true
  | _ => false
  end.

Definition flagMatchesValues (field : HybridFieldPrediction) : Prop :=
  hasRealData field = hasValues field.

Definition getDefaultOptions : PayloadGenerationOptions :=
  mkOptions true false true (Some 15) (Some ["__v"; "_id"]) (Some []).

(** Everything the generator reaches outside itself.  [predict n] is the
    outcome of the [n]-th call of the language-model predictor for the
    route; [getRealDataForRoute] is the [primary] of the sampled data;
    [findWithField c f n] is the driver query
    [find({ [f]: { $exists: true, $ne: null } }).limit(n).toArray()] on
    collection [c]. *)
Record World : Type := mkWorld {
  mongoAvailable : bool;
  predict : nat -> Exc (option PayloadPrediction);
  getRealDataForRoute : Exc (option CollectionSampleData);
  getCollectionSchema : string -> Exc (option CollectionSchema);
  findWithField : string -> string -> nat -> Exc (list Value);
  store : ObjectIdResolver.Store;
  JSON_stringify : Value -> Exc string;
  valueToString : Value -> string;
}.

Definition optionIncludes (xs : option (list string)) (x : string) : bool :=
  match xs with
  | Some l => arrayIncludes l x
  | None => false
  end.

Definition shouldSkipField (fieldName method : string)
  (options : PayloadGenerationOptions) : bool :=
  if optionIncludes (excludeFields options) fieldName then true
  else if optionIncludes (forceFields options) fieldName then false
  else if startsWith fieldName "__"
          || (String.eqb fieldName "_id" && String.eqb method "POST") then true
  else if String.eqb fieldName "__v" || String.eqb fieldName "version" then true
  else if String.eqb method "POST"
          && (String.eqb fieldName "createdAt" || String.eqb fieldName "updatedAt")
  then true
  else false.

(** [value === text] *)
Definition isString (value : Value) (text : string) : bool :=
  match value with
  | VString s => String.eqb s text
  | _ => false
  end.

(** Truthiness of a value. *)
Definition truthy (value : Value) : bool :=
  match value with
  | VNull | VUndefined => false
  | VBool b => b
  | VNumber x => negb (PrimFloat.eqb x 0 || isNaN x)
  | VString s => negb (String.eqb s "")
  | VDate _ | VObjectId _ | VArray _ | VObject _ => true
  end.

(** The [TypeError] raised by [expression.method(...)] when the value of the
    expression has no such method. *)
Definition noMethod (value : Value) (expression method : string) : string :=
  match value with
  | VUndefined =>
      "Cannot read properties of undefined (reading '" +:+ method +:+ "')"
  | VNull => "Cannot read properties of null (reading '" +:+ method +:+ "')"
  | _ => expression +:+ "." +:+ method +:+ " is not a function"
  end.

(** [field.type.includes(sub)]: strings and arrays have the method. *)
Definition typeIncludes (value : Value) (sub : string) : Exc bool :=
  match value with
  | VString text => Ok (includes text sub)
  | VArray items => Ok (existsb (fun item => isString item sub) items)
  | other => Thrown (noMethod other "field.type" "includes")
  end.

(** [xs.filter(test)] with a test that may throw: the first throw ends the
    call. *)
Fixpoint filterExc {A} (test : A -> Exc bool) (xs : list A) : Exc (list A) :=
  match xs with
  | [] => Ok []
  | x :: rest =>
      match test x with
      | Thrown message => Thrown message
      | Ok keep =>
          match filterExc test rest with
          | Thrown message => Thrown message
          | Ok kept => Ok (if keep then x :: kept else kept)
          end
      end
  end.

Definition calculateFieldConfidence (aiField : option PredictedField)
  (mongoField : option DetailedSchemaField) (realValues : option (list Value))
  : float :=
  let confidence := 0.5%float in
  let confidence :=
    match mongoField with
    | Some mf =>
        let c := (confidence + 0.3)%float in
        let c := if PrimFloat.ltb 80 (sf_frequency mf) then (c + 0.1)%float else c in
        if sf_isRequired mf then (c + 0.1)%float else c
    | None => confidence
    end in
  let confidence :=
    match aiField with
    | Some af =>
        let c := (confidence + 0.2)%float in
        if pf_required af then (c + 0.1)%float else c
    | None => confidence
    end in
  let confidence :=
    match realValues with
    | Some (_ :: _) => (confidence + 0.2)%float
    | _ => confidence
    end in
  let confidence :=
    match aiField, mongoField with
    | Some af, Some mf =>
        if negb (isString (pf_type af) (sf_type mf))
        then (confidence - 0.1)%float else confidence
    | _, _ => confidence
    end in
  mathMin (mathMax confidence 0.1) 1.0.

Definition isObjectValue (v : Value) : bool :=
  match v with
  | VDate _ | VObjectId _ | VArray _ | VObject _ => true
  | _ => false
  end.

(** Decimal array index written without sign or leading zero. *)
Fixpoint digitsValue (acc : nat) (s : string) : option nat :=
  match s with
  | EmptyString => Some acc
  | String c s' =>
      let n := nat_of_ascii c in
      if (48 <=? n)%nat && (n <=? 57)%nat
      then digitsValue (10 * acc + (n - 48)) s' else None
  end.

Definition arrayIndex (s : string) : option nat :=
  match s with
  | EmptyString => None
  | String "0" (String _ _) => None
  | _ => digitsValue 0 s
  end.

(** One step of the dotted-path walk: [part in current] then
    [current[part]], on the own properties of a plain object and the
    elements of an array. *)
Definition getProperty (current : Value) (part : string) : option Value :=
  match current with
  | VObject props => assocGet props part
  | VArray items =>
      match arrayIndex part with
      | Some i => items !! i
      | None => None
      end
  | _ => None
  end.

Fixpoint walkPath (current : Value) (parts : list string) : Value :=
  match parts with
  | [] => current
  | part :: rest =>
      match getProperty current part with
      | Some next => walkPath next rest
      | None => VNull
      end
  end.

Definition getNestedFieldValue (obj : Value) (fieldPath : string) : Value :=
  if negb (isObjectValue obj) then VNull
  else walkPath obj (split "." fieldPath).

(** [doc[key]] on a document. *)
Definition indexValue (doc : Value) (key : string) : Value :=
  match doc with
  | VObject props => default VUndefined (assocGet props key)
  | _ => VUndefined
  end.

Definition isNullish (v : Value) : bool :=
  match v with
  | VNull | VUndefined => true
  | _ => false
  end.

Section WithWorld.
Variable world : World.

(** [SampleDataFetcher.fetchFieldSamples] of [db/sampleDataFetcher.ts]. *)
Definition fetchFieldSamples (collectionName fieldName : string) (limit : nat)
  : list Value :=
  if negb (mongoAvailable world) then []
  else
    match findWithField world collectionName fieldName limit with
    | Ok docs =>
        List.filter (fun value => negb (isNullish value))
          (map (fun doc => indexValue doc fieldName) docs)
    | Thrown _ => []
    end.

Definition sanitizeValue (value : Value) : Value :=
  match value with
  | VDate iso => VString iso
  | VObjectId _ | VArray _ | VObject _ =>
      let text := valueToString world value in
      if (String.length text =? 24)%nat then VString text else value
  | _ => value
  end.

(** The loop of [getRealValuesForField] over the sample documents. *)
Fixpoint scanSamples (fieldName : string) (sampleDocuments : list SampleDocument)
  (values : list Value) (seen : list string) : Exc (list Value) :=
  match sampleDocuments with
  | [] => Ok values
  | sample :: rest =>
      match getNestedFieldValue (data sample) fieldName with
      | VNull | VUndefined => scanSamples fieldName rest values seen
      | value =>
          match JSON_stringify world value with
          | Thrown message => Thrown message
          | Ok stringValue =>
              if arrayIncludes seen stringValue
              then scanSamples fieldName rest values seen
              else scanSamples fieldName rest (values ++ [sanitizeValue value])
                     (seen ++ [stringValue])
          end
      end
  end.

Definition getRealValuesForField (fieldName : string)
  (sampleDocuments : list SampleDocument) (collectionName : option string)
  : Exc (list Value) :=
  match scanSamples fieldName sampleDocuments [] [] with
  | Thrown message => Thrown message
  | Ok values =>
      match values, truthyString collectionName with
      | [], Some collection =>
          Ok (map sanitizeValue (fetchFieldSamples collection fieldName 5))
      | _, _ => Ok values
      end
  end.

Definition nonEmpty {A} (l : list A) : bool :=
  match l with [] => false | _ :: _ => true end.

(** [a || b] on strings. *)
Definition stringOr (a b : string) : string :=
  if String.eqb a "" then b else a.

(** The element pushed for one schema field in the first loop of
    [mergeFieldPredictions]. *)
Definition mergeMongoField (aiFields : list PredictedField)
  (mongoData : MongoData) (mongoField : DetailedSchemaField)
  : Exc HybridFieldPrediction :=
  let aiField :=
    List.find (fun af => isString (pf_name af) (sf_name mongoField)) aiFields in
  let collection := sd_collectionName (primary mongoData) in
  match getRealValuesForField (sf_name mongoField)
          (sd_samples (primary mongoData)) (Some collection) with
  | Thrown message => Thrown message
  | Ok realValues =>
      Ok (mkHybridField
            (VString (sf_name mongoField))
            (match aiField with
             | Some af =>
                 if truthy (pf_type af) then pf_type af
                 else VString (sf_type mongoField)
             | None => VString (sf_type mongoField)
             end)
            (sf_isRequired mongoField)
            (match realValues with
             | first :: _ => first
             | [] => hd VUndefined (sf_examples mongoField)
             end)
            (stringOr
               (match aiField with Some af => pf_description af | None => "" end)
               ("Field from " +:+ collection +:+ " collection"))
            (Some realValues)
            (nonEmpty realValues)
            (calculateFieldConfidence aiField (Some mongoField) (Some realValues))
            (match aiField with Some _ => hybrid | None => mongodb end)
            (Some (mkFieldInfo (sf_type mongoField) (sf_frequency mongoField)
                     (sf_isRequired mongoField) (sf_possibleValues mongoField))))
  end.

(** First loop: the schema fields. *)
Fixpoint mergeMongoFields (aiFields : list PredictedField) (mongoData : MongoData)
  (method : string) (options : PayloadGenerationOptions)
  (mongoFields : list DetailedSchemaField)
  (hybridFields : list HybridFieldPrediction) (processedFields : list string)
  : Exc (list HybridFieldPrediction * list string) :=
  match mongoFields with
  | [] => Ok (hybridFields, processedFields)
  | mongoField :: rest =>
      if shouldSkipField (sf_name mongoField) method options then
        mergeMongoFields aiFields mongoData method options rest hybridFields
          processedFields
      else
        match mergeMongoField aiFields mongoData mongoField with
        | Thrown message => Thrown message
        | Ok field =>
            mergeMongoFields aiFields mongoData method options rest
              (hybridFields ++ [field])
              (setAddAll processedFields [sf_name mongoField])
        end
  end.

(** Second loop: the predicted fields the schema did not cover.  A name
    that is not a string is in no set and in no list of strings, so that
    [processedFields.has] and the two [includes] of [shouldSkipField] are
    [false] of it and [shouldSkipField] goes on to [fieldName.startsWith],
    which throws. *)
Fixpoint mergeAiFields (mongoData : option MongoData) (method : string)
  (options : PayloadGenerationOptions) (aiFields : list PredictedField)
  (hybridFields : list HybridFieldPrediction) (processedFields : list string)
  : Exc (list HybridFieldPrediction) :=
  match aiFields with
  | [] => Ok hybridFields
  | aiField :: rest =>
      match pf_name aiField with
      | VString fieldName =>
          if negb (arrayIncludes processedFields fieldName)
             && negb (shouldSkipField fieldName method options)
          then
            match
              match mongoData with
              | Some md =>
                  getRealValuesForField fieldName (sd_samples (primary md)) None
              | None => Ok []
              end
            with
            | Thrown message => Thrown message
            | Ok realValues =>
                mergeAiFields mongoData method options rest
                  (hybridFields ++
                   [mkHybridField (VString fieldName) (pf_type aiField)
                      (pf_required aiField) (pf_example aiField)
                      (pf_description aiField) (Some realValues)
                      (nonEmpty realValues)
                      (if nonEmpty realValues then 0.8%float else 0.6%float)
                      (if nonEmpty realValues then hybrid else ai)
                      None])
                  (setAddAll processedFields [fieldName])
            end
          else
            mergeAiFields mongoData method options rest hybridFields
              processedFields
      | other => Thrown (noMethod other "fieldName" "startsWith")
      end
  end.

Definition looksLikeObjectId (val : Value) : bool :=
  match val with
  | VString s => (String.length s =? 24)%nat && isHex24 s
  | _ => false
  end.

(** The test of the [filter] in [resolveObjectIdFields]. *)
Definition isObjectIdField (field : HybridFieldPrediction) : Exc bool :=
  match typeIncludes (type field) "ObjectId" with
  | Thrown message => Thrown message
  | Ok true => Ok true
  | Ok false =>
      match name field with
      | VString text =>
          Ok (includes (toLowerCase text) "id"
              || match realValues field with
                 | Some values => existsb looksLikeObjectId values
                 | None => false
                 end)
      | other => Thrown (noMethod other "field.name" "toLowerCase")
      end
  end.

(** The name of a field as the resolver is given it.  The fields that
    [mergeFieldPredictions] gathers have strings for names; a name of
    another kind is given no resolution. *)
Definition nameText (field : HybridFieldPrediction) : option string :=
  match name field with
  | VString text => Some text
  | _ => None
  end.

Definition applyResolution
  (resolutions : gmap string ObjectIdResolver.ObjectIdResolution)
  (field : HybridFieldPrediction) : HybridFieldPrediction :=
  match isObjectIdField field with
  | Ok true =>
      match
        match nameText field with
        | Some text => resolutions !! text
        | None => None
        end
      with
      | Some resolution =>
          if ObjectIdResolver.success resolution
             && nonEmpty (ObjectIdResolver.suggestedIds resolution)
          then
            mkHybridField (name field) (type field) (required field)
              (example field) (description field)
              (Some (map (fun resolved =>
                            VString (ObjectIdResolver.objectId resolved))
                       (slice (ObjectIdResolver.suggestedIds resolution) 0 3)))
              true
              (mathMax (confidence field) 0.8)
              (match source field with ai => hybrid | other => other end)
              (mongoFieldInfo field)
          else field
      | None => field
      end
  | _ => field
  end.

(** The [filter] stands before the [try]: what it throws leaves the
    method. *)
Definition resolveObjectIdFields (fields : list HybridFieldPrediction)
  (collectionName : option string) : Exc (list HybridFieldPrediction) :=
  match filterExc isObjectIdField fields with
  | Thrown message => Thrown message
  | Ok [] => Ok fields
  | Ok objectIdFields =>
      let resolutions :=
        ObjectIdResolver.resolveMultipleObjectIds (store world)
          (omap nameText objectIdFields) collectionName in
      Ok (map (applyResolution resolutions) fields)
  end.

(** The comparator of the final sort: required fields first, then by
    descending confidence. *)
Definition byImportance (a b : HybridFieldPrediction) : float :=
  if required a && negb (required b) then (-1)%float
  else if negb (required a) && required b then 1%float
  else (confidence b - confidence a)%float.

Definition mergeFieldPredictions (aiFields : list PredictedField)
  (mongoData : option MongoData) (route : DetectedRoute)
  (options : PayloadGenerationOptions) : Exc (list HybridFieldPrediction) :=
  match
    match mongoData with
    | Some md =>
        match schema md with
        | Some sch =>
            mergeMongoFields aiFields md (method route) options
              (detailedFields sch) [] []
        | None => Ok ([], [])
        end
    | None => Ok ([], [])
    end
  with
  | Thrown message => Thrown message
  | Ok (hybridFields, processedFields) =>
      match mergeAiFields mongoData (method route) options aiFields hybridFields
              processedFields with
      | Thrown message => Thrown message
      | Ok hybridFields =>
          match
            resolveObjectIdFields hybridFields
              (match mongoData with
               | Some md => Some (sd_collectionName (primary md))
               | None => None
               end)
          with
          | Thrown message => Thrown message
          | Ok hybridFields =>
              let hybridFields := sort byImportance hybridFields in
              match limitFields options with
              | Some (S n) => Ok (slice hybridFields 0 (Z.of_nat (S n)))
              | _ => Ok hybridFields
              end
          end
      end
  end.

Definition determineRecommendedApproach (aiPrediction : option PayloadPrediction)
  (mongoData : option MongoData) (options : PayloadGenerationOptions) : Approach :=
  let hasAI :=
    match aiPrediction with
    | Some prediction => nonEmpty (pp_fields prediction)
    | None => false
    end in
  let hasMongo :=
    match mongoData with
    | Some md => nonEmpty (sd_samples (primary md))
    | None => false
    end in
  if negb hasAI && negb hasMongo then ai_only
  else if negb hasAI && hasMongo then mongo_only
  else if hasAI && negb hasMongo then ai_only
  else if hasAI && hasMongo then
    if preferRealData options then
      match mongoData with
      | Some md =>
          if PrimFloat.ltb 0.6 (sd_confidence (primary md))
          then hybrid_approach else ai_only
      | None => hybrid_approach
      end
    else hybrid_approach
  else hybrid_approach.

Definition getAIPrediction (attempt : nat) (options : PayloadGenerationOptions)
  : option PayloadPrediction :=
  if negb (useAIFallback options) && negb (preferRealData options) then None
  else
    match predict world attempt with
    | Ok prediction => prediction
    | Thrown _ => None
    end.

Definition getMongoData : option MongoData :=
  match getRealDataForRoute world with
  | Thrown _ => None
  | Ok None => None
  | Ok (Some realPrimary) =>
      match getCollectionSchema world (sd_collectionName realPrimary) with
      | Thrown _ => None
      | Ok schema => Some (mkMongoData realPrimary schema)
      end
  end.

(** [mongoData?.primary] *)
Definition primaryOf (mongoData : option MongoData)
  : Nullish CollectionSampleData :=
  match mongoData with
  | Some md => Present (primary md)
  | None => Undefined
  end.

Definition getEmptyPrediction : HybridPayloadPrediction :=
  mkHybridPrediction [] None 0 [] false None None ai_only.

(** The [catch] block of [generateHybridPrediction]. *)
Definition aiOnlyFallback (options : PayloadGenerationOptions)
  : HybridPayloadPrediction :=
  let aiPrediction := getAIPrediction 1 options in
  mkHybridPrediction
    (match aiPrediction with
     | Some prediction =>
         map (fun field =>
                mkHybridField (pf_name field) (pf_type field) (pf_required field)
                  (pf_example field) (pf_description field) None false 0.5 ai None)
           (pp_fields prediction)
     | None => []
     end)
    None 0 [] false aiPrediction None ai_only.

Definition generateHybridPrediction (route : DetectedRoute)
  (options : PayloadGenerationOptions) : HybridPayloadPrediction :=
  let hasMongoConnection := mongoAvailable world in
  let aiPrediction := getAIPrediction 0 options in
  let mongoData := if hasMongoConnection then getMongoData else None in
  let recommendedApproach :=
    determineRecommendedApproach aiPrediction mongoData options in
  match
    mergeFieldPredictions
      (match aiPrediction with Some p => pp_fields p | None => [] end)
      mongoData route options
  with
  | Ok hybridFields =>
      mkHybridPrediction hybridFields
        (match mongoData with
         | Some md => Some (sd_collectionName (primary md))
         | None => None
         end)
        (match mongoData with
         | Some md => numberOrZero (sd_confidence (primary md))
         | None => 0%float
         end)
        (match mongoData with
         | Some md => sd_samples (primary md)
         | None => []
         end)
        (hasMongoConnection && strictNotNull (primaryOf mongoData))
        aiPrediction
        (match mongoData with Some md => schema md | None => None end)
        recommendedApproach
  | Thrown _ => aiOnlyFallback options
  end.

End WithWorld.

End HybridPayloadGenerator.

(* ===================================================================== *)
(** ** routeDetection.ts: names used to state what a route call yields    *)
(* ===================================================================== *)

Module RouteArguments.
Import Js Ast.

(** The name of an argument that is a bare identifier. *)
Definition identifierName (n : Node) : option string :=
  match n with
  | Identifier name => Some name
  | _ => None
  end.

(** The handler a last argument stands for: an identifier, or
    [controller.method]; [fallback] for any other expression and when there
    is no argument after the path. *)
Definition handlerNameOr (fallback : string) (lastArgument : option Node)
  : string :=
  match lastArgument with
  | Some (Identifier name) => name
  | Some (MemberExpression (Identifier controllerName) (Identifier methodName)) =>
      controllerName +:+ "." +:+ methodName
  | _ => fallback
  end.

(** The route a visited node stands for, read with the prefix and import
    tables of [d]: a call [object.verb("path", ...)] with one of the seven
    verbs. *)
Definition routeOfNode (d : RouteDetection.Detector) (file : string) (n : Node)
  : option RouteDetection.DetectedRoute :=
  match n with
  | CallExpression loc (MemberExpression object (Identifier property))
      (StringLiteral routePath :: rest) =>
      if arrayIncludes RouteDetection.httpMethods (toLowerCase property)
      then Some (RouteDetection.routeOfCall d loc object property routePath
                   rest file)
      else None
  | _ => None
  end.

(** A call [object.verb()] without arguments, with one of the seven
    verbs. *)
Definition isBareVerbCall (n : Node) : bool :=
  match n with
  | CallExpression _ (MemberExpression _ (Identifier property)) [] =>
      arrayIncludes RouteDetection.httpMethods (toLowerCase property)
  | _ => false
  end.

(** The nodes before the first call of that kind. *)
Fixpoint beforeBareVerbCall (nodes : list Node) : list Node :=
  match nodes with
  | [] => []
  | n :: rest => if isBareVerbCall n then [] else n :: beforeBareVerbCall rest
  end.

End RouteArguments.

(* ===================================================================== *)
(** ** ai/payloadPredictor.ts: where the handler of a route is looked up  *)
(* ===================================================================== *)

Module ControllerLookup.
Import Js Ast RouteDetection PayloadPredictor.

(** Reading a file and parsing its text; [None] when the call throws. *)
Record SourceFiles : Type := mkSourceFiles {
  readFileSync : string -> option string;
  parse : string -> option Node;
}.

Section WithFiles.
Variable files : SourceFiles.

Definition tryExtractFromSameFile (route : DetectedRoute)
  : option ControllerContext :=
  match readFileSync files (filePath route) with
  | None => None
  | Some fileContent =>
      match parse files fileContent with
      | None => None
      | Some ast =>
          findControllerFunctionInAST ast (handler route) fileContent route
      end
  end.

Definition tryExtractFromSeparateFile (route : DetectedRoute)
  : option ControllerContext :=
  match truthyString (controllerFilePath route),
        truthyString (controllerFunction route) with
  | Some controllerFile, Some controllerFn =>
      match readFileSync files controllerFile with
      | None => None
      | Some fileContent =>
          match parse files fileContent with
          | None => None
          | Some ast =>
              findControllerFunctionInAST ast controllerFn fileContent route
          end
      end
  | _, _ => None
  end.

Definition extractControllerContext (route : DetectedRoute)
  : option ControllerContext :=
  match tryExtractFromSameFile route with
  | Some sameFileContext => Some sameFileContext
  | None =>
      match truthyString (controllerFilePath route),
            truthyString (controllerFunction route) with
      | Some _, Some _ =>
          match tryExtractFromSeparateFile route with
          | Some separateFileContext => Some separateFileContext
          | None => None
          end
      | _, _ => None
      end
  end.

End WithFiles.

Definition authMiddlewares : list string :=
  ["verifyToken"; "authenticate"; "requireAuth"; "protect"; "auth";
   "authenticateToken"; "verifyJWT"; "checkAuth"; "ensureAuthenticated";
   "requireLogin"].

Definition isAuthenticationRequired (route : DetectedRoute) : bool :=
  existsb
    (fun middleware =>
       existsb
         (fun authMw => includes (toLowerCase middleware) (toLowerCase authMw))
         authMiddlewares)
    (middlewares route).

(** The five substrings that decide [isAuthenticationRequired]. *)
Definition authMarkers : list string :=
  ["auth"; "verifytoken"; "protect"; "verifyjwt"; "requirelogin"].

End ControllerLookup.

(* ===================================================================== *)
(** ** db/mongoConnector.ts: identifiers that are referred to             *)
(* ===================================================================== *)

Module MongoReferences.
Import Js MongoConnector.

(** What [findValidObjectIds] asks the server, beside the connection
    itself.  ObjectIds are written as their hexadecimal strings.
    [relatedIds n] is the answer to
    [relatedCol.find({}, { projection: { _id: 1 } }).limit(n).toArray()],
    mapped to the [_id]s; [isForeignKey id] tells whether
    [collection.findOne({ [foreignKey]: id })] finds a document.  [None]
    stands for a call that rejects. *)
Record Lookups : Type := mkLookups {
  relatedIds : nat -> option (list string);
  isForeignKey : string -> option bool;
}.

(** The loop over [relatedDocs]; [None] when a [findOne] rejects. *)
Fixpoint collectValid (isUsed : string -> option bool) (limit : nat)
  (relatedDocs validIds : list string) : option (list string) :=
  match relatedDocs with
  | [] => Some validIds
  | id :: rest =>
      if (limit <=? length validIds)%nat then Some validIds
      else
        match isUsed id with
        | None => None
        | Some true => collectValid isUsed limit rest (validIds ++ [id])
        | Some false => collectValid isUsed limit rest validIds
        end
  end.

Definition findValidObjectIds (c : Connector) (server : Lookups)
  (collectionName foreignKey relatedCollection : string) (limit : nat)
  : list string :=
  if negb (isAvailable c) then []
  else
    match getCollection c collectionName,
          getCollection c relatedCollection with
    | Some _, Some _ =>
        match relatedIds server (limit * 2) with
        | None => []
        | Some relatedDocs =>
            match collectValid (isForeignKey server) limit relatedDocs [] with
            | None => []
            | Some validIds =>
                if (length validIds <? limit)%nat then
                  let remainingNeeded := limit - length validIds in
                  let additionalIds :=
                    List.filter
                      (fun id => negb (existsb (fun existingId =>
                                                  String.eqb existingId id)
                                         validIds))
                      (slice relatedDocs 0 (Z.of_nat remainingNeeded)) in
                  validIds ++ additionalIds
                else validIds
            end
        end
    | _, _ => []
    end.

End MongoReferences.

(* ===================================================================== *)
(** ** db/collectionInferencer.ts: the scores that can come out           *)
(* ===================================================================== *)

Module InferenceScores.
Import Js CollectionInferencer.

(** The confidences the four strategies can combine to.  The sum
    [0.7 + 0.1] is not the number [0.8]. *)
Definition possibleConfidences : list float :=
  [0.1; 0.3; 0.4; 0.5; 0.6; 0.7; 0.7 + 0.1; 0.8; 0.9; 1.0]%float.

(** The suggestion made of an alternative name of [primary]. *)
Definition alternativeTo (primary : CollectionInference) (altName : string)
  : CollectionInference :=
  mkInference altName (mathMax 0.1 (confidence primary - 0.3)%float)
    ("Alternative to " +:+ collectionName primary) [].

End InferenceScores.

(* ===================================================================== *)
(** ** db/hybridPayloadGenerator.ts: the order of the merged fields       *)
(* ===================================================================== *)

Module HybridOrder.
Import Js HybridPayloadGenerator.

(** The required fields come first: the list is a run of required fields
    followed by a run of optional ones. *)
Definition requiredFirst (l : list HybridFieldPrediction) : Prop :=
  exists requiredFields optionalFields,
    l = (requiredFields ++ optionalFields)%list
    /\ Forall (fun field => required field = true) requiredFields
    /\ Forall (fun field => required field = false) optionalFields.

(** The number lies between 0.1 and 1. *)
Definition inUnitRange (c : float) : Prop :=
  PrimFloat.leb 0.1 c = true /\ PrimFloat.leb c 1.0 = true.

(** A number in the range whose maximum with 0.8 is in the range too. *)
Definition steady (c : float) : Prop :=
  inUnitRange c /\ inUnitRange (mathMax c 0.8).

(** The names of the fields a schema and a prediction speak of. *)
Definition knownNames (aiFields : list PredictedField)
  (mongoData : option MongoData) : list Value :=
  (map pf_name aiFields
   ++ match mongoData with
      | Some md =>
          match schema md with
          | Some sch =>
              map (fun mongoField => VString (sf_name mongoField))
                (detailedFields sch)
          | None => []
          end
      | None => []
      end)%list.


End HybridOrder.

(* ===================================================================== *)
(** ** db/schemaViewer.ts: references between collections                 *)
(* ===================================================================== *)

Module SchemaViewer.
Import Js.

Inductive ReferenceType : Type :=
| one_to_one | one_to_many | many_to_one | many_to_many | unknown.

Record RelationInfo : Type := mkRelationInfo {
  isReference : bool;
  targetCollection : option string;
  confidence : float;
  referenceType : ReferenceType;
}.

Record CollectionRelationship : Type := mkRelationship {
  fromCollection : string;
  toCollection : string;
  fromField : string;
  toField : string;
  relationshipType : ReferenceType;
  relationshipConfidence : float;
}.

(** What the relationship analysis reads of a [DetailedSchemaField]. *)
Record DetailedField : Type := mkDetailedField {
  fieldName : string;
  relationInfo : option RelationInfo;
}.

Definition guessTargetCollection (fieldName : string) : option string :=
  let lowerField := toLowerCase fieldName in
  let baseName :=
    ObjectIdResolver.stripSuffix "_ref"
      (ObjectIdResolver.stripSuffix "ref"
         (ObjectIdResolver.stripSuffix "_id"
            (ObjectIdResolver.stripSuffix "id" lowerField))) in
  if String.eqb baseName "" then None
  else if negb (endsWith baseName "s") then
    if endsWith baseName "y" then Some (dropLast baseName +:+ "ies")
    else Some (baseName +:+ "s")
  else Some baseName.

(** [availableCollections] is what [listCollections] of the connector
    answers (the empty list on any error). *)
Definition analyzeFieldRelation (availableCollections : list string)
  (fieldName : string) : option RelationInfo :=
  if negb (includes (toLowerCase fieldName) "id")
     && negb (String.eqb fieldName "_id") then None
  else if String.eqb fieldName "_id" then None
  else
    match truthyString (guessTargetCollection fieldName) with
    | None => Some (mkRelationInfo true None 0.3 unknown)
    | Some target =>
        if negb (arrayIncludes availableCollections target)
        then Some (mkRelationInfo true None 0.4 unknown)
        else Some (mkRelationInfo true (Some target) 0.8 many_to_one)
    end.

(** The relation attached to a field by [analyzeFieldsInDetail]: only
    fields in which an ObjectId was seen are analysed. *)
Definition detailedFieldOf (availableCollections : list string)
  (name : string) (isObjectId : bool) : DetailedField :=
  mkDetailedField name
    (if isObjectId then analyzeFieldRelation availableCollections name
     else None).

Definition analyzeRelationships (collectionName : string)
  (fields : list DetailedField) : list CollectionRelationship :=
  omap
    (fun field =>
       match relationInfo field with
       | Some info =>
           if isReference info then
             match truthyString (targetCollection info) with
             | Some target =>
                 Some (mkRelationship collectionName target (fieldName field)
                         "_id"
                         (match referenceType info with
                          | unknown => many_to_one
                          | other => other
                          end)
                         (confidence info))
             | None => None
             end
           else None
       | None => None
       end)
    fields.

End SchemaViewer.

(* ===================================================================== *)
(** ** db/sampleDataFetcher.ts                                            *)
(* ===================================================================== *)

Module SampleDataFetcher.
Import Js.
Import HybridPayloadGenerator (SampleDocument, mkSample, CollectionSampleData,
  mkSampleData, sd_collectionName, sd_confidence, sd_samples,
  sd_totalDocuments, sd_success, sd_errorMessage, indexValue).

(** [sanitizeValueForPayload].  Assigning the key [__proto__] to the fresh
    object creates no property, so that key is not copied. *)
Fixpoint sanitizeValueForPayload (value : Value) : Value :=
  match value with
  | VObjectId hex => VString hex
  | VDate iso => VString iso
  | VArray items => VArray (map sanitizeValueForPayload items)
  | VObject props =>
      VObject
        ((fix copy (entries : list (string * Value)) : list (string * Value) :=
            match entries with
            | [] => []
            | (key, item) :: rest =>
                if String.eqb key "__proto__" then copy rest
                else (key, sanitizeValueForPayload item) :: copy rest
            end) props)
  | other => other
  end.

(** An ObjectId or a Date occurs in the value, at any depth. *)
Fixpoint holdsDatabaseObject (value : Value) : bool :=
  match value with
  | VObjectId _ | VDate _ => true
  | VArray items => existsb holdsDatabaseObject items
  | VObject props =>
      (fix any (entries : list (string * Value)) : bool :=
         match entries with
         | [] => false
         | (_, item) :: rest => holdsDatabaseObject item || any rest
         end) props
  | _ => false
  end.

(** Truthiness of a value. *)
Definition isTruthy (value : Value) : bool :=
  match value with
  | VNull | VUndefined => false
  | VBool b => b
  | VNumber x => negb (PrimFloat.eqb x 0 || isNaN x)
  | VString s => negb (String.eqb s "")
  | VDate _ | VObjectId _ | VArray _ | VObject _ => true
  end.

(** [generatePayloadFromSample] on the document of a sample, given by its
    own properties in the order of [Object.keys]; the result is the payload
    object, given in the same way. *)
Definition generatePayloadFromSample (doc : list (string * Value))
  (method : string) : list (string * Value) :=
  if String.eqb method "GET" then []
  else if String.eqb method "DELETE" then
    match assocGet doc "_id" with
    | Some id => if isTruthy id then [("id", id)] else []
    | None => []
    end
  else
    omap
      (fun entry : string * Value =>
         let (key, value) := entry in
         if String.eqb key "_id" || String.eqb key "__v" || startsWith key "_"
         then None
         else if String.eqb method "POST" then
           if negb (includes (toLowerCase key) "id")
              || String.eqb key "userId" || endsWith key "Id"
           then Some (key, sanitizeValueForPayload value)
           else None
         else Some (key, sanitizeValueForPayload value))
      doc.

(** The database as the fetcher sees it: the connector with the random
    draws of the call made for each collection, the names
    [listCollections] answers, and the two texts computed for a sample
    (computing one may throw, as [toISOString] does on an invalid date). *)
Record Database : Type := mkDatabase {
  connector : MongoConnector.Connector;
  chance : string -> MongoConnector.Chance;
  listCollections : list string;
  generateDisplayName : Value -> nat -> Exc string;
  generateSummary : Value -> Exc string;
}.

Record RealDataOptions : Type := mkRealData {
  primary : option CollectionSampleData;
  alternatives : list CollectionSampleData;
  availableCollections : list string;
}.

Section WithDatabase.
Variable database : Database.

(** [sampleDocuments.map((doc, index) => ...)], from position [index]
    on. *)
Fixpoint toSamples (index : nat) (sampleDocuments : list Value)
  : Exc (list SampleDocument) :=
  match sampleDocuments with
  | [] => Ok []
  | doc :: rest =>
      match generateDisplayName database doc (index + 1) with
      | Thrown message => Thrown message
      | Ok displayName =>
          match generateSummary database doc with
          | Thrown message => Thrown message
          | Ok summary =>
              match toSamples (S index) rest with
              | Thrown message => Thrown message
              | Ok samples =>
                  Ok (mkSample (indexValue doc "_id") doc displayName summary
                      :: samples)
              end
          end
      end
  end.

Definition fetchSampleDataFromCollection (collectionName : string)
  (confidence : float) (limit : nat) : CollectionSampleData :=
  if negb (MongoConnector.isAvailable (connector database)) then
    mkSampleData collectionName confidence [] 0 false
      (Some "MongoDB not connected")
  else
    match MongoConnector.getCollection (connector database) collectionName with
    | None =>
        mkSampleData collectionName confidence [] 0 false
          (Some "Collection not found")
    | Some collection =>
        let totalDocuments := length collection in
        if (totalDocuments =? 0)%nat then
          mkSampleData collectionName confidence [] 0 true
            (Some "Collection is empty")
        else
          let sampleDocuments :=
            MongoConnector.getSampleDocuments (connector database)
              (chance database collectionName) collectionName limit in
          match toSamples 0 sampleDocuments with
          | Ok samples =>
              mkSampleData collectionName confidence samples totalDocuments
                true None
          | Thrown message =>
              mkSampleData collectionName confidence [] 0 false (Some message)
          end
    end.

Definition noRealData : RealDataOptions := mkRealData None [] [].

Definition fetchSampleDataForRoute (route : RouteDetection.DetectedRoute)
  : RealDataOptions :=
  if negb (MongoConnector.isAvailable (connector database)) then noRealData
  else
    let availableCollections := listCollections database in
    match CollectionInferencer.getCollectionSuggestions route with
    | Thrown _ => noRealData
    | Ok suggestions =>
        let collectionResults :=
          omap
            (fun suggestion =>
               if arrayIncludes availableCollections
                    (CollectionInferencer.collectionName suggestion)
               then
                 let sampleData :=
                   fetchSampleDataFromCollection
                     (CollectionInferencer.collectionName suggestion)
                     (CollectionInferencer.confidence suggestion) 3 in
                 if sd_success sampleData
                    && (0 <? length (sd_samples sampleData))%nat
                 then Some sampleData else None
               else None)
            (slice suggestions 0 5) in
        mkRealData (head collectionResults) (drop 1 collectionResults)
          availableCollections
    end.

End WithDatabase.

End SampleDataFetcher.

(* ===================================================================== *)
(** ** Sample inputs                                                      *)
(* ===================================================================== *)

Module Samples.
Import Js Ast.

(** A workspace with one route file, [routes.js], whose only statement is
    [router.get('users', listUsers)]. *)
Definition bareRouteFile : Node :=
  OtherNode
    [CallExpression (Some (mkLoc 1 1))
       (MemberExpression (Identifier "router") (Identifier "get"))
       [StringLiteral "users"; Identifier "listUsers"]].

Definition bareHost : RouteDetection.Host :=
  RouteDetection.mkHost ["routes.js"]
    (fun file => if String.eqb file "routes.js" then Some bareRouteFile else None)
    (fun _ => false) (fun p => p) (fun _ p => p) (fun _ => "")
    (fun a b => a +:+ "/" +:+ b).

(** A detector in which [app.use('/api', router)] has been seen. *)
Definition apiDetector : RouteDetection.Detector :=
  RouteDetection.mkDetector [] {["router" := "/api"]} ∅ ∅.

(** A controller file that defines [createUser] twice: a function
    declaration on lines 3 to 8, and [exports.createUser = function ...] on
    lines 20 to 24. *)
Definition twoDefinitions : Node :=
  OtherNode
    [FunctionDeclaration (Some (mkLoc 3 8)) (Some "createUser")
       [Identifier "req"; Identifier "res"];
     OtherNode
       [AssignmentExpression (Some (mkLoc 20 24))
          (MemberExpression (Identifier "exports") (Identifier "createUser"))
          (FunctionExpression [Identifier "req"; Identifier "res"])]].

Definition createUserRoute : RouteDetection.DetectedRoute :=
  RouteDetection.mkRoute "POST" "/users" "users.js" 30 [] "createUser" None None.

(** A connected database whose [users] collection holds five documents,
    and a draw in which [Math.random()] returned 0. *)
Definition fiveUsers : list Value :=
  map (fun n => VObject [("name", VString n)]) ["ann"; "bob"; "cy"; "di"; "ed"].

Definition liveConnector : MongoConnector.Connector :=
  MongoConnector.mkConnector true
    (Some (fun name => if String.eqb name "users" then fiveUsers else [])).

Definition zeroDraw : MongoConnector.Chance :=
  MongoConnector.mkChance 0 1 (fun _ => 0).

(** Inputs of the hybrid generator. *)
Import HybridPayloadGenerator.

Definition emailField : PredictedField :=
  mkPredicted (VString "email") (VString "string") true (VString "a@b.c")
    "Login e-mail".

Definition onePrediction : PayloadPrediction := mkPrediction [emailField].

Definition annSample : SampleDocument :=
  mkSample (VObjectId "65f000000000000000000001")
    (VObject [("name", VString "ann")]) "ann" "name: ann".

(** Sample data of confidence 0.5 with one sampled document. *)
Definition lukewarmData : MongoData :=
  mkMongoData (mkSampleData "users" 0.5 [annSample] 5 true None) None.

Definition noPreference : PayloadGenerationOptions :=
  mkOptions false false true None None None.

Definition quietStore : ObjectIdResolver.Store :=
  ObjectIdResolver.mkStore true ["users"] (fun _ _ _ _ => Ok []).

(** No database: the predictor answers with one field. *)
Definition offlineWorld : World :=
  mkWorld false (fun _ => Ok (Some onePrediction)) (Ok None) (fun _ => Ok None)
    (fun _ _ _ => Ok []) quietStore (fun _ => Ok "") (fun _ => "").

(** A database whose [users] schema (inferred from 50 documents) has the
    nested field [address.city], which none of the sampled documents
    carries; the predictor returns nothing. *)
Definition nestedFieldWorld : World :=
  mkWorld true (fun _ => Ok None)
    (Ok (Some (mkSampleData "users" 1.0 [annSample] 5 true None)))
    (fun _ =>
       Ok (Some (mkSchema
                   [mkSchemaField "address.city" "string" 40 [VString "Paris"]
                      false None])))
    (fun _ _ _ => Ok [VObject [("address", VObject [("city", VString "Paris")])]])
    quietStore (fun _ => Ok "") (fun _ => "").

(** A reachable database in which no suggested collection has samples. *)
Definition emptyDatabaseWorld : World :=
  mkWorld true (fun _ => Ok (Some onePrediction)) (Ok None) (fun _ => Ok None)
    (fun _ _ _ => Ok []) quietStore (fun _ => Ok "") (fun _ => "").

(** The same database, the language model answering with a field that has
    a type and no name. *)
Definition namelessField : PredictedField :=
  mkPredicted VUndefined (VString "string") true (VString "a@b.c") "".

Definition namelessAnswerWorld : World :=
  mkWorld true (fun _ => Ok (Some (mkPrediction [namelessField]))) (Ok None)
    (fun _ => Ok None) (fun _ _ _ => Ok []) quietStore (fun _ => Ok "")
    (fun _ => "").

(** A reachable database that holds a single collection, [widgets]. *)
Definition widgetStore : ObjectIdResolver.Store :=
  ObjectIdResolver.mkStore true ["widgets"] (fun _ _ _ _ => Ok []).

End Samples.

Module MoreSamples.
Import Js Ast.

(** A route file in which a call without arguments, [cache.get()], stands
    between two route registrations. *)
Definition interruptedRouteFile : Node :=
  OtherNode
    [CallExpression (Some (mkLoc 1 1))
       (MemberExpression (Identifier "router") (Identifier "get"))
       [StringLiteral "/a"; Identifier "first"];
     CallExpression (Some (mkLoc 2 2))
       (MemberExpression (Identifier "cache") (Identifier "get")) [];
     CallExpression (Some (mkLoc 3 3))
       (MemberExpression (Identifier "router") (Identifier "post"))
       [StringLiteral "/b"; Identifier "second"]].

(** A workspace with a file that cannot be parsed between two copies of
    the one-route file of [Samples]. *)
Definition patchyHost : RouteDetection.Host :=
  RouteDetection.mkHost ["a.js"; "broken.js"; "b.js"]
    (fun file =>
       if String.eqb file "broken.js" then None else Some Samples.bareRouteFile)
    (fun p => String.eqb p "/w/ctl.js") (fun _ => "/w") (fun dir p => dir +:+ "/ctl")
    (fun _ => "") (fun a b => a +:+ "/" +:+ b).

(** A project whose route file defines no handler and whose controller
    file is the one of [Samples] with two definitions of [createUser]. *)
Definition routedProject : ControllerLookup.SourceFiles :=
  ControllerLookup.mkSourceFiles
    (fun file =>
       if String.eqb file "users.js" then Some "routes"
       else if String.eqb file "ctl.js" then Some "controller"
       else None)
    (fun text =>
       if String.eqb text "routes" then Some (OtherNode [])
       else if String.eqb text "controller" then Some Samples.twoDefinitions
       else None).

Definition importedCreateUser : RouteDetection.DetectedRoute :=
  RouteDetection.mkRoute "POST" "/users" "users.js" 30 ["requireAuthor"]
    "createUser" (Some "ctl.js") (Some "createUser").

(** A handler on lines 2 and 3 of a file of four lines that reads two
    fields of the body, one of them twice. *)
Definition fourLines : string :=
  "const a = 1;" +:+ String "010"%char "function save(req, res) {"
  +:+ String "010"%char "}" +:+ String "010"%char "module.exports = save;".

Definition saveHandler : Node :=
  OtherNode
    [FunctionDeclaration (Some (mkLoc 2 3)) (Some "save")
       [MemberExpression
          (MemberExpression (Identifier "req") (Identifier "body"))
          (Identifier "name");
        MemberExpression
          (MemberExpression (Identifier "req") (Identifier "body"))
          (Identifier "email");
        MemberExpression
          (MemberExpression (Identifier "req") (Identifier "body"))
          (Identifier "name")]].

(** Four related documents, the second and the fourth of which are
    referred to. *)
Definition fourAuthors : MongoReferences.Lookups :=
  MongoReferences.mkLookups
    (fun n => Some (take n ["a1"; "a2"; "a3"; "a4"]))
    (fun id => Some (String.eqb id "a2" || String.eqb id "a4")).

(** A route one of whose segments names a property every object has. *)
Definition constructorRoute : RouteDetection.DetectedRoute :=
  RouteDetection.mkRoute "GET" "/api/constructor/:id" "routes.js" 1 [] "show"
    None None.

(** A database with [users] and [orders]; every collection answers with
    the same two identifiers. *)
Definition twoIds : list ObjectIdResolver.ResolvedObjectId :=
  [ObjectIdResolver.mkResolved "65a000000000000000000001" "users" VNull 0.8;
   ObjectIdResolver.mkResolved "65a000000000000000000002" "users" VNull 0.9].

Definition shopStore : ObjectIdResolver.Store :=
  ObjectIdResolver.mkStore true ["users"; "orders"] (fun _ _ _ _ => Ok twoIds).

(** A schema with a required and an optional field and an internal one,
    over one sample document. *)
Definition accountsData : HybridPayloadGenerator.MongoData :=
  HybridPayloadGenerator.mkMongoData
    (HybridPayloadGenerator.mkSampleData "accounts" 0.9
       [HybridPayloadGenerator.mkSample (VObjectId "65a000000000000000000001")
          (VObject [("nick", VString "ann"); ("email", VString "a@b.c");
                    ("__v", VNumber 0)])
          "ann" ""]
       1 true None)
    (Some (HybridPayloadGenerator.mkSchema
             [HybridPayloadGenerator.mkSchemaField "nick" "string" 100
                [VString "ann"] false None;
              HybridPayloadGenerator.mkSchemaField "__v" "number" 100
                [VNumber 0] true None;
              HybridPayloadGenerator.mkSchemaField "email" "string" 100
                [VString "a@b.c"] true None])).

Definition accountsWorld : HybridPayloadGenerator.World :=
  HybridPayloadGenerator.mkWorld true
    (fun _ => Ok (Some Samples.onePrediction))
    (Ok (Some (HybridPayloadGenerator.primary accountsData)))
    (fun _ => Ok (HybridPayloadGenerator.schema accountsData))
    (fun _ _ _ => Ok []) Samples.quietStore (fun _ => Ok "json")
    (fun _ => "").

(** A stored order: an identifier, a date, a nested reference, and the
    version key. *)
Definition storedOrder : list (string * Value) :=
  [("_id", VObjectId "65a000000000000000000009");
   ("userId", VObjectId "65a000000000000000000001");
   ("paidAt", VDate "2024-01-01T00:00:00.000Z");
   ("lines", VArray [VObject [("item", VObjectId "65a000000000000000000005");
                              ("count", VNumber 2)]]);
   ("__v", VNumber 0)].

(** A connected database with the five users of [Samples], which lists
    the collections [users] and [logs]. *)
Definition usersDatabase : SampleDataFetcher.Database :=
  SampleDataFetcher.mkDatabase Samples.liveConnector (fun _ => Samples.zeroDraw)
    ["users"; "logs"] (fun _ index => Ok "Sample") (fun _ => Ok "").

End MoreSamples.

(* ===================================================================== *)
(** * Properties                                                          *)
(* ===================================================================== *)

(** ** Strings *)

Module JsFacts.
Import Js.

Lemma append_empty_r (s : string) : s +:+ "" = s.
Proof.
  induction s as [|c s IH]; [reflexivity|].
  change (String c (s +:+ "") = String c s). by rewrite IH.
Qed.

Lemma endsWith_cons (c : ascii) (s suf : string) :
  endsWith (String c s) suf = String.eqb (String c s) suf || endsWith s suf.
Proof. reflexivity. Qed.

(** Dropping one trailing "/" from a string whose second character is not
    "/" keeps its first two characters. *)
Lemma trimmed_prefix_head (c1 c2 : ascii) (s : string) :
  c2 <> "/"%char ->
  exists s',
    (if endsWith (String c1 (String c2 s)) "/"
     then dropLast (String c1 (String c2 s))
     else String c1 (String c2 s)) = String c1 (String c2 s').
Proof.
  intros Hc2.
  destruct (endsWith (String c1 (String c2 s)) "/") eqn:E; [|by exists s].
  destruct s as [|c3 s].
  - exfalso. simpl in E.
    destruct (Ascii.eqb c1 "/"); simpl in E;
      destruct (Ascii.eqb_spec c2 "/"); simpl in E; congruence.
  - exists (dropLast (String c3 s)). reflexivity.
Qed.

Lemma arrayIncludes_In (xs : list string) (x : string) :
  arrayIncludes xs x = true <-> In x xs.
Proof.
  unfold arrayIncludes. rewrite existsb_exists. split.
  - intros (y & Hy & Heq). apply String.eqb_eq in Heq. by subst.
  - intros Hin. exists x. split; [done | apply String.eqb_refl].
Qed.

End JsFacts.

(** ** Route detection *)

Module RouteDetectionFacts.
Import Js Ast RouteDetection JsFacts.

Lemma upper_of_recognised_verb (m : string) :
  arrayIncludes httpMethods m = true -> In (toUpperCase m) canonicalVerbs.
Proof.
  intros H. apply arrayIncludes_In in H. unfold httpMethods in H.
  repeat (destruct H as [<- | H]; [vm_compute; tauto|]).
  destruct H.
Qed.

(** What [detectRoute] does on a recognised call. *)
Lemma detectRoute_recognised d loc object property routePath rest file :
  arrayIncludes httpMethods (toLowerCase property) = true ->
  detectRoute d loc (MemberExpression object (Identifier property))
    (StringLiteral routePath :: rest) file
  = Returns (withRoute d (routeOfCall d loc object property routePath rest file)).
Proof. intros H. unfold detectRoute. rewrite H. reflexivity. Qed.

(** [detectRoute] either leaves the routes alone or pushes the route of a
    recognised call. *)
Lemma detectRoute_cases d loc callee arguments file :
  routes (stateOf (detectRoute d loc callee arguments file)) = routes d
  \/ exists object property routePath rest,
       callee = MemberExpression object (Identifier property)
       /\ arguments = StringLiteral routePath :: rest
       /\ arrayIncludes httpMethods (toLowerCase property) = true
       /\ stateOf (detectRoute d loc callee arguments file)
          = withRoute d (routeOfCall d loc object property routePath rest file).
Proof.
  destruct callee as [| |object property| | | | | | | | |]; try (by left).
  destruct property as [property| | | | | | | | | | |]; try (by left).
  unfold detectRoute.
  destruct (arrayIncludes httpMethods (toLowerCase property)) eqn:E;
    [|by left].
  destruct arguments as [|first rest]; [by left|].
  destruct first as [|routePath| | | | | | | | | |]; try (by left).
  right. exists object, property, routePath, rest. by repeat split.
Qed.

Section Invariants.
Variable host : Host.

Lemma visitAll_invariant (P : Detector -> Prop)
  (visit : Detector -> Node -> Completion) :
  (forall d n, P d -> P (stateOf (visit d n))) ->
  forall nodes d, P d -> P (stateOf (visitAll visit d nodes)).
Proof.
  intros Hstep nodes. induction nodes as [|n nodes IH]; intros d Hd; [done|].
  simpl. specialize (Hstep d n Hd).
  destruct (visit d n) as [d'|d']; simpl in *; [by apply IH | done].
Qed.

Lemma addImportSpecifiers_routes resolvedPath specifiers d :
  routes (foldl (addImportSpecifier resolvedPath) d specifiers) = routes d.
Proof.
  revert d. induction specifiers as [|[kind local] specifiers IH]; intros d;
    [done|].
  simpl. rewrite IH. by destruct kind.
Qed.

Lemma importVisitor_routes file d n :
  routes (stateOf (importVisitor host file d n)) = routes d.
Proof.
  destruct n; try done; simpl.
  - unfold detectImports.
    destruct (truthyString _); [apply addImportSpecifiers_routes | done].
  - unfold detectRequires.
    repeat (match goal with
            | |- context [match ?x with _ => _ end] => destruct x; try done
            end).
Qed.

Lemma prefixVisitor_routes d n :
  routes (stateOf (prefixVisitor d n)) = routes d.
Proof.
  destruct n; try done; simpl. unfold detectRouterPrefix.
  repeat (match goal with
          | |- context [match ?x with _ => _ end] => destruct x; try done
          end).
Qed.

Lemma routeVisitor_verbs file d n :
  Forall hasCanonicalVerb (routes d) ->
  Forall hasCanonicalVerb (routes (stateOf (routeVisitor file d n))).
Proof.
  intros Hd. destruct n; try done; simpl.
  destruct (detectRoute_cases d loc n arguments file) as
    [-> | (object & property & routePath & rest & _ & _ & Hverb & ->)];
    [done|].
  simpl. apply Forall_app. split; [done|].
  constructor; [|constructor].
  unfold hasCanonicalVerb. simpl. by apply upper_of_recognised_verb.
Qed.

Lemma parseFileForRoutes_verbs d file :
  Forall hasCanonicalVerb (routes d) ->
  Forall hasCanonicalVerb (routes (parseFileForRoutes host d file)).
Proof.
  intros Hd. unfold parseFileForRoutes, parseFileBody.
  destruct (readAndParse host file) as [ast|]; [|done].
  set (P := fun d => Forall hasCanonicalVerb (routes d)).
  set (d0 := mkDetector _ _ _ _).
  assert (P d0) as H0 by done.
  pose proof (visitAll_invariant P (importVisitor host file)) as H1.
  specialize (H1 (fun d n Hd => eq_ind_r (Forall hasCanonicalVerb) Hd
                                  (importVisitor_routes file d n))
                (traverse ast) d0 H0).
  destruct (visitAll (importVisitor host file) d0 (traverse ast)) as [d1|d1];
    [|done].
  pose proof (visitAll_invariant P prefixVisitor) as H2.
  specialize (H2 (fun d n Hd => eq_ind_r (Forall hasCanonicalVerb) Hd
                                  (prefixVisitor_routes d n))
                (traverse ast) d1 H1).
  destruct (visitAll prefixVisitor d1 (traverse ast)) as [d2|d2]; [|done].
  apply (visitAll_invariant P (routeVisitor file)); [|done].
  intros d' n. apply routeVisitor_verbs.
Qed.

Lemma scanFiles_verbs files d :
  Forall hasCanonicalVerb (routes d) ->
  Forall hasCanonicalVerb (routes (scanFiles host d files)).
Proof.
  revert d. induction files as [|file files IH]; intros d Hd; [done|].
  simpl. apply IH. by apply parseFileForRoutes_verbs.
Qed.

(** *** The detector as an object *)

Lemma contents_mutateInPlace h this d :
  wellFormed h this -> contents (mutateInPlace this d h) this = d.
Proof.
  intros (_ & _ & _ & _ & H1 & H2 & H3). destruct d as [rs ps cs fs].
  unfold contents, mutateInPlace, arrayAt, mapAt. simpl.
  rewrite !lookup_insert_eq.
  rewrite (lookup_insert_ne _ (functionImportsRef this) (controllerImportsRef this))
    by done.
  rewrite lookup_insert_eq.
  rewrite (lookup_insert_ne _ (functionImportsRef this) (routerPrefixesRef this))
    by done.
  rewrite (lookup_insert_ne _ (controllerImportsRef this) (routerPrefixesRef this))
    by done.
  by rewrite lookup_insert_eq.
Qed.

Lemma parse_in_place h this file :
  wellFormed h this ->
  contents (parseFileForRoutesInPlace host this h file) this
  = parseFileForRoutes host (contents h this) file
  /\ wellFormed (parseFileForRoutesInPlace host this h file) this.
Proof.
  intros Hwf. split; [by apply contents_mutateInPlace | exact Hwf].
Qed.

Lemma scan_in_place files h this :
  wellFormed h this ->
  contents (foldl (parseFileForRoutesInPlace host this) h files) this
  = scanFiles host (contents h this) files
  /\ wellFormed (foldl (parseFileForRoutesInPlace host this) h files) this.
Proof.
  revert h. induction files as [|file files IH]; intros h Hwf; [done|].
  destruct (parse_in_place h this file Hwf) as [Hc Hw].
  simpl. destruct (IH _ Hw) as [IHc IHw]. by rewrite IHc, Hc.
Qed.

(** Emptying the detector: a new array, the same three maps emptied. *)
Lemma reset_cleared h this :
  wellFormed h this ->
  contents (fst (reset h this)) (snd (reset h this)) = cleared
  /\ wellFormed (fst (reset h this)) (snd (reset h this))
  /\ next (fst (reset h this)) = S (next h).
Proof.
  intros (H0 & Hp & Hc & Hf & H1 & H2 & H3).
  unfold reset, newArray, clearMap, contents, arrayAt, mapAt, wellFormed, cleared.
  simpl. rewrite !lookup_insert_eq.
  rewrite (lookup_insert_ne _ (functionImportsRef this) (controllerImportsRef this))
    by done.
  rewrite lookup_insert_eq.
  rewrite (lookup_insert_ne _ (functionImportsRef this) (routerPrefixesRef this))
    by done.
  rewrite (lookup_insert_ne _ (controllerImportsRef this) (routerPrefixesRef this))
    by done.
  rewrite lookup_insert_eq. simpl. repeat split; (done || lia).
Qed.

Lemma detectRoutes_contents h this :
  wellFormed h this ->
  let '(returned, h', this') := detectRoutes host h this in
  contents h' this' = scanFiles host cleared (findRouteFiles host)
  /\ arrayAt h' returned = routes (scanFiles host cleared (findRouteFiles host))
  /\ wellFormed h' this'.
Proof.
  intros Hwf. unfold detectRoutes.
  destruct (reset_cleared h this Hwf) as (Hc & Hw & _).
  destruct (reset h this) as [h0 this0]. simpl in Hc, Hw.
  destruct (scan_in_place (findRouteFiles host) h0 this0 Hw) as [Hs Hw'].
  rewrite Hc in Hs. split; [done|]. split; [|done].
  by rewrite <- Hs.
Qed.

(** What each primitive leaves untouched. *)
Lemma newArray_frame xs h :
  next (snd (newArray xs h)) = S (next h)
  /\ fst (newArray xs h) = next h
  /\ arrayAt (snd (newArray xs h)) (next h) = xs
  /\ (forall b, b <> next h -> arrayAt (snd (newArray xs h)) b = arrayAt h b)
  /\ (forall b, mapAt (snd (newArray xs h)) b = mapAt h b).
Proof.
  unfold newArray, arrayAt, mapAt. simpl. repeat split.
  - by rewrite lookup_insert_eq.
  - intros b Hb. by rewrite lookup_insert_ne by lia.
Qed.

Lemma newMap_frame m h :
  next (snd (newMap m h)) = S (next h)
  /\ fst (newMap m h) = next h
  /\ mapAt (snd (newMap m h)) (next h) = m
  /\ (forall b, b <> next h -> mapAt (snd (newMap m h)) b = mapAt h b)
  /\ (forall b, arrayAt (snd (newMap m h)) b = arrayAt h b).
Proof.
  unfold newMap, arrayAt, mapAt. simpl. repeat split.
  - by rewrite lookup_insert_eq.
  - intros b Hb. by rewrite lookup_insert_ne by lia.
Qed.

Lemma reset_frame h this :
  next (fst (reset h this)) = S (next h)
  /\ snd (reset h this)
     = mkFields (next h) (routerPrefixesRef this) (controllerImportsRef this)
         (functionImportsRef this)
  /\ (forall b, b <> next h -> arrayAt (fst (reset h this)) b = arrayAt h b)
  /\ (forall b, b <> routerPrefixesRef this -> b <> controllerImportsRef this ->
                b <> functionImportsRef this ->
                mapAt (fst (reset h this)) b = mapAt h b).
Proof.
  unfold reset, newArray, clearMap, arrayAt, mapAt. simpl. repeat split.
  - intros b Hb. by rewrite lookup_insert_ne by lia.
  - intros b Hp Hc Hf. by rewrite !lookup_insert_ne by lia.
Qed.

Lemma parse_frame h this file :
  next (parseFileForRoutesInPlace host this h file) = next h
  /\ (forall b, b <> routesRef this ->
         arrayAt (parseFileForRoutesInPlace host this h file) b = arrayAt h b)
  /\ (forall b, b <> routerPrefixesRef this -> b <> controllerImportsRef this ->
                b <> functionImportsRef this ->
                mapAt (parseFileForRoutesInPlace host this h file) b = mapAt h b).
Proof.
  unfold parseFileForRoutesInPlace, mutateInPlace, arrayAt, mapAt. simpl.
  repeat split.
  - intros b Hb. by rewrite lookup_insert_ne by lia.
  - intros b Hp Hc Hf. by rewrite !lookup_insert_ne by lia.
Qed.

(** A single-file detection returns that file's routes in a new array and
    leaves the detector holding what it held; the fields then refer to the
    copies made on entry. *)
Lemma detectRoutesInFile_restores h this file :
  wellFormed h this ->
  let '(result, h', this') := detectRoutesInFile host h this file in
  contents h' this' = contents h this
  /\ wellFormed h' this'
  /\ arrayAt h' result = routes (parseFileForRoutes host cleared file).
Proof.
  intros Hwf. pose proof Hwf as (H0 & Hp & Hc & Hf & H1 & H2 & H3).
  unfold detectRoutesInFile.
  (* the four copies *)
  pose proof (newArray_frame (arrayAt h (routesRef this)) h)
    as (N1 & R1 & A1 & A1' & M1).
  destruct (newArray (arrayAt h (routesRef this)) h) as [a1 h1].
  simpl in N1, R1, A1, A1', M1. subst a1.
  pose proof (newMap_frame (mapAt h1 (routerPrefixesRef this)) h1)
    as (N2 & R2 & B2 & B2' & A2).
  destruct (newMap (mapAt h1 (routerPrefixesRef this)) h1) as [a2 h2].
  simpl in N2, R2, B2, B2', A2. subst a2.
  pose proof (newMap_frame (mapAt h2 (controllerImportsRef this)) h2)
    as (N3 & R3 & B3 & B3' & A3).
  destruct (newMap (mapAt h2 (controllerImportsRef this)) h2) as [a3 h3].
  simpl in N3, R3, B3, B3', A3. subst a3.
  pose proof (newMap_frame (mapAt h3 (functionImportsRef this)) h3)
    as (N4 & R4 & B4 & B4' & A4).
  destruct (newMap (mapAt h3 (functionImportsRef this)) h3) as [a4 h4].
  simpl in N4, R4, B4, B4', A4. subst a4.
  (* the detector is emptied and the file is walked *)
  assert (wellFormed h4 this) as Hwf4 by (unfold wellFormed; repeat split; lia).
  pose proof (reset_cleared h4 this Hwf4) as (Hreset & Hw5 & _).
  pose proof (reset_frame h4 this) as (N5 & Hthis & A5 & B5).
  destruct (reset h4 this) as [h5 this5].
  simpl in Hreset, Hw5, N5, Hthis, A5, B5. subst this5.
  pose proof (parse_in_place h5 _ file Hw5) as [Hparse Hw6].
  rewrite Hreset in Hparse.
  pose proof (parse_frame h5
                (mkFields (next h4) (routerPrefixesRef this)
                   (controllerImportsRef this) (functionImportsRef this)) file)
    as (N6 & A6 & B6).
  set (h6 := parseFileForRoutesInPlace host _ h5 file) in *.
  simpl in A6, B6.
  (* the result is copied, the saved fields are put back *)
  pose proof (newArray_frame (arrayAt h6 (next h4)) h6)
    as (N7 & R7 & A7 & A7' & M7).
  simpl routesRef.
  destruct (newArray (arrayAt h6 (next h4)) h6) as [result h7].
  simpl in N7, R7, A7, A7', M7. subst result.
  split; [|split].
  - unfold contents. simpl. f_equal.
    + rewrite A7' by lia. rewrite A6 by lia. rewrite A5 by lia.
      rewrite A4, A3, A2. exact A1.
    + rewrite M7. rewrite B6 by lia. rewrite B5 by lia.
      rewrite B4' by lia. rewrite B3' by lia. rewrite B2. apply M1.
    + rewrite M7. rewrite B6 by lia. rewrite B5 by lia.
      rewrite B4' by lia. rewrite B3. rewrite B2' by lia. apply M1.
    + rewrite M7. rewrite B6 by lia. rewrite B5 by lia.
      rewrite B4. rewrite B3' by lia. rewrite B2' by lia. apply M1.
  - unfold wellFormed. simpl. repeat split; lia.
  - rewrite A7.
    change (routes (contents h6
                      (mkFields (next h4) (routerPrefixesRef this)
                         (controllerImportsRef this) (functionImportsRef this)))
            = routes (parseFileForRoutes host cleared file)).
    by rewrite Hparse.
Qed.

(** *** The job queue *)







(** The queue is empty when a turn ends: the jobs counted by [stretches]
    are all there are. *)
Lemma enters_queue e file :
  exists locals,
    queue (detectRoutesInFile_enters host file e)
    = (queue e ++ [ProbeResumes locals])%list.
Proof. destruct e as [h this q n ps ss]. eexists. reflexivity. Qed.

Lemma calls_queue calls : forall e,
  exists added,
    queue (foldl (call host) e calls) = (queue e ++ added)%list
    /\ sum_list (map stretches added) <= length calls.
Proof.
  induction calls as [|c calls IH]; intros e.
  - exists []. by rewrite app_nil_r.
  - destruct (IH (call host e c)) as (added & Hq & Hsum).
    cbn [foldl length]. rewrite Hq. destruct c as [|file]; cbn [call].
    + exists added. destruct e as [h this q n ps ss]. split; [done | lia].
    + destruct (enters_queue e file) as [locals ->].
      exists (ProbeResumes locals :: added).
      split; [by rewrite <- app_assoc |].
      cbn [map stretches sum_list_with id]. lia.
Qed.

Lemma drain_empties fuel : forall e,
  sum_list (map stretches (queue e)) <= fuel ->
  queue (drain host fuel e) = [].
Proof.
  induction fuel as [|fuel IH]; intros [h this q n ps ss]; cbn [queue].
  - destruct q as [|job rest]; [done|].
    destruct job; cbn [map stretches sum_list_with id]; lia.
  - destruct q as [|job rest]; [done|]. intros Hfuel.
    cbn [drain queue heap detector searching fromProbes fromScans].
    apply IH. destruct job as [locals|files|calls].
    + cbn [map stretches sum_list_with id] in Hfuel. cbn. lia.
    + destruct files as [|file files];
        cbn [map stretches sum_list_with id length] in Hfuel.
      * cbn. lia.
      * cbn [runJob detectRoutes_resumes queue heap detector searching
               fromProbes fromScans].
        rewrite map_app, sum_list_with_app. cbn [map stretches sum_list_with id] in *. lia.
    + cbn [map stretches sum_list_with id] in Hfuel. cbn [runJob].
      destruct (calls_queue calls (mkEngine h this rest n ps ss))
        as (added & -> & Hsum).
      cbn [queue]. rewrite map_app, sum_list_with_app. lia.
Qed.

Lemma turn_empties e events : queue (turn host e events) = [].
Proof. unfold turn, runQueue. by apply drain_empties. Qed.

End Invariants.

End RouteDetectionFacts.

(** ** Claims on route detection *)

Module RouteDetectionClaims.
Import Js Ast RouteDetection JsFacts RouteDetectionFacts.

Lemma combinePaths_one_slash (prefix routePath : string) :
  beginsWithOneSlash prefix = true ->
  prefix <> "/" ->
  beginsWithOneSlash (combinePaths prefix routePath) = true.
Proof.
  intros Hone Hnot.
  destruct prefix as [|c1 [|c2 s]]; [done| |].
  - simpl in Hone. rewrite andb_true_r in Hone.
    apply Ascii.eqb_eq in Hone. by subst.
  - simpl in Hone. apply andb_true_iff in Hone as [H1 H2].
    apply negb_true_iff in H2.
    assert (c2 <> "/"%char) as Hc2.
    { intros ->. by rewrite Ascii.eqb_refl in H2. }
    unfold combinePaths.
    destruct (trimmed_prefix_head c1 c2 s Hc2) as [s' ->].
    change (beginsWithOneSlash
              (String c1 (String c2
                 (s' +:+ (if startsWith routePath "/" then routePath
                          else "/" +:+ routePath)))) = true).
    simpl. by rewrite H1, H2.
Qed.

(** C1 (method part, and the path as the code builds it).  Every route in
    the array that either entry point returns carries one of the seven
    upper-case verbs.  A recognised call [object.verb(routePath, ...)] pushes
    exactly one route; with no prefix registered for the receiver its path is
    [routePath] unchanged, and with a prefix it is the prefix without one
    trailing "/" followed by [routePath] with a "/" put in front if it had
    none, which begins with exactly one "/" whenever the prefix does and is
    longer than "/". *)
Theorem detected_route_shape :
  (forall host h this r,
      wellFormed h this ->
      let '(returned, h', _) := detectRoutes host h this in
      In r (arrayAt h' returned) -> hasCanonicalVerb r)
  /\ (forall host h this file r,
         wellFormed h this ->
         let '(result, h', _) := detectRoutesInFile host h this file in
         In r (arrayAt h' result) -> hasCanonicalVerb r)
  /\ (forall d loc object property routePath rest file,
         arrayIncludes httpMethods (toLowerCase property) = true ->
         let r := routeOfCall d loc object property routePath rest file in
         detectRoute d loc (MemberExpression object (Identifier property))
           (StringLiteral routePath :: rest) file = Returns (withRoute d r)
         /\ hasCanonicalVerb r
         /\ (prefixFor d object = None -> path r = routePath)
         /\ (forall prefix,
                prefixFor d object = Some prefix ->
                path r = combinePaths prefix routePath
                /\ (beginsWithOneSlash prefix = true -> prefix <> "/" ->
                    beginsWithOneSlash (path r) = true))).
Proof.
  split; [|split].
  - intros host h this r Hwf.
    pose proof (detectRoutes_contents host h this Hwf) as H.
    destruct (detectRoutes host h this) as [[returned h'] this'].
    destruct H as (_ & -> & _). intros Hin.
    pose proof (scanFiles_verbs host (findRouteFiles host) cleared) as Hall.
    eapply (proj1 (List.Forall_forall _ _)) in Hall;
      [exact Hall | constructor | exact Hin].
  - intros host h this file r Hwf.
    pose proof (detectRoutesInFile_restores host h this file Hwf) as H.
    destruct (detectRoutesInFile host h this file) as [[result h'] this'].
    destruct H as (_ & _ & ->). intros Hin.
    pose proof (parseFileForRoutes_verbs host cleared file) as Hall.
    eapply (proj1 (List.Forall_forall _ _)) in Hall;
      [exact Hall | constructor | exact Hin].
  - intros d loc object property routePath rest file Hverb r.
    split; [by apply detectRoute_recognised|].
    split; [by apply upper_of_recognised_verb|].
    subst r. unfold routeOfCall. simpl path.
    split; [by intros ->|].
    intros prefix ->. split; [done|].
    apply combinePaths_one_slash.
Qed.

(** The example of the specification: [router.get('/users/:id', getUser)]
    after [app.use('/api', router)]. *)
Lemma detected_route_shape_witness :
  let r := routeOfCall Samples.apiDetector None (Identifier "router") "get"
             "/users/:id" [Identifier "getUser"] "routes.js" in
  method r = "GET" /\ path r = "/api/users/:id"
  /\ hasCanonicalVerb r /\ beginsWithOneSlash (path r) = true.
Proof.
  destruct detected_route_shape as (_ & _ & H).
  specialize (H Samples.apiDetector None (Identifier "router") "get"
                "/users/:id" [Identifier "getUser"] "routes.js" eq_refl).
  destruct H as (_ & Hverb & _ & Hprefix).
  specialize (Hprefix "/api" eq_refl) as [Hpath Hslash].
  intros r. subst r. split; [reflexivity|]. split; [|split].
  - rewrite Hpath. reflexivity.
  - exact Hverb.
  - apply Hslash; [reflexivity | discriminate].
Defined.

Lemma constructed_wellFormed : wellFormed (fst constructed) (snd constructed).
Proof. unfold wellFormed. simpl. repeat split; lia. Qed.

(** C1 as stated fails: on a new detector, the workspace whose only route
    file reads [router.get('users', listUsers)], with no prefix registered,
    yields a route whose path is ["users"]. *)
Lemma route_path_without_slash :
  ~ (forall host h this r,
        wellFormed h this ->
        let '(returned, h', _) := detectRoutes host h this in
        In r (arrayAt h' returned) ->
        hasCanonicalVerb r /\ beginsWithOneSlash (path r) = true).
Proof.
  intros H.
  specialize (H Samples.bareHost (fst constructed) (snd constructed)
                (mkRoute "GET" "users" "routes.js" 1 [] "listUsers" None None)
                constructed_wellFormed).
  destruct (detectRoutes Samples.bareHost (fst constructed) (snd constructed))
    as [[returned h'] this'] eqn:E.
  vm_compute in E. injection E as <- <- <-.
  destruct H as [_ H]; [vm_compute; tauto | discriminate].
Qed.




(** A single-file detection that starts while the scan is in its loop is
    not isolated either.  In the workspace of [MoreSamples.patchyHost] the
    scan is called on a new detector; in the turn in which the search
    answers, a stretch of the extension that probes [b.js] is queued before
    the scan resumes.  The scan parses [a.js] between the two stretches of
    the detection: the detection returns the route of [a.js] after the one
    of [b.js], and its [finally] block puts back the empty array copied on
    entry, so that the scan returns the route of [b.js] alone. *)
Lemma detection_in_the_loop_loses_a_file :
  let route file := mkRoute "GET" "users" file 1 [] "listUsers" None None in
  let '(h, this) := constructed in
  let e :=
    run MoreSamples.patchyHost
      [[Calls [CallDetectRoutes]];
       [Queues [CallDetectRoutesInFile "b.js"]; SearchAnswers]]
      (idle h this) in
  let '(alone, ha, _) := detectRoutes MoreSamples.patchyHost h this in
  queue e = []
  /\ map (arrayAt (heap e)) (fromProbes e) = [[route "b.js"; route "a.js"]]
  /\ map (arrayAt (heap e)) (fromScans e) = [[route "b.js"]]
  /\ arrayAt ha alone = [route "a.js"; route "b.js"].
Proof. vm_compute. by repeat split. Qed.

End RouteDetectionClaims.

(** ** Claims on the controller lookup *)

Module PayloadPredictorClaims.
Import Js Ast PayloadPredictor.

Lemma definitionOf_has_function target n found :
  definitionOf target n = Some found ->
  exists fn, f_controllerFunction found = Some fn.
Proof.
  unfold definitionOf. intros H.
  repeat (match type of H with
          | context [match ?x with _ => _ end] => destruct x; try discriminate
          end);
    injection H as <-; eauto.
Qed.

(** The walk leaves in the variables what the last matching definition
    assigned. *)
Lemma visit_keeps_last target nodes acc :
  foldl (visitDefinition target) acc nodes
  = default acc (last (omap (definitionOf target) nodes)).
Proof.
  induction nodes as [|n nodes IH] using rev_ind; [done|].
  rewrite foldl_app, omap_app. simpl. rewrite IH.
  unfold visitDefinition.
  destruct (definitionOf target n) as [found|].
  - by rewrite last_snoc.
  - by rewrite app_nil_r.
Qed.

(** C2, as the code has it.  The context returned for a file is built from
    the last definition of the searched name in visiting order: there is no
    context when the file has no such definition, and otherwise the name and
    the line range are those of the last one. *)
Theorem last_definition_recorded ast target content route :
  match last (definitionsOf target ast) with
  | None => findControllerFunctionInAST ast target content route = None
  | Some found =>
      exists ctx,
        findControllerFunctionInAST ast target content route = Some ctx
        /\ functionName ctx = f_functionName found
        /\ startLine ctx = f_startLine found
        /\ endLine ctx = f_endLine found
  end.
Proof.
  unfold findControllerFunctionInAST, definitionsOf.
  rewrite visit_keeps_last.
  destruct (last (omap (definitionOf target) (traverse ast))) as [found|] eqn:E;
    [|done].
  simpl. apply last_Some in E as [before E].
  assert (In found (omap (definitionOf target) (traverse ast))) as Hin.
  { rewrite E. apply in_or_app. right. by left. }
  apply list_elem_of_In, list_elem_of_omap in Hin as (n & _ & Hn).
  destruct (definitionOf_has_function _ _ _ Hn) as [fn ->].
  eexists. by repeat split.
Qed.

(** C2 as stated fails: the file defines [createUser] on lines 3-8 and
    again on lines 20-24; the first definition in visiting order is the one
    on line 3, the context records line 20. *)
Lemma first_definition_not_recorded :
  exists first ctx,
    head (definitionsOf "createUser" Samples.twoDefinitions) = Some first
    /\ length (definitionsOf "createUser" Samples.twoDefinitions) = 2
    /\ findControllerFunctionInAST Samples.twoDefinitions "createUser" ""
         Samples.createUserRoute = Some ctx
    /\ f_startLine first = 3 /\ f_endLine first = 8
    /\ startLine ctx = 20 /\ endLine ctx = 24
    /\ startLine ctx <> f_startLine first.
Proof.
  do 2 eexists. repeat split; try (vm_compute; reflexivity).
  vm_compute. discriminate.
Qed.

End PayloadPredictorClaims.

(** ** Claims on the sampling policy *)

Module MongoConnectorClaims.
Import Js MongoConnector.

Lemma randomBelow_lt ch m :
  rnd_num ch < rnd_den ch -> 0 < m -> randomBelow ch m < m.
Proof.
  intros Hlt Hm. unfold randomBelow.
  apply Nat.Div0.div_lt_upper_bound. nia.
Qed.

Lemma drawSample_length choose size docs :
  size <= length docs -> length (drawSample choose size docs) = size.
Proof.
  revert docs. induction size as [|size IH]; intros docs Hle; [done|].
  simpl.
  assert (choose size mod length docs < length docs) as Hi
      by (apply Nat.mod_upper_bound; lia).
  destruct (lookup_lt_is_Some_2 docs _ Hi) as [doc Hdoc].
  rewrite Hdoc. simpl. f_equal. apply IH.
  rewrite length_delete by eauto. lia.
Qed.

(** C3 for a limit of at least one.  On an available connection, a
    collection of at most [limit] documents is returned whole (so an empty
    one gives no document); one of more than [limit] and fewer than 100 gives
    the [limit] documents that follow a random skip; one of 100 or more gives
    [limit] documents drawn by [$sample]. *)
Theorem getSampleDocuments_policy c ch collectionName limit docs :
  isAvailable c = true ->
  getCollection c collectionName = Some docs ->
  1 <= limit ->
  rnd_num ch < rnd_den ch ->
  let result := getSampleDocuments c ch collectionName limit in
  let skip := randomBelow ch (length docs - limit) in
  (length docs <= limit -> result = docs)
  /\ (limit < length docs -> length docs < 100 ->
      result = take limit (drop skip docs)
      /\ skip + limit <= length docs
      /\ length result = limit)
  /\ (100 <= length docs -> limit < length docs ->
      result = drawSample (choose ch) limit docs /\ length result = limit)
  /\ (docs = [] -> result = []).
Proof.
  intros Havail Hcoll Hlimit Hrnd result skip.
  subst result. unfold getSampleDocuments. rewrite Havail, Hcoll. simpl.
  split; [|split; [|split]].
  - intros Hle. apply Nat.leb_le in Hle. by rewrite Hle.
  - intros Hgt Hsmall.
    assert ((length docs <=? limit)%nat = false) as -> by (apply Nat.leb_gt; lia).
    assert ((length docs <? 100)%nat = true) as -> by (apply Nat.ltb_lt; lia).
    unfold findSkipLimit.
    assert ((limit =? 0)%nat = false) as -> by (apply Nat.eqb_neq; lia).
    assert (skip < length docs - limit) as Hskip
        by (apply randomBelow_lt; lia).
    split; [done|]. split; [lia|].
    rewrite length_take, length_drop. fold skip. lia.
  - intros Hbig Hgt.
    assert ((length docs <=? limit)%nat = false) as -> by (apply Nat.leb_gt; lia).
    assert ((length docs <? 100)%nat = false) as -> by (apply Nat.ltb_ge; lia).
    unfold aggregateSample.
    assert ((limit =? 0)%nat = false) as -> by (apply Nat.eqb_neq; lia).
    split; [done|]. apply drawSample_length. lia.
  - intros ->. reflexivity.
Qed.

Lemma getSampleDocuments_policy_witness :
  getSampleDocuments Samples.liveConnector Samples.zeroDraw "users" 5
    = Samples.fiveUsers
  /\ length (getSampleDocuments Samples.liveConnector Samples.zeroDraw "users" 3)
     = 3.
Proof.
  pose proof (getSampleDocuments_policy Samples.liveConnector Samples.zeroDraw
                "users" 5 Samples.fiveUsers eq_refl eq_refl
                ltac:(lia) ltac:(simpl; lia)) as (Hall & _).
  pose proof (getSampleDocuments_policy Samples.liveConnector Samples.zeroDraw
                "users" 3 Samples.fiveUsers eq_refl eq_refl
                ltac:(lia) ltac:(simpl; lia)) as (_ & Hskip & _).
  split.
  - apply Hall. simpl. lia.
  - apply Hskip; simpl; lia.
Defined.

(** C3 as stated fails for a limit of 0: the driver reads [limit(0)] as
    "no limit", so a collection of five documents (above the limit, below
    100) is returned whole instead of giving 0 documents. *)
Lemma zero_limit_returns_documents :
  MongoConnector.isAvailable Samples.liveConnector = true
  /\ getCollection Samples.liveConnector "users" = Some Samples.fiveUsers
  /\ 0 < length Samples.fiveUsers < 100
  /\ length (getSampleDocuments Samples.liveConnector Samples.zeroDraw "users" 0)
     = 5
  /\ length (getSampleDocuments Samples.liveConnector Samples.zeroDraw "users" 0)
     <> 0.
Proof. vm_compute. repeat split; (lia || discriminate || reflexivity). Qed.

End MongoConnectorClaims.

(** ** Claims on the hybrid generator *)

Module HybridPayloadGeneratorClaims.
Import Js HybridPayloadGenerator.

(** C6, as the code has it.  With a non-empty prediction and non-empty
    sample data, the recommendation is "ai-only" exactly when the caller
    prefers real data and the sample confidence is not above 0.6, and
    "hybrid" exactly when the caller does not prefer real data or the
    confidence is above 0.6. *)
Theorem approach_with_both_sources prediction mongoData options :
  nonEmpty (pp_fields prediction) = true ->
  nonEmpty (sd_samples (primary mongoData)) = true ->
  (determineRecommendedApproach (Some prediction) (Some mongoData) options
     = ai_only
   <-> preferRealData options = true
       /\ PrimFloat.ltb 0.6 (sd_confidence (primary mongoData)) = false)
  /\ (determineRecommendedApproach (Some prediction) (Some mongoData) options
        = hybrid_approach
      <-> preferRealData options = false
          \/ PrimFloat.ltb 0.6 (sd_confidence (primary mongoData)) = true).
Proof.
  intros Hai Hmongo. unfold determineRecommendedApproach.
  rewrite Hai, Hmongo. simpl.
  destruct (preferRealData options);
    destruct (PrimFloat.ltb 0.6 (sd_confidence (primary mongoData)));
    intuition congruence.
Qed.

Lemma approach_with_both_sources_witness :
  determineRecommendedApproach (Some Samples.onePrediction)
    (Some Samples.lukewarmData) getDefaultOptions = ai_only.
Proof.
  apply (approach_with_both_sources Samples.onePrediction Samples.lukewarmData
           getDefaultOptions eq_refl eq_refl).
  split; reflexivity.
Defined.

(** C6 as stated fails: a caller who does not prefer real data, with sample
    confidence 0.5 (not above 0.6), is told "hybrid", not "ai-only". *)
Lemma no_preference_is_hybrid :
  preferRealData Samples.noPreference = false
  /\ PrimFloat.ltb 0.6 (sd_confidence (primary Samples.lukewarmData)) = false
  /\ determineRecommendedApproach (Some Samples.onePrediction)
       (Some Samples.lukewarmData) Samples.noPreference = hybrid_approach
  /\ determineRecommendedApproach (Some Samples.onePrediction)
       (Some Samples.lukewarmData) Samples.noPreference <> ai_only.
Proof. repeat split; try reflexivity. vm_compute. discriminate. Qed.

(** C4.  With the data store unavailable and a prediction that has at least
    one field, the result recommends "ai-only" and reports no database
    data. *)
Theorem unavailable_store_is_ai_only world route options prediction :
  mongoAvailable world = false ->
  getAIPrediction world 0 options = Some prediction ->
  nonEmpty (pp_fields prediction) = true ->
  recommendedApproach (generateHybridPrediction world route options) = ai_only
  /\ hasMongoData (generateHybridPrediction world route options) = false.
Proof.
  intros Hdown Hai Hfields. unfold generateHybridPrediction.
  rewrite Hdown, Hai.
  destruct (mergeFieldPredictions _ _ _ _ _) as [hybridFields | message].
  - simpl. unfold determineRecommendedApproach. by rewrite Hfields.
  - done.
Qed.

Lemma unavailable_store_is_ai_only_witness :
  recommendedApproach
    (generateHybridPrediction Samples.offlineWorld Samples.createUserRoute
       getDefaultOptions) = ai_only
  /\ hasMongoData
       (generateHybridPrediction Samples.offlineWorld Samples.createUserRoute
          getDefaultOptions) = false.
Proof.
  exact (unavailable_store_is_ai_only Samples.offlineWorld
           Samples.createUserRoute getDefaultOptions Samples.onePrediction
           eq_refl eq_refl eq_refl).
Defined.

(** *** Predicted fields that are as declared *)

Lemma mergeAiFields_declared world method options aiFields :
  forall hybridFields processedFields,
    forallb asDeclared aiFields = true ->
    Forall textual hybridFields ->
    exists merged,
      mergeAiFields world None method options aiFields hybridFields
        processedFields = Ok merged
      /\ Forall textual merged.
Proof.
  induction aiFields as [|aiField aiFields IH];
    intros hybridFields processedFields Hdeclared Hall.
  - by eexists.
  - cbn [forallb] in Hdeclared. apply andb_true_iff in Hdeclared as [Hfield Hrest].
    unfold asDeclared in Hfield. cbn [mergeAiFields].
    destruct (pf_name aiField) as [| | | |fieldName| | | |]; try done.
    destruct (pf_type aiField) as [| | | |typeName| | | |] eqn:Htype; try done.
    destruct (_ && _); [|by apply IH].
    apply IH; [done|]. apply Forall_app. split; [done|].
    constructor; [|constructor]. split; by eexists.
Qed.

Lemma filterExc_total {A} (test : A -> Exc bool) (xs : list A) :
  Forall (fun x => exists keep, test x = Ok keep) xs ->
  exists kept, filterExc test xs = Ok kept.
Proof.
  induction 1 as [|x xs [keep Hx] _ [kept IH]]; [by eexists|].
  cbn [filterExc]. rewrite Hx, IH. by eexists.
Qed.

Lemma resolveObjectIdFields_textual world hybridFields contextCollection :
  Forall textual hybridFields ->
  exists resolved,
    resolveObjectIdFields world hybridFields contextCollection = Ok resolved.
Proof.
  intros Hall. unfold resolveObjectIdFields.
  destruct (filterExc_total isObjectIdField hybridFields) as [kept ->].
  - eapply Forall_impl; [exact Hall|].
    intros field [[fieldName Hname] [typeName Htype]].
    unfold isObjectIdField. rewrite Htype, Hname. cbn [typeIncludes].
    destruct (includes typeName "ObjectId"); by eexists.
  - destruct kept; by eexists.
Qed.

(** The merge returns when the connection gave no data and every predicted
    field is as declared. *)
Lemma mergeFieldPredictions_declared world aiFields route options :
  forallb asDeclared aiFields = true ->
  exists merged,
    mergeFieldPredictions world aiFields None route options = Ok merged.
Proof.
  intros Hdeclared. unfold mergeFieldPredictions.
  destruct (mergeAiFields_declared world (RouteDetection.method route) options
              aiFields [] [] Hdeclared ltac:(constructor))
    as (merged & -> & Hall).
  destruct (resolveObjectIdFields_textual world merged None Hall)
    as [resolved ->].
  destruct (limitFields options) as [[|n]|]; by eexists.
Qed.

(** C9, as the code has it.  With the connection available and no usable
    collection ([getMongoData] gives [null]), the result names no
    collection, carries no sample document and has collection confidence 0.
    It reports database data, because [undefined !== null] holds, exactly
    when merging the predicted fields does not throw, as is the case when
    every predicted field has a string for its name and for its type; when
    the merge throws, the [catch] block answers and reports none. *)
Theorem null_mongo_data_still_flagged world route options :
  mongoAvailable world = true ->
  getMongoData world = None ->
  let aiFields :=
    match getAIPrediction world 0 options with
    | Some prediction => pp_fields prediction
    | None => []
    end in
  let result := generateHybridPrediction world route options in
  (forallb asDeclared aiFields = true -> hasMongoData result = true)
  /\ (hasMongoData result = true
      <-> exists merged,
            mergeFieldPredictions world aiFields None route options = Ok merged)
  /\ collectionName result = None
  /\ sampleDocuments result = []
  /\ collectionConfidence result = 0%float.
Proof.
  intros Hup Hnull aiFields result.
  assert (match mergeFieldPredictions world aiFields None route options with
          | Ok _ => hasMongoData result = true
          | Thrown _ => hasMongoData result = false
          end
          /\ collectionName result = None
          /\ sampleDocuments result = []
          /\ collectionConfidence result = 0%float) as (Hflag & Hrest).
  { subst result aiFields. unfold generateHybridPrediction.
    rewrite Hup, Hnull.
    by destruct (mergeFieldPredictions _ _ _ _ _). }
  split; [|split; [|exact Hrest]].
  - intros Hdeclared.
    destruct (mergeFieldPredictions_declared world aiFields route options
                Hdeclared) as [merged Hmerged].
    by rewrite Hmerged in Hflag.
  - destruct (mergeFieldPredictions world aiFields None route options)
      as [merged|message].
    + split; [by eexists | done].
    + rewrite Hflag. split; [done | by intros [merged ?]].
Qed.

Lemma null_mongo_data_still_flagged_witness :
  hasMongoData
    (generateHybridPrediction Samples.emptyDatabaseWorld Samples.createUserRoute
       getDefaultOptions) = true.
Proof.
  exact (proj1 (null_mongo_data_still_flagged Samples.emptyDatabaseWorld
                  Samples.createUserRoute getDefaultOptions eq_refl eq_refl)
           eq_refl).
Defined.

(** C9 as stated fails.  The connection is available and no collection is
    usable; the language model's answer has a field without a name.
    [shouldSkipField] throws on reading [startsWith] of [undefined], the
    merge is left, and the [catch] block reports no database data. *)
Lemma nameless_field_clears_the_flag :
  mongoAvailable Samples.namelessAnswerWorld = true
  /\ getMongoData Samples.namelessAnswerWorld = None
  /\ mergeFieldPredictions Samples.namelessAnswerWorld [Samples.namelessField]
       None Samples.createUserRoute getDefaultOptions
     = Thrown "Cannot read properties of undefined (reading 'startsWith')"
  /\ hasMongoData
       (generateHybridPrediction Samples.namelessAnswerWorld
          Samples.createUserRoute getDefaultOptions) = false.
Proof. by vm_compute. Qed.

(** *** The real-data flag *)

Section RealDataFlag.
Variable world : World.

Lemma nonEmpty_hasValues (values : list Value) field :
  realValues field = Some values -> hasValues field = nonEmpty values.
Proof. unfold hasValues. intros ->. by destruct values. Qed.

Lemma mergeMongoField_flag aiFields mongoData mongoField field :
  mergeMongoField world aiFields mongoData mongoField = Ok field ->
  flagMatchesValues field.
Proof.
  unfold mergeMongoField.
  destruct (getRealValuesForField _ _ _ _) as [values|]; [|done].
  intros [= <-]. unfold flagMatchesValues. simpl.
  by erewrite nonEmpty_hasValues.
Qed.

Lemma mergeMongoFields_flag aiFields mongoData method options mongoFields :
  forall hybridFields processedFields merged processed,
    Forall flagMatchesValues hybridFields ->
    mergeMongoFields world aiFields mongoData method options mongoFields
      hybridFields processedFields = Ok (merged, processed) ->
    Forall flagMatchesValues merged.
Proof.
  induction mongoFields as [|mongoField mongoFields IH];
    intros hybridFields processedFields merged processed Hall Hrun.
  - by injection Hrun as <- <-.
  - simpl in Hrun.
    destruct (shouldSkipField _ _ _); [by eapply IH|].
    destruct (mergeMongoField _ _ _ _) as [field|] eqn:Hfield; [|done].
    eapply IH; [|exact Hrun].
    apply Forall_app. split; [done|].
    constructor; [|constructor]. by eapply mergeMongoField_flag.
Qed.

Lemma mergeAiFields_flag mongoData method options aiFields :
  forall hybridFields processedFields merged,
    Forall flagMatchesValues hybridFields ->
    mergeAiFields world mongoData method options aiFields hybridFields
      processedFields = Ok merged ->
    Forall flagMatchesValues merged.
Proof.
  induction aiFields as [|aiField aiFields IH];
    intros hybridFields processedFields merged Hall Hrun.
  - by injection Hrun as <-.
  - cbn [mergeAiFields] in Hrun.
    destruct (pf_name aiField) as [| | | |fieldName| | | |]; try done.
    destruct (_ && _); [|by eapply IH].
    destruct (match mongoData with Some _ => _ | None => _ end)
      as [values|]; [|done].
    eapply IH; [|exact Hrun].
    apply Forall_app. split; [done|].
    constructor; [|constructor]. unfold flagMatchesValues. simpl.
    by erewrite nonEmpty_hasValues.
Qed.

Lemma slice_nonEmpty {A} (l : list A) (stop : Z) :
  nonEmpty l = true -> (0 < stop)%Z -> nonEmpty (slice l 0 stop) = true.
Proof.
  destruct l as [|x l]; [done|]. intros _ Hstop.
  unfold slice, clampIndex.
  assert ((0 <? 0)%Z = false) as -> by done.
  assert ((stop <? 0)%Z = false) as -> by (apply Z.ltb_ge; lia).
  destruct (Z.to_nat _) eqn:E.
  - simpl length in E. lia.
  - simpl length in E |- *.
    assert (Z.to_nat (0 `min` Z.of_nat (S (length l))) = 0) as -> by lia.
    done.
Qed.

Lemma applyResolution_flag resolutions field :
  flagMatchesValues field -> flagMatchesValues (applyResolution resolutions field).
Proof.
  intros Hfield. unfold applyResolution.
  destruct (isObjectIdField field) as [[|]|]; [|done|done].
  destruct (match nameText field with Some _ => _ | None => _ end)
    as [resolution|]; [|done].
  destruct (ObjectIdResolver.success resolution); [|done]. simpl.
  destruct (nonEmpty (ObjectIdResolver.suggestedIds resolution)) eqn:Hsome;
    [|done].
  unfold flagMatchesValues, hasValues. simpl.
  pose proof (slice_nonEmpty _ 3 Hsome ltac:(lia)) as Hslice.
  by destruct (slice (ObjectIdResolver.suggestedIds resolution) 0 3).
Qed.

Lemma resolveObjectIdFields_flag hybridFields contextCollection resolved :
  Forall flagMatchesValues hybridFields ->
  resolveObjectIdFields world hybridFields contextCollection = Ok resolved ->
  Forall flagMatchesValues resolved.
Proof.
  intros Hall. unfold resolveObjectIdFields.
  destruct (filterExc isObjectIdField hybridFields) as [[|kept rest]|];
    [by intros [= <-] | | done].
  intros [= <-]. apply Forall_fmap. eapply Forall_impl; [exact Hall|].
  intros field. apply applyResolution_flag.
Qed.

Lemma sortInsert_Forall {A} (P : A -> Prop) cmp (x : A) (l : list A) :
  P x -> Forall P l -> Forall P (sortInsert cmp x l).
Proof.
  intros Hx. induction 1 as [|y l Hy Hl IH]; simpl.
  - by constructor.
  - destruct (PrimFloat.ltb 0 (cmp x y)); repeat constructor; done.
Qed.

Lemma sort_Forall {A} (P : A -> Prop) cmp (l : list A) :
  Forall P l -> Forall P (sort cmp l).
Proof.
  induction 1 as [|x l Hx Hl IH]; [constructor|].
  by apply sortInsert_Forall.
Qed.

Lemma slice_Forall {A} (P : A -> Prop) (l : list A) (start stop : Z) :
  Forall P l -> Forall P (slice l start stop).
Proof. intros Hall. unfold slice. by apply Forall_take, Forall_drop. Qed.

Lemma mergeFieldPredictions_flag aiFields mongoData route options merged :
  mergeFieldPredictions world aiFields mongoData route options = Ok merged ->
  Forall flagMatchesValues merged.
Proof.
  unfold mergeFieldPredictions.
  destruct (match mongoData with Some _ => _ | None => _ end)
    as [[hybridFields processedFields]|] eqn:Hfirst; [|done].
  assert (Forall flagMatchesValues hybridFields) as Hone.
  { destruct mongoData as [md|]; [|by injection Hfirst as <- <-].
    destruct (schema md) as [sch|]; [|by injection Hfirst as <- <-].
    by eapply mergeMongoFields_flag. }
  destruct (mergeAiFields _ _ _ _ _ _ _) as [both|] eqn:Hsecond; [|done].
  pose proof (mergeAiFields_flag _ _ _ _ _ _ _ Hone Hsecond) as Htwo.
  destruct (resolveObjectIdFields world both _) as [resolved|] eqn:Hthird;
    [|done].
  pose proof (sort_Forall _ byImportance _
                (resolveObjectIdFields_flag both _ resolved Htwo Hthird))
    as Hsorted.
  destruct (limitFields options) as [[|n]|]; intros [= <-];
    [done | by apply slice_Forall | done].
Qed.

End RealDataFlag.

(** C5, as the code has it.  For every field of the result, whatever its
    source, [hasRealData] is [true] exactly when the field carries at least
    one real value; a field whose source is "mongodb" and for which no real
    value was found has [hasRealData] [false]. *)
Theorem real_data_flag_tracks_values world route options field :
  In field (fields (generateHybridPrediction world route options)) ->
  hasRealData field = hasValues field.
Proof.
  unfold generateHybridPrediction.
  destruct (mergeFieldPredictions _ _ _ _ _) as [merged|] eqn:Hmerge.
  - simpl. intros Hin.
    apply mergeFieldPredictions_flag in Hmerge.
    by apply (proj1 (List.Forall_forall _ _) Hmerge).
  - unfold aiOnlyFallback. simpl.
    destruct (getAIPrediction world 1 options) as [prediction|]; [|done].
    intros Hin. apply in_map_iff in Hin as (predicted & <- & _). done.
Qed.

(** The nested schema field [address.city] is absent from the sampled
    document and the field-sample query cannot read it back, so the merged
    field has source "mongodb", no real value, and the schema's example. *)
Lemma real_data_flag_tracks_values_witness :
  let field :=
    mkHybridField (VString "address.city") (VString "string") false
      (VString "Paris")
      "Field from users collection" (Some []) false 0.8 mongodb
      (Some (mkFieldInfo "string" 40 false None)) in
  hasRealData field = hasValues field.
Proof.
  intros field.
  apply (real_data_flag_tracks_values Samples.nestedFieldWorld
           Samples.createUserRoute getDefaultOptions field).
  vm_compute. tauto.
Defined.

(** C5 as stated fails: in that result the field has source "mongodb" and
    [hasRealData] is [false]. *)
Lemma mongodb_field_without_real_data :
  exists field,
    In field
      (fields (generateHybridPrediction Samples.nestedFieldWorld
                 Samples.createUserRoute getDefaultOptions))
    /\ source field = mongodb
    /\ hasRealData field = false
    /\ example field = VString "Paris".
Proof.
  exists (mkHybridField (VString "address.city") (VString "string") false
      (VString "Paris")
            "Field from users collection" (Some []) false 0.8 mongodb
            (Some (mkFieldInfo "string" 40 false None))).
  split; [vm_compute; tauto | by repeat split].
Qed.

End HybridPayloadGeneratorClaims.

(** ** Claims on collection inference *)

Module CollectionInferencerClaims.
Import Js RouteDetection CollectionInferencer.

Lemma products_segments : parseRoutePath "/api/v1/products/:id" = ["products"].
Proof. vm_compute. reflexivity. Qed.

(** The file-name strategy never scores above 0.4. *)
Lemma inferFromFileName_confidence file :
  confidence (inferFromFileName file) = 0%float
  \/ confidence (inferFromFileName file) = 0.4%float.
Proof.
  unfold inferFromFileName.
  destruct (arrayIncludes genericNames _); [by left|].
  destruct (List.rev _); [by left | by right].
Qed.

Lemma setAddAll_keeps_head x seen xs :
  exists rest, setAddAll (x :: seen) xs = x :: rest.
Proof.
  revert seen. induction xs as [|y xs IH]; intros seen; [by eexists|].
  simpl. destruct (_ || _); apply IH.
Qed.

Lemma slice_keeps_head {A} (x : A) (l : list A) (stop : Z) :
  (0 < stop)%Z -> exists rest, slice (x :: l) 0 stop = x :: rest.
Proof.
  intros Hstop. unfold slice, clampIndex.
  assert ((0 <? 0)%Z = false) as -> by done.
  assert ((stop <? 0)%Z = false) as -> by (apply Z.ltb_ge; lia).
  simpl length.
  assert (Z.to_nat (0 `min` Z.of_nat (S (length l))) = 0) as -> by lia.
  destruct (Z.to_nat _) eqn:E; [lia|]. by eexists.
Qed.

Lemma alternatives_start_with_products (fromFile : CollectionInference) :
  exists rest,
    collectAlternatives "product" ["products"; "unknown"] fromFile
    = "products" :: rest.
Proof.
  unfold collectAlternatives.
  destruct (negb (String.eqb (collectionName fromFile) "product")).
  - destruct (setAddAll_keeps_head "products" ["unknown"]
                [collectionName fromFile]) as [t ->].
    apply setAddAll_keeps_head.
  - apply setAddAll_keeps_head.
Qed.

(** C7.  For [GET /api/v1/products/:id], whatever the file, the primary
    inference is "product" with the confidence of the additive rule
    (0.5 + 0.3 + 0.2 + 0.1, capped at 1.0, that is 1.0), and "products" is
    among the alternative names. *)
Theorem products_route_inference route :
  path route = "/api/v1/products/:id" ->
  method route = "GET" ->
  exists inference,
    inferCollectionName route = Ok inference
    /\ collectionName inference = "product"
    /\ confidence inference = mathMin (0.5 + 0.3 + 0.2 + 0.1)%float 1.0
    /\ confidence inference = 1.0%float
    /\ In "products" (alternativeNames inference).
Proof.
  destruct route as [m p file ln mws h cfp cfn]. simpl. intros -> ->.
  unfold inferCollectionName. cbn [path filePath].
  rewrite products_segments.
  set (route := mkRoute _ _ _ _ _ _ _ _).
  set (first := mkInference "product" 1.0 "Inferred from path segment: products"
                  ["products"; "products"]).
  set (second := mkInference "unknown" 0.0 "No special cases matched" []).
  set (third := mkInference "product" 0.5
                  "REST pattern: GET suggests 'product' collection" ["products"]).
  assert (inferFromPathSegments ["products"] route = first)
    as -> by (vm_compute; reflexivity).
  assert (inferFromSpecialCases ["products"] route = Ok second)
    as -> by (vm_compute; reflexivity).
  assert (inferFromRouteMethod ["products"] route = third)
    as -> by (vm_compute; reflexivity).
  set (fromFile := inferFromFileName file).
  assert (better first fromFile = first) as Hfile.
  { unfold better.
    destruct (inferFromFileName_confidence file) as [H | H];
      subst fromFile; rewrite H; reflexivity. }
  cbn [tl foldl].
  assert (better first second = first) as -> by reflexivity.
  assert (better first third = first) as -> by reflexivity.
  rewrite Hfile.
  assert (collectAlternatives "product"
            (collectAlternatives "product"
               (collectAlternatives "product" [] first) second) third
          = ["products"; "unknown"]) as Halts by reflexivity.
  change (collectionName first) with "product". rewrite Halts.
  destruct (alternatives_start_with_products fromFile) as [rest ->].
  destruct (slice_keeps_head "products" rest 5 ltac:(lia)) as [rest' ->].
  eexists. split; [reflexivity|].
  split; [reflexivity|]. split; [reflexivity|]. split; [reflexivity|].
  by left.
Qed.

Lemma products_route_inference_witness :
  exists inference,
    inferCollectionName
      (mkRoute "GET" "/api/v1/products/:id" "/srv/routes/productRoutes.js" 12
         [] "getProduct" None None) = Ok inference
    /\ collectionName inference = "product"
    /\ confidence inference = 1.0%float
    /\ In "products" (alternativeNames inference).
Proof.
  destruct (products_route_inference
              (mkRoute "GET" "/api/v1/products/:id"
                 "/srv/routes/productRoutes.js" 12 [] "getProduct" None None)
              eq_refl eq_refl) as (inference & H1 & H2 & _ & H3 & H4).
  exists inference. by repeat split.
Defined.

End CollectionInferencerClaims.

(** ** Claims on identifier resolution *)

Module ObjectIdResolverClaims.
Import Js ObjectIdResolver.

Lemma suggestFrom_succeeds store fieldName contextCollection limit collections
  resolution :
  suggestFrom store fieldName contextCollection limit collections = Ok resolution ->
  success resolution = true.
Proof.
  unfold suggestFrom.
  destruct (collectIds _ _ _ _ _ _) as [ids|]; [|done].
  by intros [= <-].
Qed.

(** Whatever the [try] block returns is marked successful. *)
Lemma resolveBody_succeeds store fieldName contextCollection limit resolution :
  resolveBody store fieldName contextCollection limit = Ok resolution ->
  success resolution = true.
Proof.
  unfold resolveBody.
  destruct (getPossibleCollections fieldName) as [possible|]; [|done].
  destruct (List.filter _ possible); [|apply suggestFrom_succeeds].
  destruct (List.filter _ (inferCollectionFromFieldName fieldName));
    [|apply suggestFrom_succeeds].
  by intros [= <-].
Qed.

(** C10.  The resolution is marked unsuccessful exactly when the connection
    is unavailable or the [try] block threw.  On an available connection,
    when neither the mapping table nor the suffix inference names a
    collection that exists, the resolution is successful with no suggested
    identifier, an error message, and every available collection listed as
    possible. *)
Theorem resolution_success_cases store fieldName contextCollection limit :
  (success (resolveObjectIdField store fieldName contextCollection limit) = false
   <-> isAvailable store = false
       \/ exists message,
            resolveBody store fieldName contextCollection limit = Thrown message)
  /\ (forall possible,
         isAvailable store = true ->
         getPossibleCollections fieldName = Ok possible ->
         List.filter (arrayIncludes (listCollections store)) possible = [] ->
         List.filter (arrayIncludes (listCollections store))
           (inferCollectionFromFieldName fieldName) = [] ->
         resolveObjectIdField store fieldName contextCollection limit
         = mkResolution fieldName [] (listCollections store) true
             (Some ("No matching collections found for field '"
                    +:+ fieldName +:+ "'"))).
Proof.
  split.
  - unfold resolveObjectIdField.
    destruct (isAvailable store); simpl; [|by split; [left|]].
    destruct (resolveBody _ _ _ _) as [resolution|message] eqn:Hbody; simpl.
    + rewrite (resolveBody_succeeds _ _ _ _ _ Hbody).
      split; [done|]. by intros [? | [? ?]].
    + split; [|done]. intros _. right. by eexists.
  - intros possible Havail Hpossible Hexisting Hinferred.
    unfold resolveObjectIdField, resolveBody.
    by rewrite Havail, Hpossible, Hexisting, Hinferred.
Qed.

(** [userId] against a database that only holds [widgets]. *)
Lemma resolution_success_cases_witness :
  resolveObjectIdField Samples.widgetStore "userId" (Some "orders") 5
  = mkResolution "userId" [] ["widgets"] true
      (Some "No matching collections found for field 'userId'").
Proof.
  exact (proj2 (resolution_success_cases Samples.widgetStore "userId"
                  (Some "orders") 5)
           ["users"; "user"; "accounts"; "profiles"]
           eq_refl eq_refl eq_refl eq_refl).
Defined.

End ObjectIdResolverClaims.

(** ** Further facts on strings and arrays *)

Module JsMoreFacts.
Import Js JsFacts.

Lemma append_assoc (a b c : string) : (a +:+ b) +:+ c = a +:+ (b +:+ c).
Proof.
  induction a as [|x a IH]; [reflexivity|].
  change (String x ((a +:+ b) +:+ c) = String x (a +:+ (b +:+ c))).
  by rewrite IH.
Qed.

Lemma endsWith_append (s suf : string) : endsWith (s +:+ suf) suf = true.
Proof.
  induction s as [|x s IH].
  - destruct suf; simpl; [reflexivity|].
    by rewrite Ascii.eqb_refl, String.eqb_refl.
  - change (endsWith (String x (s +:+ suf)) suf = true).
    rewrite endsWith_cons, IH. apply orb_true_r.
Qed.

Lemma dropLast_append_char (s : string) (c : ascii) :
  dropLast (s +:+ String c "") = s.
Proof.
  induction s as [|x s IH]; [reflexivity|].
  change (dropLast (String x (s +:+ String c "")) = String x s).
  simpl. destruct (s +:+ String c "") eqn:E.
  - destruct s; discriminate.
  - by rewrite IH.
Qed.

Lemma length_append (a b : string) :
  String.length (a +:+ b) = String.length a + String.length b.
Proof.
  induction a as [|x a IH]; [reflexivity|].
  change (S (String.length (a +:+ b)) = S (String.length a + String.length b)).
  by rewrite IH.
Qed.

(** Two strings that end in suffixes of one length are cut at the same
    place. *)
Lemma append_inj (a b t t' : string) :
  String.length t = String.length t' ->
  a +:+ t = b +:+ t' -> a = b /\ t = t'.
Proof.
  revert b. induction a as [|x a IH]; intros [|y b] Hlen H.
  - done.
  - change (t = String y (b +:+ t')) in H. subst t.
    simpl in Hlen. rewrite length_append in Hlen. lia.
  - change (String x (a +:+ t) = t') in H. subst t'.
    simpl in Hlen. rewrite length_append in Hlen. lia.
  - change (String x (a +:+ t) = String y (b +:+ t')) in H.
    injection H as <- H. destruct (IH b Hlen H) as [<- <-]. done.
Qed.

Lemma endsWith_spec (s suf : string) :
  endsWith s suf = true <-> exists pre, s = pre +:+ suf.
Proof.
  induction s as [|c s IH].
  - destruct suf as [|d suf]; simpl.
    + split; [by exists "" | done].
    + split; [done|]. intros [[|e pre] H]; discriminate.
  - rewrite endsWith_cons, orb_true_iff, IH, String.eqb_eq. split.
    + intros [->|[pre ->]]; [by exists "" | by exists (String c pre)].
    + intros [[|d pre] H]; [by left|].
      change (String c s = String d (pre +:+ suf)) in H.
      injection H as <- ->. right. by exists pre.
Qed.

(** Whether a string ends in one of two suffixes of the same length is
    decided by its last characters. *)
Lemma endsWith_same_length (pre t suf : string) :
  String.length t = String.length suf ->
  endsWith (pre +:+ t) suf = String.eqb t suf.
Proof.
  intros Hlen. apply eq_true_iff_eq.
  rewrite endsWith_spec, String.eqb_eq. split.
  - intros [other H]. by apply append_inj in H as [_ ?].
  - intros ->. by exists pre.
Qed.

Lemma endsWith_snoc (s suf : string) (c : ascii) :
  endsWith (s +:+ String c "") (suf +:+ String c "") = endsWith s suf.
Proof.
  apply eq_true_iff_eq. rewrite !endsWith_spec. split.
  - intros [pre H]. rewrite <- append_assoc in H.
    apply append_inj in H as [-> _]; [by exists pre | done].
  - intros [pre ->]. exists pre. by rewrite append_assoc.
Qed.

(** A string does not end in a suffix whose last character is another. *)
Lemma endsWith_other_last (s suf : string) (c d : ascii) :
  c <> d -> endsWith (s +:+ String c "") (suf +:+ String d "") = false.
Proof.
  intros Hne. apply not_true_iff_false. rewrite endsWith_spec.
  intros [pre H]. rewrite <- append_assoc in H.
  apply append_inj in H as [_ H]; [congruence | done].
Qed.

Lemma toLowerCase_append (a b : string) :
  toLowerCase (a +:+ b) = toLowerCase a +:+ toLowerCase b.
Proof.
  unfold toLowerCase. induction a as [|x a IH]; [done|].
  change (String (lowerChar x) (mapChars lowerChar (a +:+ b))
          = String (lowerChar x) (mapChars lowerChar a +:+ mapChars lowerChar b)).
  by rewrite IH.
Qed.

Lemma sortInsert_In {A} (cmp : A -> A -> float) (x y : A) (l : list A) :
  In x (sortInsert cmp y l) <-> x = y \/ In x l.
Proof.
  induction l as [|z l IH]; simpl; [intuition|].
  destruct (PrimFloat.ltb _ _); simpl; [rewrite IH|]; intuition.
Qed.

(** Sorting neither adds nor drops an element. *)
Lemma sort_In {A} (cmp : A -> A -> float) (x : A) (l : list A) :
  In x (sort cmp l) <-> In x l.
Proof.
  induction l as [|y l IH]; [done|].
  change (sort cmp (y :: l)) with (sortInsert cmp y (sort cmp l)).
  rewrite sortInsert_In, IH. simpl. intuition.
Qed.

Lemma sort_length {A} (cmp : A -> A -> float) (l : list A) :
  length (sort cmp l) = length l.
Proof.
  induction l as [|y l IH]; [done|].
  change (sort cmp (y :: l)) with (sortInsert cmp y (sort cmp l)).
  simpl. rewrite <- IH. generalize (sort cmp l). intros sorted.
  induction sorted as [|z sorted IHs]; [done|].
  simpl. destruct (PrimFloat.ltb _ _); simpl; [by rewrite IHs | done].
Qed.

Lemma dropLast_append (pre : string) (c : ascii) (t : string) :
  dropLast (pre +:+ String c t) = pre +:+ dropLast (String c t).
Proof.
  induction pre as [|x pre IH]; [reflexivity|].
  change (dropLast (String x (pre +:+ String c t))
          = String x (pre +:+ dropLast (String c t))).
  rewrite <- IH. simpl. by destruct pre.
Qed.

Lemma snoc_cases (s : string) :
  s = "" \/ exists s' c, s = s' +:+ String c "".
Proof.
  induction s as [|x s IH]; [by left|right].
  destruct IH as [->|(s' & c & ->)]; [by exists "", x | by exists (String x s'), c].
Qed.

(** Cutting as many characters as a suffix has removes the suffix. *)
Lemma dropLastN_append (pre tail : string) :
  dropLastN (String.length tail) (pre +:+ tail) = pre.
Proof.
  remember (String.length tail) as n eqn:Hn. revert tail Hn.
  induction n as [|n IH]; intros tail Hn.
  - destruct tail; [|done]. apply append_empty_r.
  - destruct (snoc_cases tail) as [->|(tail' & c & ->)]; [done|].
    rewrite length_append in Hn. simpl in Hn. cbn [dropLastN].
    rewrite <- append_assoc, dropLast_append_char. apply IH. lia.
Qed.

(** Cutting a known three-letter ending. *)
Lemma dropLastN_three (pre : string) (a b c : ascii) :
  dropLastN 3 (pre +:+ String a (String b (String c ""))) = pre.
Proof.
  cbn [dropLastN]. rewrite !dropLast_append. cbn [dropLast].
  rewrite dropLast_append. cbn [dropLast]. rewrite dropLast_append.
  cbn [dropLast]. apply append_empty_r.
Qed.

Lemma lowerChar_idempotent (c : ascii) : lowerChar (lowerChar c) = lowerChar c.
Proof. by destruct c as [[] [] [] [] [] [] [] []]. Qed.

Lemma toLowerCase_idempotent (s : string) :
  toLowerCase (toLowerCase s) = toLowerCase s.
Proof.
  induction s as [|c s IH]; [done|].
  unfold toLowerCase in *. simpl. by rewrite lowerChar_idempotent, IH.
Qed.

(** Lower-casing neither makes nor unmakes a colon or an asterisk. *)
Lemma lowerChar_colon (c : ascii) : ":"%char = lowerChar c <-> ":"%char = c.
Proof. destruct c as [[] [] [] [] [] [] [] []]; vm_compute; split; congruence. Qed.

Lemma lowerChar_asterisk (c : ascii) : "*"%char = lowerChar c <-> "*"%char = c.
Proof. destruct c as [[] [] [] [] [] [] [] []]; vm_compute; split; congruence. Qed.

Lemma setAddAll_In (xs seen : list string) (x : string) :
  In x (setAddAll seen xs) <-> In x seen \/ In x xs.
Proof.
  revert seen. induction xs as [|y xs IH]; intros seen; simpl; [tauto|].
  rewrite IH. destruct (arrayIncludes seen y) eqn:E.
  - apply arrayIncludes_In in E. split; [tauto|].
    intros [H|[<-|H]]; tauto.
  - rewrite in_app_iff. simpl. tauto.
Qed.

Lemma setAddAll_NoDup (xs seen : list string) :
  NoDup seen -> NoDup (setAddAll seen xs).
Proof.
  revert seen. induction xs as [|y xs IH]; intros seen Hseen; [done|].
  simpl. apply IH. destruct (arrayIncludes seen y) eqn:E; [done|].
  apply NoDup_app. split; [done|]. split.
  - intros z Hz Hy. apply list_elem_of_In in Hz.
    apply list_elem_of_In in Hy as [<-|[]].
    apply arrayIncludes_In in Hz. congruence.
  - apply NoDup_singleton.
Qed.

Lemma prefix_append (sub s : string) :
  String.prefix sub s = true <-> exists post, s = sub +:+ post.
Proof.
  revert s. induction sub as [|c sub IH]; intros s.
  - split; [by exists s | by destruct s].
  - destruct s as [|d s]; simpl.
    + split; [done | by intros [post ?]].
    + destruct (Ascii.ascii_dec c d) as [<-|Hne].
      * rewrite IH. split; intros [post H]; exists post.
        -- change (String c s = String c (sub +:+ post)). by rewrite H.
        -- change (String c s = String c (sub +:+ post)) in H. by injection H.
      * split; [done|]. intros [post H].
        change (String d s = String c (sub +:+ post)) in H. congruence.
Qed.

Lemma includes_append (s sub : string) :
  includes s sub = true <-> exists pre post, s = pre +:+ sub +:+ post.
Proof.
  induction s as [|c s IH].
  - change (includes "" sub) with (String.prefix sub "" || false).
    rewrite orb_false_r, prefix_append. split.
    + intros [post H]. by exists "", post.
    + intros (pre & post & H). destruct pre; [by exists post|discriminate].
  - change (includes (String c s) sub)
      with (String.prefix sub (String c s) || includes s sub).
    rewrite orb_true_iff, IH, prefix_append. split.
    + intros [[post H]|(pre & post & H)].
      * by exists "", post.
      * exists (String c pre), post.
        change (String c s = String c (pre +:+ sub +:+ post)). by rewrite H.
    + intros (pre & post & H). destruct pre as [|d pre].
      * left. by exists post.
      * right. exists pre, post.
        change (String c s = String d (pre +:+ sub +:+ post)) in H.
        by injection H.
Qed.

Lemma includes_trans (s mid sub : string) :
  includes s mid = true -> includes mid sub = true -> includes s sub = true.
Proof.
  rewrite !includes_append.
  intros (pre & post & ->) (pre' & post' & ->).
  exists (pre +:+ pre'), (post' +:+ post).
  by rewrite !append_assoc.
Qed.

Lemma splitOn_nonempty isSep s : splitOn isSep s <> [].
Proof.
  destruct s as [|c s]; [done|]. simpl.
  destruct (isSep c); [done|]. by destruct (splitOn isSep s).
Qed.

Lemma join_cons (sep p : string) (rest : list string) :
  rest <> [] -> join sep (p :: rest) = p +:+ sep +:+ join sep rest.
Proof. by destruct rest. Qed.

(** Joining the pieces of a split gives the string back. *)
Lemma join_split (sep : ascii) (s : string) :
  join (String sep "") (split sep s) = s.
Proof.
  unfold split. induction s as [|c s IH]; [done|].
  pose proof (splitOn_nonempty (Ascii.eqb sep) s) as Hne.
  cbn [splitOn]. destruct (Ascii.eqb sep c) eqn:E.
  - apply Ascii.eqb_eq in E as <-.
    rewrite join_cons by done. by rewrite IH.
  - destruct (splitOn (Ascii.eqb sep) s) as [|piece rest]; [done|].
    destruct rest as [|next rest].
    + change (String c piece = String c s). by rewrite <- IH.
    + rewrite join_cons by done. rewrite join_cons in IH by done.
      by rewrite <- IH.
Qed.

Lemma slice_from_start {A} (xs : list A) (n : nat) :
  slice xs 0 (Z.of_nat n) = take n xs.
Proof.
  unfold slice, clampIndex.
  destruct (Z.ltb_spec 0 0); [lia|].
  destruct (Z.ltb_spec (Z.of_nat n) 0); [lia|].
  rewrite (Z.min_l 0) by lia. change (Z.to_nat 0) with 0. rewrite drop_0.
  destruct (Z.min_spec (Z.of_nat n) (Z.of_nat (length xs))) as [[? ->]|[? ->]].
  - f_equal. lia.
  - replace (Z.to_nat (Z.of_nat (length xs) - 0)) with (length xs) by lia.
    rewrite !take_ge by lia. done.
Qed.

Lemma length_omap_le {A B : Type} (f : A -> option B) (l : list A) :
  length (omap f l) <= length l.
Proof.
  induction l as [|x l IH]; [done|].
  change (omap f (x :: l))
    with (match f x with Some y => y :: omap f l | None => omap f l end).
  destruct (f x); simpl; lia.
Qed.

End JsMoreFacts.

(** ** Further properties of route detection *)

Module RouteDetectionMore.
Import Js Ast RouteDetection RouteArguments JsFacts JsMoreFacts RouteDetectionFacts.

(** The four spellings of one prefix and one path give one route path. *)
Theorem combinePaths_normalises (prefix path : string) :
  endsWith prefix "/" = false ->
  startsWith path "/" = false ->
  combinePaths prefix path = prefix +:+ "/" +:+ path
  /\ combinePaths (prefix +:+ "/") path = prefix +:+ "/" +:+ path
  /\ combinePaths prefix ("/" +:+ path) = prefix +:+ "/" +:+ path
  /\ combinePaths (prefix +:+ "/") ("/" +:+ path) = prefix +:+ "/" +:+ path.
Proof.
  intros Hprefix Hpath. unfold combinePaths.
  rewrite Hprefix, Hpath, endsWith_append, dropLast_append_char.
  assert (startsWith ("/" +:+ path) "/" = true) as ->.
  { unfold startsWith. simpl. by destruct path. }
  done.
Qed.

Lemma combinePaths_normalises_witness :
  combinePaths "/api/" "/users" = "/api/users"
  /\ combinePaths "/api" "users" = "/api/users".
Proof.
  destruct (combinePaths_normalises "/api" "users" eq_refl eq_refl)
    as (H1 & _ & _ & H4).
  split; [exact H4 | exact H1].
Defined.

(** *** Imports *)

(** An import is resolved only if it is relative, and only to a file that
    exists. *)
Theorem resolveControllerPath_sound host importPath currentFilePath resolved :
  resolveControllerPath host importPath currentFilePath = Some resolved ->
  startsWith importPath "." = true /\ existsSync host resolved = true.
Proof.
  unfold resolveControllerPath.
  destruct (startsWith importPath "."); cbn [negb]; [|done].
  intros H. split; [done|].
  destruct (negb _).
  - destruct (existsSync host _) eqn:E; [|done]. by injection H as <-.
  - destruct (List.find (existsSync host) (map (fun ext => _ +:+ ext) _))
      as [fullPath|] eqn:E1.
    + injection H as <-. by apply find_some in E1 as [_ ?].
    + by apply find_some in H as [_ ?].
Qed.

Lemma resolveControllerPath_sound_witness :
  startsWith "./ctl" "." = true
  /\ existsSync MoreSamples.patchyHost "/w/ctl.js" = true.
Proof.
  exact (resolveControllerPath_sound MoreSamples.patchyHost "./ctl"
           "/w/routes.js" "/w/ctl.js" eq_refl).
Defined.

(** *** The arguments of a route call *)

Lemma scanHandlerArgs_cons d n m rest acc :
  scanHandlerArgs d (n :: m :: rest) acc
  = scanHandlerArgs d (m :: rest)
      match n with
      | Identifier name =>
          mkHandlerInfo (hi_middlewares acc ++ [name])%list (hi_handler acc)
            (hi_controllerFilePath acc) (hi_controllerFunction acc)
      | _ => acc
      end.
Proof.
  destruct n as [| |object property| | | | | | | | |]; try reflexivity.
  destruct object; try reflexivity. by destruct property.
Qed.

Lemma scanHandlerArgs_general d rest acc :
  hi_middlewares (scanHandlerArgs d rest acc)
  = (hi_middlewares acc ++ omap identifierName (removelast rest))%list
  /\ hi_handler (scanHandlerArgs d rest acc)
     = handlerNameOr (hi_handler acc) (last rest).
Proof.
  revert acc. induction rest as [|n rest IH]; intros acc.
  - simpl. by rewrite app_nil_r.
  - destruct rest as [|m rest].
    + simpl. rewrite app_nil_r.
      destruct n as [name| |object property| | | | | | | | |]; try done.
      * simpl. by destruct (truthyString _).
      * destruct object; try done. destruct property; try done.
        simpl. by destruct (truthyString _).
    + rewrite scanHandlerArgs_cons.
      change (last (n :: m :: rest)) with (last (m :: rest)).
      change (removelast (n :: m :: rest)) with (n :: removelast (m :: rest)).
      set (others := removelast (m :: rest)).
      destruct (IH (match n with
                    | Identifier name =>
                        mkHandlerInfo (hi_middlewares acc ++ [name])%list
                          (hi_handler acc) (hi_controllerFilePath acc)
                          (hi_controllerFunction acc)
                    | _ => acc
                    end)) as [IH1 IH2].
      fold others in IH1. rewrite IH1, IH2.
      destruct n; try done. simpl. by rewrite <- app_assoc.
Qed.

(** Of the arguments after the path, the last one alone names the handler
    ("anonymous" unless it is an identifier or [controller.method]), and the
    middlewares are the identifiers among the others, in order. *)
Theorem route_call_arguments d loc object property routePath rest file :
  let r := routeOfCall d loc object property routePath rest file in
  middlewares r = omap identifierName (removelast rest)
  /\ handler r = handlerNameOr "anonymous" (last rest).
Proof.
  simpl.
  apply (scanHandlerArgs_general d rest (mkHandlerInfo [] "anonymous" None None)).
Qed.

(** *** Files that cannot be read, calls that cannot be read *)

Lemma scanFiles_app host d before after :
  scanFiles host d (before ++ after)
  = scanFiles host (scanFiles host d before) after.
Proof. apply foldl_app. Qed.

(** A file that cannot be read or parsed changes nothing: the scan finds
    what it finds without that file, whatever was found before it and
    whatever comes after. *)
Theorem unreadable_file_is_skipped host d before bad after :
  readAndParse host bad = None ->
  scanFiles host d (before ++ bad :: after)
  = scanFiles host d (before ++ after).
Proof.
  intros Hbad. rewrite !scanFiles_app.
  change (scanFiles host (scanFiles host d before) (bad :: after))
    with (scanFiles host
            (parseFileForRoutes host (scanFiles host d before) bad) after).
  f_equal. unfold parseFileForRoutes, parseFileBody. by rewrite Hbad.
Qed.

Lemma unreadable_file_is_skipped_witness :
  scanFiles MoreSamples.patchyHost cleared (["a.js"] ++ "broken.js" :: ["b.js"])
  = scanFiles MoreSamples.patchyHost cleared (["a.js"] ++ ["b.js"]).
Proof.
  exact (unreadable_file_is_skipped MoreSamples.patchyHost cleared ["a.js"]
           "broken.js" ["b.js"] eq_refl).
Defined.

Lemma visitAll_app visit d before after :
  visitAll visit d (before ++ after)
  = match visitAll visit d before with
    | Returns d' => visitAll visit d' after
    | Throws d' => Throws d'
    end.
Proof.
  revert d. induction before as [|n before IH]; intros d; [done|].
  simpl. destruct (visit d n); [apply IH | done].
Qed.

(** A call [object.verb()] with one of the seven verbs and no argument ends
    the walk that collects routes: the routes pushed before it stay, and no
    node after it is looked at. *)
Theorem bare_verb_call_ends_walk file d before loc object property after :
  arrayIncludes httpMethods (toLowerCase property) = true ->
  visitAll (routeVisitor file) d
    (before
     ++ CallExpression loc (MemberExpression object (Identifier property)) []
     :: after)
  = Throws (stateOf (visitAll (routeVisitor file) d before)).
Proof.
  intros Hverb. rewrite visitAll_app.
  destruct (visitAll (routeVisitor file) d before) as [d'|d']; [|done].
  cbn [visitAll routeVisitor]. unfold detectRoute. by rewrite Hverb.
Qed.

Lemma bare_verb_call_ends_walk_witness :
  map path
    (routes
       (stateOf
          (visitAll (routeVisitor "routes.js") cleared
             (traverse MoreSamples.interruptedRouteFile))))
  = ["/a"].
Proof.
  change (traverse MoreSamples.interruptedRouteFile)
    with (firstn 7 (traverse MoreSamples.interruptedRouteFile)
          ++ CallExpression (Some (mkLoc 2 2))
               (MemberExpression (Identifier "cache") (Identifier "get")) []
          :: skipn 8 (traverse MoreSamples.interruptedRouteFile))%list.
  rewrite (bare_verb_call_ends_walk "routes.js" cleared _ _ _ "get" _ eq_refl).
  reflexivity.
Defined.

(** *** Where the routes of a file come from *)

Lemma scanHandlerArgs_tables rs rs' ps cs fs args acc :
  scanHandlerArgs (mkDetector rs ps cs fs) args acc
  = scanHandlerArgs (mkDetector rs' ps cs fs) args acc.
Proof.
  revert acc. induction args as [|n args IH]; intros acc; [done|].
  destruct args as [|m args].
  - by destruct n as [| |[] []| | | | | | | | |].
  - rewrite !scanHandlerArgs_cons. apply IH.
Qed.

Lemma routeOfNode_tables d d' file n :
  routerPrefixes d = routerPrefixes d' ->
  controllerImports d = controllerImports d' ->
  functionImports d = functionImports d' ->
  routeOfNode d file n = routeOfNode d' file n.
Proof.
  destruct d as [rs ps cs fs], d' as [rs' ps' cs' fs']. simpl.
  intros <- <- <-.
  destruct n as [| | |loc callee arguments| | | | | | | |]; try done.
  destruct callee as [| |object property| | | | | | | | |]; try done.
  destruct property as [property| | | | | | | | | | |]; try done.
  destruct arguments as [|first rest]; [done|].
  destruct first as [|routePath| | | | | | | | | |]; try done.
  cbn [routeOfNode].
  destruct (arrayIncludes httpMethods (toLowerCase property)); [|done].
  unfold routeOfCall. rewrite (scanHandlerArgs_tables rs rs').
  by destruct object.
Qed.

Lemma omap_pointwise {A B : Type} (f g : A -> option B) (xs : list A) :
  (forall x, f x = g x) -> omap f xs = omap g xs.
Proof.
  intros Hfg. induction xs as [|x xs IH]; [done|].
  change (match f x with Some y => y :: omap f xs | None => omap f xs end
          = match g x with Some y => y :: omap g xs | None => omap g xs end).
  by rewrite Hfg, IH.
Qed.

(** One step of the third walk. *)
Lemma routeVisitor_step file d n :
  match routeVisitor file d n with
  | Throws d' => d' = d /\ isBareVerbCall n = true
  | Returns d' =>
      isBareVerbCall n = false
      /\ d' = match routeOfNode d file n with
              | Some r => withRoute d r
              | None => d
              end
  end.
Proof.
  destruct n as [| | |loc callee arguments| | | | | | | |]; try done.
  destruct callee as [| |object property| | | | | | | | |];
    try (by destruct arguments as [|[]]).
  destruct property as [property| | | | | | | | | | |];
    try (by destruct arguments as [|[]]).
  cbn [routeVisitor routeOfNode isBareVerbCall]. unfold detectRoute.
  destruct (arrayIncludes httpMethods (toLowerCase property)) eqn:E.
  - destruct arguments as [|first rest]; [done|].
    by destruct first.
  - destruct arguments as [|first rest]; [done|]. by destruct first.
Qed.

Lemma route_walk file nodes d :
  let d' := stateOf (visitAll (routeVisitor file) d nodes) in
  routes d'
  = (routes d ++ omap (routeOfNode d file) (beforeBareVerbCall nodes))%list
  /\ routerPrefixes d' = routerPrefixes d
  /\ controllerImports d' = controllerImports d
  /\ functionImports d' = functionImports d.
Proof.
  revert d. induction nodes as [|n nodes IH]; intros d.
  - simpl. by rewrite app_nil_r.
  - pose proof (routeVisitor_step file d n) as Hstep.
    change (visitAll (routeVisitor file) d (n :: nodes))
      with (match routeVisitor file d n with
            | Returns d1 => visitAll (routeVisitor file) d1 nodes
            | Throws d1 => Throws d1
            end).
    change (beforeBareVerbCall (n :: nodes))
      with (if isBareVerbCall n then [] else n :: beforeBareVerbCall nodes).
    destruct (routeVisitor file d n) as [d1|d1].
    + destruct Hstep as [-> Hd1].
      destruct (IH d1) as (IHr & IHp & IHc & IHf).
      assert (routerPrefixes d1 = routerPrefixes d
              /\ controllerImports d1 = controllerImports d
              /\ functionImports d1 = functionImports d) as (Hp & Hc & Hf)
        by (destruct (routeOfNode d file n); by subst d1).
      cbv zeta. rewrite IHr, IHp, IHc, IHf. split; [|done].
      rewrite (omap_pointwise (routeOfNode d1 file) (routeOfNode d file))
        by (intros; by apply routeOfNode_tables).
      change (omap (routeOfNode d file) (n :: beforeBareVerbCall nodes))
        with (match routeOfNode d file n with
              | Some r => r :: omap (routeOfNode d file) (beforeBareVerbCall nodes)
              | None => omap (routeOfNode d file) (beforeBareVerbCall nodes)
              end).
      destruct (routeOfNode d file n) as [r|]; subst d1; [|done].
      simpl. by rewrite <- app_assoc.
    + destruct Hstep as [-> ->]. simpl. by rewrite app_nil_r.
Qed.

Lemma visitAll_returns visit :
  (forall d n, exists d', visit d n = Returns d') ->
  forall nodes d, exists d', visitAll visit d nodes = Returns d'.
Proof.
  intros Hvisit nodes. induction nodes as [|n nodes IH]; intros d; [by eexists|].
  simpl. destruct (Hvisit d n) as [d' ->]. apply IH.
Qed.

Lemma importVisitor_returns host file d n :
  exists d', importVisitor host file d n = Returns d'.
Proof. destruct n; by eexists. Qed.

Lemma prefixVisitor_returns d n : exists d', prefixVisitor d n = Returns d'.
Proof. destruct n; by eexists. Qed.

(** The routes a file adds are, in the order of the walk, the routes of the
    calls [object.verb("path", ...)] met before the first call
    [object.verb()] without arguments; each is read with the prefix and
    import tables as they stand once the whole file has been walked for
    imports and prefixes.  The routes found earlier stay in front. *)
Theorem routes_of_a_file host d file ast :
  readAndParse host file = Some ast ->
  let d' := parseFileForRoutes host d file in
  routes d'
  = (routes d
     ++ omap (routeOfNode d' file) (beforeBareVerbCall (traverse ast)))%list.
Proof.
  intros Hast. unfold parseFileForRoutes, parseFileBody. rewrite Hast.
  set (d0 := mkDetector _ _ _ _).
  destruct (visitAll_returns (importVisitor host file)
              (importVisitor_returns host file) (traverse ast) d0)
    as [d1 H1].
  pose proof (visitAll_invariant (fun d1 => routes d1 = routes d)
                (importVisitor host file)) as R1.
  specialize (R1 (fun d n Hd => eq_trans (importVisitor_routes host file d n) Hd)
                (traverse ast) d0 eq_refl).
  rewrite H1 in *. simpl in R1.
  destruct (visitAll_returns prefixVisitor prefixVisitor_returns
              (traverse ast) d1)
    as [d2 H2].
  pose proof (visitAll_invariant (fun d2 => routes d2 = routes d)
                prefixVisitor) as R2.
  specialize (R2 (fun d n Hd => eq_trans (prefixVisitor_routes d n) Hd)
                (traverse ast) d1 R1).
  rewrite H2 in *. simpl in R2.
  destruct (route_walk file (traverse ast) d2) as (Hr & Hp & Hc & Hf).
  cbv zeta. rewrite Hr, R2. f_equal.
  apply omap_pointwise. intros n.
  symmetry. by apply routeOfNode_tables.
Qed.

Lemma routes_of_a_file_witness :
  routes (parseFileForRoutes Samples.bareHost cleared "routes.js")
  = (routes cleared
     ++ omap
          (routeOfNode (parseFileForRoutes Samples.bareHost cleared "routes.js")
             "routes.js")
          (beforeBareVerbCall (traverse Samples.bareRouteFile)))%list.
Proof.
  exact (routes_of_a_file Samples.bareHost cleared "routes.js"
           Samples.bareRouteFile eq_refl).
Defined.

(** *** Arrays handed to callers *)

Lemma scan_frame host this files h :
  next (foldl (parseFileForRoutesInPlace host this) h files) = next h
  /\ (forall b, b <> routesRef this ->
         arrayAt (foldl (parseFileForRoutesInPlace host this) h files) b
         = arrayAt h b).
Proof.
  revert h. induction files as [|file files IH]; intros h; [done|].
  destruct (parse_frame host h this file) as (N & A & _).
  destruct (IH (parseFileForRoutesInPlace host this h file)) as [IHn IHa].
  simpl. split; [by rewrite IHn | intros b Hb; by rewrite IHa, A].
Qed.

Lemma detectRoutes_frame host h this :
  fst (fst (detectRoutes host h this)) = next h
  /\ next (snd (fst (detectRoutes host h this))) = S (next h)
  /\ (forall b, b <> next h ->
         arrayAt (snd (fst (detectRoutes host h this))) b = arrayAt h b).
Proof.
  unfold detectRoutes.
  pose proof (reset_frame h this) as (N & T & A & _).
  destruct (reset h this) as [h0 this0]. simpl in N, T, A. subst this0.
  destruct (scan_frame host
              (mkFields (next h) (routerPrefixesRef this)
                 (controllerImportsRef this) (functionImportsRef this))
              (findRouteFiles host) h0) as [Ns As].
  simpl in As. simpl. split; [done|]. split; [by rewrite Ns|].
  intros b Hb. by rewrite As, A.
Qed.

Lemma detectRoutesInFile_arrays host h this file :
  next h <= fst (fst (detectRoutesInFile host h this file))
  /\ (forall b, b < next h ->
         arrayAt (snd (fst (detectRoutesInFile host h this file))) b
         = arrayAt h b).
Proof.
  unfold detectRoutesInFile.
  pose proof (newArray_frame (arrayAt h (routesRef this)) h)
    as (N1 & R1 & _ & A1 & _).
  destruct (newArray (arrayAt h (routesRef this)) h) as [a1 h1].
  simpl in N1, R1, A1. subst a1.
  pose proof (newMap_frame (mapAt h1 (routerPrefixesRef this)) h1)
    as (N2 & _ & _ & _ & A2).
  destruct (newMap (mapAt h1 (routerPrefixesRef this)) h1) as [a2 h2].
  simpl in N2, A2.
  pose proof (newMap_frame (mapAt h2 (controllerImportsRef this)) h2)
    as (N3 & _ & _ & _ & A3).
  destruct (newMap (mapAt h2 (controllerImportsRef this)) h2) as [a3 h3].
  simpl in N3, A3.
  pose proof (newMap_frame (mapAt h3 (functionImportsRef this)) h3)
    as (N4 & _ & _ & _ & A4).
  destruct (newMap (mapAt h3 (functionImportsRef this)) h3) as [a4 h4].
  simpl in N4, A4.
  pose proof (reset_frame h4 this) as (N5 & Hthis & A5 & _).
  destruct (reset h4 this) as [h5 this5]. simpl in N5, Hthis, A5.
  pose proof (parse_frame host h5 this5 file) as (N6 & A6 & _).
  set (h6 := parseFileForRoutesInPlace host this5 h5 file) in *.
  pose proof (newArray_frame (arrayAt h6 (routesRef this5)) h6)
    as (N7 & R7 & _ & A7 & _).
  destruct (newArray (arrayAt h6 (routesRef this5)) h6) as [result h7].
  simpl in N7, R7, A7. subst result this5. simpl in A6.
  cbn [fst snd]. split; [lia|]. intros b Hb.
  rewrite A7 by lia. rewrite A6 by lia. rewrite A5 by lia.
  rewrite A4, A3, A2. apply A1. lia.
Qed.

(** The array [detectRoutes] hands out is not touched again: a second scan
    fills and returns another array (holding the same routes, the workspace
    being the same), and a single-file detection returns yet another one. *)
Theorem returned_array_is_kept host h this :
  wellFormed h this ->
  let '(first, h1, this1) := detectRoutes host h this in
  (let '(second, h2, _) := detectRoutes host h1 this1 in
   second <> first
   /\ arrayAt h2 first = arrayAt h1 first
   /\ arrayAt h2 second = arrayAt h1 first)
  /\ (forall file,
         let '(single, h3, _) := detectRoutesInFile host h1 this1 file in
         single <> first /\ arrayAt h3 first = arrayAt h1 first).
Proof.
  intros Hwf.
  pose proof (detectRoutes_contents host h this Hwf) as Hc1.
  pose proof (detectRoutes_frame host h this) as (R1 & N1 & _).
  destruct (detectRoutes host h this) as [[first h1] this1].
  destruct Hc1 as (_ & Ha1 & Hwf1). simpl in R1, N1. split.
  - pose proof (detectRoutes_contents host h1 this1 Hwf1) as Hc2.
    pose proof (detectRoutes_frame host h1 this1) as (R2 & _ & A2).
    destruct (detectRoutes host h1 this1) as [[second h2] this2].
    destruct Hc2 as (_ & Ha2 & _). simpl in R2, A2.
    split; [lia|]. split; [apply A2; lia | by rewrite Ha2, Ha1].
  - intros file.
    pose proof (detectRoutesInFile_arrays host h1 this1 file) as [R3 A3].
    destruct (detectRoutesInFile host h1 this1 file) as [[single h3] this3].
    simpl in R3, A3. split; [lia | apply A3; lia].
Qed.

Lemma returned_array_is_kept_witness :
  let '(first, h1, this1) :=
    detectRoutes Samples.bareHost (fst constructed) (snd constructed) in
  let '(second, h2, _) := detectRoutes Samples.bareHost h1 this1 in
  second <> first /\ arrayAt h2 first = arrayAt h1 first.
Proof.
  assert (wellFormed (fst constructed) (snd constructed)) as Hwf
    by (unfold wellFormed; simpl; lia).
  pose proof (returned_array_is_kept Samples.bareHost (fst constructed)
                (snd constructed) Hwf) as H.
  destruct (detectRoutes Samples.bareHost (fst constructed) (snd constructed))
    as [[first h1] this1].
  destruct H as [H _].
  destruct (detectRoutes Samples.bareHost h1 this1) as [[second h2] this2].
  destruct H as (H1 & H2 & _). by split.
Defined.

End RouteDetectionMore.

(** ** Further properties of the controller lookup *)

Module ControllerLookupFacts.
Import Js Ast RouteDetection PayloadPredictor ControllerLookup JsFacts JsMoreFacts.

Lemma definitionOf_name target n found :
  definitionOf target n = Some found -> f_functionName found = target.
Proof.
  unfold definitionOf. intros H.
  repeat (match type of H with
          | context [match ?x with _ => _ end] =>
              destruct x eqn:?; try discriminate
          end);
    injection H as <-; simpl;
    repeat (match goal with
            | E : _ && _ = true |- _ => apply andb_prop in E as [? ?]
            end);
    by apply String.eqb_eq.
Qed.

Lemma walk_keeps_name target nodes acc :
  f_functionName acc = target ->
  f_functionName (foldl (visitDefinition target) acc nodes) = target.
Proof.
  revert acc. induction nodes as [|n nodes IH]; intros acc Hacc; [done|].
  simpl. apply IH. unfold visitDefinition.
  destruct (definitionOf target n) as [found|] eqn:E; [|done].
  by apply definitionOf_name in E.
Qed.

Lemma context_route_and_name ast target content route ctx :
  findControllerFunctionInAST ast target content route = Some ctx ->
  PayloadPredictor.route ctx = route /\ functionName ctx = target.
Proof.
  unfold findControllerFunctionInAST.
  pose proof (walk_keeps_name target (traverse ast)
                (mkFound None target 0 0) eq_refl) as Hname.
  destruct (f_controllerFunction _); [|done].
  by intros [= <-].
Qed.

(** A context returned for a file carries the route it was asked for and
    the name it was asked to find; its body fields are, without repetition,
    the fields [f] of every [req.body.f] in the file, inside the handler or
    not. *)
Theorem context_of_a_file ast target content route ctx :
  findControllerFunctionInAST ast target content route = Some ctx ->
  PayloadPredictor.route ctx = route
  /\ functionName ctx = target
  /\ NoDup (reqBodyFields ctx)
  /\ (forall field,
        In field (reqBodyFields ctx)
        <-> exists n, In n (traverse ast) /\ reqBodyField n = Some field).
Proof.
  unfold findControllerFunctionInAST.
  pose proof (walk_keeps_name target (traverse ast)
                (mkFound None target 0 0) eq_refl) as Hname.
  destruct (f_controllerFunction _); [|done].
  intros [= <-]. simpl. split; [done|]. split; [done|]. split.
  - apply setAddAll_NoDup. constructor.
  - intros field. unfold dedup. rewrite setAddAll_In. split.
    + intros [[]|H]. apply list_elem_of_In, list_elem_of_omap in H
        as (node & Hnode & Hfield).
      exists node. split; [by apply list_elem_of_In | done].
    + intros (node & Hnode & Hfield). right.
      apply list_elem_of_In, list_elem_of_omap. exists node.
      split; [by apply list_elem_of_In | done].
Qed.

Lemma context_of_a_file_witness :
  exists ctx,
    findControllerFunctionInAST MoreSamples.saveHandler "save"
      MoreSamples.fourLines Samples.createUserRoute = Some ctx
    /\ functionName ctx = "save"
    /\ reqBodyFields ctx = ["name"; "email"].
Proof.
  eexists. split; [reflexivity|].
  split; [|reflexivity].
  eapply (context_of_a_file MoreSamples.saveHandler "save" MoreSamples.fourLines
            Samples.createUserRoute). reflexivity.
Defined.

Lemma slice_of_lines {A} (xs : list A) (first last : nat) :
  1 <= first -> first <= last -> last <= length xs ->
  slice xs (Z.of_nat first - 1) (Z.of_nat last)
  = take (last - first + 1) (drop (first - 1) xs).
Proof.
  intros H1 H2 H3. unfold slice, clampIndex.
  destruct (Z.ltb_spec (Z.of_nat first - 1) 0); [lia|].
  destruct (Z.ltb_spec (Z.of_nat last) 0); [lia|].
  rewrite !Z.min_l by lia.
  replace (Z.to_nat (Z.of_nat last - (Z.of_nat first - 1)))
    with (last - first + 1) by lia.
  by replace (Z.to_nat (Z.of_nat first - 1)) with (first - 1) by lia.
Qed.

Lemma slice_without_location {A} (xs : list A) :
  slice xs (Z.of_nat 0 - 1) (Z.of_nat 0) = [].
Proof.
  unfold slice, clampIndex.
  destruct (Z.ltb_spec (Z.of_nat 0 - 1) 0); [|lia].
  destruct (Z.ltb_spec (Z.of_nat 0) 0); [lia|].
  by replace (Z.to_nat (Z.min _ _ - Z.max _ _)) with 0 by lia.
Qed.

(** The code of a context is made of the lines of the file from
    [startLine] to [endLine], both included and counted from 1; it is the
    whole text when the definition spans the whole file, and it is empty
    when the definition carries no location. *)
Theorem controller_code_is_the_lines ast target content route ctx :
  findControllerFunctionInAST ast target content route = Some ctx ->
  let lines := split "010"%char content in
  (1 <= startLine ctx -> startLine ctx <= endLine ctx ->
   endLine ctx <= length lines ->
   controllerCode ctx
   = join (String "010"%char "")
       (take (endLine ctx - startLine ctx + 1)
          (drop (startLine ctx - 1) lines)))
  /\ (startLine ctx = 1 -> endLine ctx = length lines ->
      controllerCode ctx = content)
  /\ (startLine ctx = 0 -> endLine ctx = 0 -> controllerCode ctx = "").
Proof.
  unfold findControllerFunctionInAST.
  destruct (f_controllerFunction _); [|done].
  intros [= <-]. cbn [startLine endLine controllerCode].
  set (found := foldl _ _ _). set (lines := split _ content).
  split; [|split].
  - intros H1 H2 H3. by rewrite slice_of_lines.
  - intros H1 H2.
    assert (1 <= length lines) as Hlen.
    { pose proof (splitOn_nonempty (Ascii.eqb "010"%char) content) as Hne.
      subst lines. unfold split. destruct (splitOn _ content); [done|].
      simpl. lia. }
    rewrite slice_of_lines by lia. rewrite H1, H2.
    change (drop (1 - 1) lines) with lines.
    rewrite take_ge by lia. apply join_split.
  - intros -> ->. by rewrite slice_without_location.
Qed.

Lemma controller_code_is_the_lines_witness :
  exists ctx,
    findControllerFunctionInAST MoreSamples.saveHandler "save"
      MoreSamples.fourLines Samples.createUserRoute = Some ctx
    /\ controllerCode ctx
       = "function save(req, res) {" +:+ String "010"%char "}".
Proof.
  eexists. split; [reflexivity|].
  refine (eq_trans
            (proj1 (controller_code_is_the_lines MoreSamples.saveHandler "save"
                      MoreSamples.fourLines Samples.createUserRoute _ eq_refl)
               _ _ _) _).
  - simpl. lia.
  - simpl. lia.
  - vm_compute. lia.
  - reflexivity.
Defined.

(** The handler of a route is searched in the route's own file under the
    handler's name first, and only when that gives nothing in the imported
    controller file under the imported name; no context is returned when
    both fail.  A context returned is for the route asked about and for one
    of these two names. *)
Theorem lookup_order files route :
  extractControllerContext files route
  = match tryExtractFromSameFile files route with
    | Some ctx => Some ctx
    | None => tryExtractFromSeparateFile files route
    end
  /\ (forall ctx,
        extractControllerContext files route = Some ctx ->
        PayloadPredictor.route ctx = route
        /\ (functionName ctx = handler route
            \/ (tryExtractFromSameFile files route = None
                /\ controllerFunction route = Some (functionName ctx)))).
Proof.
  assert (extractControllerContext files route
          = match tryExtractFromSameFile files route with
            | Some ctx => Some ctx
            | None => tryExtractFromSeparateFile files route
            end) as Horder.
  { unfold extractControllerContext.
    destruct (tryExtractFromSameFile files route); [done|].
    unfold tryExtractFromSeparateFile.
    destruct (truthyString (controllerFilePath route)); [|done].
    destruct (truthyString (controllerFunction route)); [|done].
    by destruct (readFileSync files _) as [text|];
      [destruct (parse files text) as [ast|];
       [destruct (findControllerFunctionInAST ast _ text route)|]|]. }
  split; [done|]. rewrite Horder. intros ctx.
  destruct (tryExtractFromSameFile files route) as [same|] eqn:Esame.
  - intros [= ->]. unfold tryExtractFromSameFile in Esame.
    destruct (readFileSync files _) as [text|]; [|done].
    destruct (parse files text) as [ast|]; [|done].
    apply context_route_and_name in Esame as [? ?]. by split; [|left].
  - unfold tryExtractFromSeparateFile.
    destruct (truthyString (controllerFilePath route)); [|done].
    destruct (truthyString (controllerFunction route)) as [fn|] eqn:Efn;
      [|done].
    destruct (readFileSync files _) as [text|]; [|done].
    destruct (parse files text) as [ast|]; [|done].
    intros H. apply context_route_and_name in H as [? ->].
    split; [done|]. right. split; [done|].
    unfold truthyString in Efn.
    destruct (controllerFunction route) as [[|]|]; congruence.
Qed.

(** *** Middlewares that ask for authentication *)

Lemma existsb_markers (test : string -> bool) :
  (forall mid, In mid (map toLowerCase authMiddlewares) ->
               test mid = true -> exists marker, In marker authMarkers /\ test marker = true) ->
  (forall marker, In marker authMarkers -> In marker (map toLowerCase authMiddlewares)) ->
  existsb test (map toLowerCase authMiddlewares) = existsb test authMarkers.
Proof.
  intros Hdown Hup. apply eq_true_iff_eq. rewrite !existsb_exists. split.
  - intros (mid & Hmid & Htest). destruct (Hdown mid Hmid Htest) as (m & ? & ?).
    by exists m.
  - intros (marker & Hmarker & Htest). exists marker. split; [by apply Hup | done].
Qed.

(** A route asks for authentication exactly when the lower-cased name of
    one of its middlewares contains one of five substrings: "auth",
    "verifytoken", "protect", "verifyjwt" or "requirelogin".  The other five
    names of the list all contain "auth". *)
Theorem authentication_markers route :
  isAuthenticationRequired route
  = existsb
      (fun middleware =>
         existsb (includes (toLowerCase middleware)) authMarkers)
      (middlewares route).
Proof.
  unfold isAuthenticationRequired.
  induction (middlewares route) as [|middleware rest IH]; [done|].
  cbn [existsb]. rewrite IH. f_equal.
  rewrite <- (existsb_markers (includes (toLowerCase middleware))).
  - generalize authMiddlewares. intros names.
    induction names as [|name names IHn]; [done|].
    cbn [existsb map]. by rewrite IHn.
  - intros mid Hmid Htest.
    assert (includes mid "auth" = true \/ In mid authMarkers) as [Hauth|Hin].
    { cbn in Hmid. unfold authMarkers.
      repeat (destruct Hmid as [<-|Hmid];
              [first [ by left; vm_compute | by right; cbn; tauto ]|]).
      done. }
    + exists "auth". split; [by left|].
      by apply (includes_trans _ mid).
    + by exists mid.
  - intros marker Hmarker. cbn in Hmarker |- *. tauto.
Qed.

(** The handler of an imported controller is found in the controller
    file, at its last definition; the middleware [requireAuthor] marks the
    route as authenticated. *)
Example imported_handler_is_found :
  option_map (fun ctx => (functionName ctx, startLine ctx))
    (extractControllerContext MoreSamples.routedProject
       MoreSamples.importedCreateUser)
  = Some ("createUser", 20)
  /\ isAuthenticationRequired MoreSamples.importedCreateUser = true.
Proof. split; reflexivity. Qed.

End ControllerLookupFacts.

(** ** Further properties of the connector *)

Module MongoConnectorMore.
Import Js MongoConnector MongoReferences JsFacts JsMoreFacts.

(** When the collection holds at most [limit] documents, or fewer than
    100, the documents returned are a run of consecutive documents of the
    collection, in stored order (the whole collection in the first case);
    without a connection there are none. *)
Theorem samples_come_from_the_collection c ch collectionName limit :
  (length (default [] (getCollection c collectionName)) <= limit
   \/ length (default [] (getCollection c collectionName)) < 100 ->
   exists before after,
     default [] (getCollection c collectionName)
     = (before ++ getSampleDocuments c ch collectionName limit ++ after)%list)
  /\ (isAvailable c = false ->
      getSampleDocuments c ch collectionName limit = []).
Proof.
  unfold getSampleDocuments. split; [|by intros ->].
  destruct (isAvailable c) eqn:Hup; cbn [negb].
  2: { intros _. eexists [], _. reflexivity. }
  destruct (getCollection c collectionName) as [docs|]; cbn [from_option id].
  2: { intros _. by exists [], []. }
  intros Hsmall. destruct (length docs <=? limit)%nat eqn:Hall.
  { exists [], []. by rewrite app_nil_r. }
  apply Nat.leb_gt in Hall.
  assert ((length docs <? 100)%nat = true) as -> by (apply Nat.ltb_lt; lia).
  unfold findSkipLimit.
  set (skip := randomBelow ch (length docs - limit)).
  exists (take skip docs). destruct (limit =? 0)%nat.
  - exists []. by rewrite app_nil_r, take_drop.
  - exists (drop limit (drop skip docs)). by rewrite !take_drop.
Qed.

(** Two of five users, starting where the draw says. *)
Lemma samples_come_from_the_collection_witness :
  exists before after,
    Samples.fiveUsers
    = (before
       ++ getSampleDocuments Samples.liveConnector Samples.zeroDraw "users" 2
       ++ after)%list.
Proof.
  apply (proj1 (samples_come_from_the_collection Samples.liveConnector
                  Samples.zeroDraw "users" 2)).
  right. vm_compute. lia.
Defined.

(** *** Identifiers that are referred to *)

Lemma collectValid_grows isUsed limit relatedDocs validIds result :
  collectValid isUsed limit relatedDocs validIds = Some result ->
  exists added,
    result = (validIds ++ added)%list
    /\ sublist added relatedDocs
    /\ (length validIds <= limit -> length result <= limit).
Proof.
  revert validIds. induction relatedDocs as [|id rest IH]; intros validIds.
  - intros [= <-]. exists []. by rewrite app_nil_r.
  - simpl. destruct (limit <=? length validIds)%nat eqn:E.
    + intros [= <-]. exists []. rewrite app_nil_r.
      split; [done|]. split; [apply sublist_nil_l | done].
    + apply Nat.leb_gt in E.
      destruct (isUsed id) as [[|]|]; [| |done]; intros H;
        apply IH in H as (added & -> & Hsub & Hlen).
      * exists (id :: added). rewrite <- app_assoc in Hlen |- *.
        split; [done|].
        split; [by apply sublist_skip|]. intros _. apply Hlen.
        rewrite length_app. simpl. lia.
      * exists added. split; [done|]. split; [by apply sublist_cons|].
        intros _. apply Hlen. lia.
Qed.

(** [findValidObjectIds] returns at most [limit] identifiers, all of them
    taken from the related collection, and none of them twice when the
    related collection has none twice. *)
Theorem valid_ids_bounded c server collectionName foreignKey relatedCollection
    limit :
  let result :=
    findValidObjectIds c server collectionName foreignKey relatedCollection
      limit in
  length result <= limit
  /\ (forall id, In id result ->
        exists relatedDocs,
          relatedIds server (limit * 2) = Some relatedDocs /\ In id relatedDocs)
  /\ (forall relatedDocs,
        relatedIds server (limit * 2) = Some relatedDocs ->
        NoDup relatedDocs -> NoDup result).
Proof.
  unfold findValidObjectIds.
  destruct (negb (isAvailable c));
    [by repeat split; [simpl; lia | | intros; constructor]|].
  destruct (getCollection c collectionName);
    [|by repeat split; [simpl; lia | | intros; constructor]].
  destruct (getCollection c relatedCollection);
    [|by repeat split; [simpl; lia | | intros; constructor]].
  destruct (relatedIds server (limit * 2)) as [relatedDocs|];
    [|by repeat split; [simpl; lia | | intros; constructor]].
  destruct (collectValid _ limit relatedDocs []) as [validIds|] eqn:E;
    [|by repeat split; [simpl; lia | | intros; constructor]].
  apply collectValid_grows in E as (added & -> & Hsub & Hlen).
  simpl in Hlen |- *. specialize (Hlen (Nat.le_0_l _)).
  rewrite slice_from_start.
  set (additional := List.filter _ _).
  assert (sublist additional relatedDocs) as Hadditional.
  { subst additional. etrans; [|apply (sublist_take _ (limit - length added))].
    clear. induction (take _ _) as [|x xs IH]; [done|].
    simpl. destruct (negb _); [by apply sublist_skip | by apply sublist_cons]. }
  assert (length additional <= limit - length added) as Hshort.
  { subst additional. etrans; [apply filter_length_le|].
    rewrite length_take. lia. }
  destruct (length added <? limit)%nat eqn:Elt.
  - apply Nat.ltb_lt in Elt. split; [rewrite length_app; lia|]. split.
    + intros id Hid. exists relatedDocs. split; [done|].
      apply in_app_or in Hid as [Hid|Hid]; apply list_elem_of_In;
        apply list_elem_of_In in Hid.
      * by apply (elem_of_sublist added).
      * by apply (elem_of_sublist additional).
    + intros ? [= <-] Hnodup. apply NoDup_app.
      split; [by apply (sublist_NoDup _ relatedDocs)|].
      split; [|by apply (sublist_NoDup _ relatedDocs)].
      intros id Hvalid Hid. subst additional.
      apply list_elem_of_In, filter_In in Hid as [_ Hid].
      apply negb_true_iff, not_true_iff_false in Hid. apply Hid.
      apply existsb_exists. exists id.
      split; [by apply list_elem_of_In | apply String.eqb_refl].
  - split; [done|]. split.
    + intros id Hid. exists relatedDocs. split; [done|].
      apply list_elem_of_In. apply list_elem_of_In in Hid.
      by apply (elem_of_sublist added).
    + intros ? [= <-] Hnodup. by apply (sublist_NoDup _ relatedDocs).
Qed.

(** With a limit of three, the two authors that are referred to come
    first and the first author of the collection fills the list. *)
Example valid_ids_of_four_authors :
  findValidObjectIds Samples.liveConnector MoreSamples.fourAuthors "orders"
    "authorId" "users" 3 = ["a2"; "a4"; "a1"].
Proof. reflexivity. Qed.

End MongoConnectorMore.

(** ** Further properties of the collection inference *)

Module CollectionInferencerMore.
Import Js RouteDetection CollectionInferencer InferenceScores JsFacts JsMoreFacts.

(** *** The segments of a path *)

Lemma toLowerCase_nonempty (s : string) : s <> "" -> toLowerCase s <> "".
Proof. by destruct s. Qed.

Lemma startsWith_lower_colon (s : string) :
  startsWith (toLowerCase s) ":" = startsWith s ":".
Proof.
  destruct s as [|c s]; [done|]. unfold startsWith, toLowerCase.
  cbn [mapChars String.prefix]. pose proof (lowerChar_colon c).
  destruct (ascii_dec _ (lowerChar c)), (ascii_dec _ c);
    [by destruct s | tauto | tauto | done].
Qed.

Lemma startsWith_lower_asterisk (s : string) :
  startsWith (toLowerCase s) "*" = startsWith s "*".
Proof.
  destruct s as [|c s]; [done|]. unfold startsWith, toLowerCase.
  cbn [mapChars String.prefix]. pose proof (lowerChar_asterisk c).
  destruct (ascii_dec _ (lowerChar c)), (ascii_dec _ c);
    [by destruct s | tauto | tauto | done].
Qed.

(** Every segment kept from a path is a non-empty lower-case word that is
    neither a parameter ([:id]), nor a wildcard, nor one of the ignored
    prefixes. *)
Theorem kept_segments path :
  Forall
    (fun segment =>
       segment <> ""
       /\ startsWith segment ":" = false
       /\ startsWith segment "*" = false
       /\ arrayIncludes IGNORED_SEGMENTS segment = false
       /\ toLowerCase segment = segment)
    (parseRoutePath path).
Proof.
  unfold parseRoutePath. apply List.Forall_forall. intros segment Hin.
  apply in_map_iff in Hin as (raw & <- & Hraw).
  apply filter_In in Hraw as [_ Hkept].
  apply andb_prop in Hkept as [Hkept Hignored].
  apply andb_prop in Hkept as [Hkept Hstar].
  apply andb_prop in Hkept as [Hempty Hcolon].
  apply negb_true_iff in Hempty, Hcolon, Hstar, Hignored.
  split; [|split; [|split; [|split]]].
  - apply toLowerCase_nonempty. intros ->. discriminate.
  - by rewrite startsWith_lower_colon.
  - by rewrite startsWith_lower_asterisk.
  - done.
  - apply toLowerCase_idempotent.
Qed.

(** *** Singular and plural *)

Lemma ends_in (word suf : string) :
  endsWith word suf = true -> exists pre, word = pre +:+ suf.
Proof. apply endsWith_spec. Qed.

(** Making a word plural and singular again gives the word back, unless
    the word ends in "ie" or "ve"; a word in "ie" comes back with "y" in
    place of these two letters.  Making a word in "ies" or "ves" singular and
    plural again gives it back. *)
Theorem plural_singular_round_trips word :
  (endsWith word "ie" = false -> endsWith word "ve" = false ->
   pluralizeToSingular (pluralizeToPlural word) = word)
  /\ (endsWith word "ie" = true ->
      pluralizeToSingular (pluralizeToPlural word) = dropLastN 2 word +:+ "y")
  /\ (endsWith word "ies" = true \/ endsWith word "ves" = true ->
      pluralizeToPlural (pluralizeToSingular word) = word).
Proof.
  assert (forall pre, pluralizeToSingular (pre +:+ "ies") = pre +:+ "y") as Hies.
  { intros pre. unfold pluralizeToSingular.
    by rewrite endsWith_append, dropLastN_three. }
  assert (forall pre, pluralizeToSingular (pre +:+ "ves") = pre +:+ "f") as Hves.
  { intros pre. unfold pluralizeToSingular.
    rewrite (endsWith_same_length pre "ves" "ies") by done.
    by rewrite endsWith_append, dropLastN_three. }
  assert (forall pre, pluralizeToPlural (pre +:+ "y") = pre +:+ "ies") as Hy.
  { intros pre. unfold pluralizeToPlural.
    by rewrite endsWith_append, dropLast_append_char. }
  assert (forall pre, pluralizeToPlural (pre +:+ "f") = pre +:+ "ves") as Hf.
  { intros pre. unfold pluralizeToPlural.
    rewrite (endsWith_same_length pre "f" "y") by done.
    by rewrite endsWith_append, dropLast_append_char. }
  split; [|split].
  - intros Hie Hve.
    destruct (endsWith word "y") eqn:Ey.
    { apply ends_in in Ey as [pre ->]. by rewrite Hy, Hies. }
    destruct (endsWith word "f") eqn:Ef.
    { apply ends_in in Ef as [pre ->]. by rewrite Hf, Hves. }
    unfold pluralizeToPlural. rewrite Ey, Ef. unfold pluralizeToSingular.
    change "ies" with ("ie" +:+ "s"). change "ves" with ("ve" +:+ "s").
    rewrite (endsWith_snoc word "ie" "s"), Hie.
    rewrite (endsWith_snoc word "ve" "s"), Hve.
    by rewrite endsWith_append, dropLast_append_char.
  - intros Hie. apply ends_in in Hie as [pre ->].
    assert (pluralizeToPlural (pre +:+ "ie") = pre +:+ "ies") as ->.
    { unfold pluralizeToPlural.
      change "ie" with ("i" +:+ "e"). rewrite <- append_assoc.
      rewrite (endsWith_same_length (pre +:+ "i") "e" "y") by done.
      rewrite (endsWith_same_length (pre +:+ "i") "e" "f") by done.
      by rewrite !append_assoc. }
    rewrite Hies. f_equal. cbn [dropLastN].
    rewrite !dropLast_append. cbn [dropLast]. rewrite dropLast_append.
    cbn [dropLast]. by rewrite append_empty_r.
  - intros [H|H].
    + apply ends_in in H as [pre ->]. by rewrite Hies, Hy.
    + apply ends_in in H as [pre ->]. by rewrite Hves, Hf.
Qed.

(** *** Segments that name an inherited property *)

Lemma inherited_not_special key :
  In key inheritedLowerCaseKeys -> assocGet SPECIAL_CASES key = None.
Proof. intros [<-|[<-|[]]]; reflexivity. Qed.

Lemma firstSpecialCase_throws segments :
  (exists message, firstSpecialCase segments = Some (Thrown message))
  <-> exists before key after,
        segments = (before ++ key :: after)%list
        /\ In key inheritedLowerCaseKeys
        /\ Forall (fun segment =>
                     assocGet SPECIAL_CASES segment = None
                     /\ ~ In segment inheritedLowerCaseKeys) before.
Proof.
  induction segments as [|segment rest IH].
  - split; [by intros [? ?]|]. by intros ([|? ?] & ? & ? & ? & _).
  - cbn [firstSpecialCase].
    destruct (assocGet SPECIAL_CASES segment) as [collections|] eqn:Especial.
    + split; [by intros [? ?]|].
      intros ([|first before] & key & after & Heq & Hkey & Hbefore).
      * injection Heq as -> _. apply inherited_not_special in Hkey. congruence.
      * injection Heq as -> _. apply Forall_cons in Hbefore as [[? _] _].
        congruence.
    + destruct (arrayIncludes inheritedLowerCaseKeys segment) eqn:Einherited.
      * apply arrayIncludes_In in Einherited. split; [|by eexists].
        intros _. by exists [], segment, rest.
      * assert (~ In segment inheritedLowerCaseKeys) as Hnot.
        { intros Hin. apply arrayIncludes_In in Hin. congruence. }
        rewrite IH. split.
        -- intros (before & key & after & -> & Hkey & Hbefore).
           exists (segment :: before), key, after.
           split; [done|]. split; [done|]. by constructor.
        -- intros ([|first before] & key & after & Heq & Hkey & Hbefore).
           ++ injection Heq as -> _. done.
           ++ injection Heq as -> ->. apply Forall_cons in Hbefore as [_ ?].
              by exists before, key, after.
Qed.

(** The inference throws exactly when a kept segment of the path is
    "constructor" or "__proto__" and no segment before it is a special
    case: the table lookup then yields a value that has no [slice]. *)
Theorem inference_throws_iff route :
  (exists message, inferCollectionName route = Thrown message)
  <-> exists before key after,
        parseRoutePath (path route) = (before ++ key :: after)%list
        /\ In key inheritedLowerCaseKeys
        /\ Forall (fun segment =>
                     assocGet SPECIAL_CASES segment = None
                     /\ ~ In segment inheritedLowerCaseKeys) before.
Proof.
  rewrite <- firstSpecialCase_throws.
  unfold inferCollectionName, inferFromSpecialCases.
  destruct (firstSpecialCase _) as [[inference|message]|].
  - split; by intros [? ?].
  - split; by eexists.
  - destruct (isAuthRoute route); split; by intros [? ?].
Qed.

(** *** The scores *)

Ltac pick_member := vm_compute; repeat (first [left; reflexivity | right]).

Lemma path_confidences segments route :
  In (confidence (inferFromPathSegments segments route))
    [0.1; 0.5; 0.6; 0.7; 0.7 + 0.1; 0.8; 0.9; 1.0]%float.
Proof.
  destruct segments as [|segment rest]; [by left|].
  unfold inferFromPathSegments, calculateSegmentConfidence. cbn [confidence].
  destruct (arrayIncludes commonResources segment), (isPlural segment),
    (arrayIncludes _ (method route)); pick_member.
Qed.

Lemma special_confidences segments route inference :
  inferFromSpecialCases segments route = Ok inference ->
  In (confidence inference) [0.8; 0.7; 0.0]%float.
Proof.
  unfold inferFromSpecialCases.
  destruct (firstSpecialCase segments) as [outcome|] eqn:E.
  - intros ->. induction segments as [|segment rest IH]; [done|].
    cbn [firstSpecialCase] in E.
    destruct (assocGet SPECIAL_CASES segment).
    + injection E as <-. by left.
    + destruct (arrayIncludes inheritedLowerCaseKeys segment); [done|].
      by apply IH.
  - destruct (isAuthRoute route); intros [= <-]; pick_member.
Qed.

Lemma method_confidences segments route :
  In (confidence (inferFromRouteMethod segments route))
    [0.0; 0.3; 0.5; 0.7]%float.
Proof.
  destruct segments as [|segment rest]; [by left|].
  unfold inferFromRouteMethod. cbn [confidence].
  destruct (_ && arrayIncludes _ (method route)),
    (arrayIncludes ["POST"] (method route) && _); pick_member.
Qed.

Lemma file_confidences filePath :
  In (confidence (inferFromFileName filePath)) [0.0; 0.4]%float.
Proof.
  unfold inferFromFileName.
  destruct (arrayIncludes genericNames _); [by left|].
  destruct (rev _); [by left | by right; left].
Qed.

Lemma better_confidence best current :
  confidence (better best current)
  = if PrimFloat.ltb (confidence best) (confidence current)
    then confidence current else confidence best.
Proof. unfold better. by destruct (PrimFloat.ltb _ _). Qed.

Lemma confidence_possible route inference :
  inferCollectionName route = Ok inference ->
  In (confidence inference) possibleConfidences.
Proof.
  unfold inferCollectionName.
  pose proof (special_confidences (parseRoutePath (path route)) route) as H2.
  destruct (inferFromSpecialCases _ route) as [second|]; [|done].
  specialize (H2 second eq_refl). intros [= <-]. cbn [confidence tl foldl].
  pose proof (path_confidences (parseRoutePath (path route)) route) as H1.
  pose proof (method_confidences (parseRoutePath (path route)) route) as H3.
  pose proof (file_confidences (filePath route)) as H4.
  rewrite !better_confidence.
  revert H1 H2 H3 H4.
  generalize (confidence (inferFromPathSegments (parseRoutePath (path route)) route))
    (confidence second)
    (confidence (inferFromRouteMethod (parseRoutePath (path route)) route))
    (confidence (inferFromFileName (filePath route))).
  intros c1 c2 c3 c4 H1 H2 H3 H4.
  repeat (destruct H1 as [<-|H1]; [|idtac]); try done;
    repeat (destruct H2 as [<-|H2]; [|idtac]); try done;
    repeat (destruct H3 as [<-|H3]; [|idtac]); try done;
    repeat (destruct H4 as [<-|H4]; [|idtac]); try done;
    pick_member.
Qed.

Lemma scores_in_range :
  Forall (fun c => PrimFloat.leb 0.1 c = true /\ PrimFloat.leb c 1.0 = true)
    possibleConfidences.
Proof. repeat constructor. Qed.

Lemma alternatives_gathered bestName inferences seen :
  NoDup seen ->
  NoDup (foldl (collectAlternatives bestName) seen inferences).
Proof.
  revert seen. induction inferences as [|inference rest IH]; intros seen Hseen;
    [done|].
  simpl. apply IH. unfold collectAlternatives.
  apply setAddAll_NoDup. destruct (negb _); [|done].
  by apply setAddAll_NoDup.
Qed.

Lemma alternatives_short route inference :
  inferCollectionName route = Ok inference ->
  length (alternativeNames inference) <= 5
  /\ NoDup (alternativeNames inference).
Proof.
  unfold inferCollectionName.
  destruct (inferFromSpecialCases _ route) as [second|]; [|done].
  intros [= <-]. cbn [alternativeNames].
  rewrite (slice_from_start _ 5). split.
  - rewrite length_take. lia.
  - eapply sublist_NoDup; [|apply sublist_take].
    apply (alternatives_gathered _ [_; _; _; _] []). constructor.
Qed.

(** A successful inference has a confidence between 0.1 and 1, and at most
    five alternative names, no two of them equal. *)
Theorem inference_bounds route inference :
  inferCollectionName route = Ok inference ->
  PrimFloat.leb 0.1 (confidence inference) = true
  /\ PrimFloat.leb (confidence inference) 1.0 = true
  /\ length (alternativeNames inference) <= 5
  /\ NoDup (alternativeNames inference).
Proof.
  intros H. pose proof (confidence_possible route inference H) as Hc.
  pose proof scores_in_range as Hrange.
  rewrite List.Forall_forall in Hrange. destruct (Hrange _ Hc) as [Hlow Hhigh].
  split; [done|]. split; [done|]. by apply (alternatives_short route).
Qed.

Lemma inference_bounds_witness :
  exists inference,
    inferCollectionName Samples.createUserRoute = Ok inference
    /\ PrimFloat.leb 0.1 (confidence inference) = true
    /\ length (alternativeNames inference) <= 5.
Proof.
  eexists. split; [reflexivity|].
  destruct (inference_bounds Samples.createUserRoute _ eq_refl)
    as (Hlow & _ & Hlen & _).
  by split.
Defined.

(** *** The suggestions *)

Lemma sort_in_order {A} (cmp : A -> A -> float) (x : A) (l : list A) :
  sort cmp l = l ->
  (forall y, head l = Some y -> PrimFloat.ltb 0 (cmp x y) = false) ->
  sort cmp (x :: l) = x :: l.
Proof.
  intros Hl Hx. change (sort cmp (x :: l)) with (sortInsert cmp x (sort cmp l)).
  rewrite Hl. destruct l as [|y l]; [done|].
  simpl. by rewrite (Hx y eq_refl).
Qed.

Lemma scores_of_alternatives :
  Forall
    (fun c =>
       let m := mathMax 0.1 (c - 0.3)%float in
       PrimFloat.ltb 0 (m - m)%float = false
       /\ PrimFloat.ltb 0 (m - c)%float = false)
    possibleConfidences.
Proof. repeat constructor. Qed.

(** The suggestions for a route are its inference followed by the
    alternative names of that inference other than its own name, in their
    order, each with the confidence of the inference less 0.3 and at least
    0.1: no alternative ever comes before the inference, so that sorting
    changes nothing.  There are at most six suggestions. *)
Theorem suggestions_in_order route :
  match inferCollectionName route with
  | Thrown message => getCollectionSuggestions route = Thrown message
  | Ok primary =>
      let others :=
        List.filter
          (fun altName => negb (String.eqb altName (collectionName primary)))
          (alternativeNames primary) in
      getCollectionSuggestions route
      = Ok (primary :: map (alternativeTo primary) others)
      /\ length (primary :: map (alternativeTo primary) others) <= 6
  end.
Proof.
  unfold getCollectionSuggestions.
  pose proof (confidence_possible route) as Hc.
  pose proof (fun inference H => proj1 (alternatives_short route inference H))
    as Hlen.
  destruct (inferCollectionName route) as [primary|message]; [|done].
  specialize (Hc primary eq_refl).
  pose proof scores_of_alternatives as Hscores.
  rewrite List.Forall_forall in Hscores.
  destruct (Hscores _ Hc) as [Hsame Hbelow]. cbv zeta in Hsame, Hbelow.
  cbv zeta. set (others := List.filter _ _).
  change (map (fun altName => mkInference altName _ _ [])) with
    (map (alternativeTo primary)).
  split.
  - f_equal. apply sort_in_order.
    + induction others as [|name others IH]; [done|].
      cbn [map]. apply sort_in_order; [done|].
      intros y Hy. destruct others as [|next others]; [done|].
      injection Hy as <-. exact Hsame.
    + intros y Hy. destruct others as [|name others]; [done|].
      injection Hy as <-. exact Hbelow.
  - cbn [length]. rewrite length_map.
    assert (length others <= length (alternativeNames primary)) as Hle
      by apply filter_length_le.
    specialize (Hlen primary eq_refl). lia.
Qed.

(** A route through [/constructor]. *)
Example constructor_route_throws :
  inferCollectionName MoreSamples.constructorRoute
  = Thrown "potentialCollections.slice is not a function".
Proof. reflexivity. Qed.

End CollectionInferencerMore.

(** ** Further properties of identifier resolution *)

Module ObjectIdResolverMore.
Import Js ObjectIdResolver JsFacts JsMoreFacts.

Section Resolution.
Variable store : Store.

Lemma collectIds_sources fieldName contextCollection limit collections acc all :
  collectIds store fieldName contextCollection limit collections acc = Ok all ->
  forall id, In id all ->
    In id acc
    \/ exists collectionName ids,
         In collectionName collections
         /\ getObjectIdsFromCollection store collectionName fieldName
              contextCollection limit = Ok ids
         /\ In id ids.
Proof.
  revert acc. induction collections as [|collectionName rest IH]; intros acc.
  - intros [= <-] id Hid. by left.
  - cbn [collectIds].
    destruct (getObjectIdsFromCollection store collectionName fieldName
                contextCollection limit) as [ids|] eqn:E; [|done].
    intros H id Hid. destruct (IH _ H id Hid) as [Hacc|(c & ids' & Hc & Hget & Hin)].
    + apply in_app_or in Hacc as [Hacc|Hnew]; [by left|].
      right. exists collectionName, ids. by repeat split; [left| |].
    + right. exists c, ids'. by repeat split; [right| |].
Qed.

Lemma suggestFrom_invariants fieldName contextCollection limit collections r :
  suggestFrom store fieldName contextCollection limit collections = Ok r ->
  ObjectIdResolver.fieldName r = fieldName
  /\ length (suggestedIds r) <= limit
  /\ possibleCollections r = collections
  /\ (forall id, In id (suggestedIds r) ->
        exists collectionName ids,
          In collectionName collections
          /\ getObjectIdsFromCollection store collectionName fieldName
               contextCollection limit = Ok ids
          /\ In id ids).
Proof.
  unfold suggestFrom.
  destruct (collectIds _ _ _ _ _ _) as [all|] eqn:E; [|done].
  intros [= <-]. cbn [ObjectIdResolver.fieldName suggestedIds possibleCollections].
  rewrite slice_from_start. split; [done|]. split; [rewrite length_take; lia|].
  split; [done|]. intros id Hid.
  apply list_elem_of_In, elem_of_take in Hid as (i & Hid & _).
  apply list_elem_of_lookup_2, list_elem_of_In, sort_In in Hid.
  by destruct (collectIds_sources _ _ _ _ _ _ E id Hid) as [[]|?].
Qed.

End Resolution.

(** Whatever the database answers, a resolution is for the field asked
    about and suggests at most [limit] identifiers; the collections it names
    exist in the database, and every identifier it suggests was returned by
    the query on one of them.  A resolution that failed suggests nothing,
    names no collection and carries a message. *)
Theorem resolution_invariants store fieldName contextCollection limit :
  let r := resolveObjectIdField store fieldName contextCollection limit in
  ObjectIdResolver.fieldName r = fieldName
  /\ length (suggestedIds r) <= limit
  /\ (forall collectionName,
        In collectionName (possibleCollections r) ->
        In collectionName (listCollections store))
  /\ (forall id, In id (suggestedIds r) ->
        exists collectionName ids,
          In collectionName (possibleCollections r)
          /\ getObjectIdsFromCollection store collectionName fieldName
               contextCollection limit = Ok ids
          /\ In id ids)
  /\ (success r = false ->
      suggestedIds r = [] /\ possibleCollections r = []
      /\ errorMessage r <> None).
Proof.
  assert (forall message,
            let r := mkResolution fieldName [] [] false (Some message) in
            ObjectIdResolver.fieldName r = fieldName
            /\ length (suggestedIds r) <= limit
            /\ (forall collectionName,
                  In collectionName (possibleCollections r) ->
                  In collectionName (listCollections store))
            /\ (forall id, In id (suggestedIds r) ->
                  exists collectionName ids,
                    In collectionName (possibleCollections r)
                    /\ getObjectIdsFromCollection store collectionName fieldName
                         contextCollection limit = Ok ids
                    /\ In id ids)
            /\ (success r = false ->
                suggestedIds r = [] /\ possibleCollections r = []
                /\ errorMessage r <> None)) as Hfailed.
  { intros message. simpl. repeat split; (done || lia). }
  assert (forall collections r,
            (forall c, In c collections -> In c (listCollections store)) ->
            suggestFrom store fieldName contextCollection limit collections = Ok r ->
            ObjectIdResolver.fieldName r = fieldName
            /\ length (suggestedIds r) <= limit
            /\ (forall collectionName,
                  In collectionName (possibleCollections r) ->
                  In collectionName (listCollections store))
            /\ (forall id, In id (suggestedIds r) ->
                  exists collectionName ids,
                    In collectionName (possibleCollections r)
                    /\ getObjectIdsFromCollection store collectionName fieldName
                         contextCollection limit = Ok ids
                    /\ In id ids)
            /\ (success r = false ->
                suggestedIds r = [] /\ possibleCollections r = []
                /\ errorMessage r <> None)) as Hsuggested.
  { intros collections r Hexist Hr.
    assert (success r = true) as Hok.
    { unfold suggestFrom in Hr.
      destruct (collectIds _ _ _ _ _ _); [by injection Hr as <- | done]. }
    apply suggestFrom_invariants in Hr as (Hf & Hl & Hp & Hi).
    rewrite Hp, Hok. by repeat split. }
  assert (forall candidates c,
            In c (List.filter (arrayIncludes (listCollections store)) candidates) ->
            In c (listCollections store)) as Hfilter.
  { intros candidates c Hc. apply filter_In in Hc as [_ Hc].
    by apply arrayIncludes_In. }
  cbv zeta. unfold resolveObjectIdField.
  destruct (negb (isAvailable store)); [apply Hfailed|].
  destruct (resolveBody store fieldName contextCollection limit)
    as [r|message] eqn:Hbody; [|apply Hfailed].
  unfold resolveBody in Hbody.
  destruct (getPossibleCollections fieldName) as [possible|]; [|done].
  destruct (List.filter _ possible) as [|c existing] eqn:Eexisting.
  - destruct (List.filter _ (inferCollectionFromFieldName fieldName))
      as [|c inferred] eqn:Einferred.
    + injection Hbody as <-. simpl. repeat split; (done || lia).
    + apply (Hsuggested _ _ (fun c Hc => Hfilter _ c (eq_ind_r _ Hc Einferred))
               Hbody).
  - apply (Hsuggested _ _ (fun c Hc => Hfilter _ c (eq_ind_r _ Hc Eexisting))
             Hbody).
Qed.

(** The map returned for a list of fields has one entry for each name in
    the list, the resolution of that field with the default limit of five,
    and no other entry. *)
Theorem resolutions_by_field store fields contextCollection fieldName :
  resolveMultipleObjectIds store fields contextCollection !! fieldName
  = if arrayIncludes fields fieldName
    then Some (resolveObjectIdField store fieldName contextCollection 5)
    else None.
Proof.
  unfold resolveMultipleObjectIds.
  assert (forall acc : gmap string ObjectIdResolution,
            foldl (fun results field =>
                     <[field := resolveObjectIdField store field
                                  contextCollection 5]> results) acc fields
            !! fieldName
            = if arrayIncludes fields fieldName
              then Some (resolveObjectIdField store fieldName contextCollection 5)
              else acc !! fieldName) as H.
  { induction fields as [|field rest IH]; intros acc; [done|].
    cbn [foldl]. rewrite IH. unfold arrayIncludes. cbn [existsb].
    destruct (String.eqb_spec fieldName field) as [->|Hne].
    - rewrite lookup_insert_eq. cbn [orb]. by destruct (existsb _ rest).
    - by rewrite lookup_insert_ne. }
  rewrite H. by destruct (arrayIncludes _ _).
Qed.

(** *** Names inferred from a snake-case field *)

Lemma stripSuffix_after_underscore lower suf (d : ascii) :
  d <> "_"%char ->
  stripSuffix (suf +:+ String d "") (lower +:+ "_") = lower +:+ "_".
Proof.
  intros Hd. unfold stripSuffix. by rewrite endsWith_other_last by congruence.
Qed.

Lemma stripSuffix_cut lower tail :
  stripSuffix tail ((lower +:+ "_") +:+ tail) = lower +:+ "_".
Proof. unfold stripSuffix. by rewrite endsWith_append, dropLastN_append. Qed.

(** The four rules applied to a name in [_id]: the first one cuts "id",
    the others find nothing to cut after the underscore. *)
Lemma strip_snake_id lower :
  stripSuffix "_ref" (stripSuffix "ref" (stripSuffix "_id"
    (stripSuffix "id" ((lower +:+ "_") +:+ "id")))) = lower +:+ "_".
Proof.
  rewrite (stripSuffix_cut lower "id").
  pose proof (stripSuffix_after_underscore lower "_i" "d"
                ltac:(discriminate)) as Hid.
  pose proof (stripSuffix_after_underscore lower "re" "f"
                ltac:(discriminate)) as Href.
  pose proof (stripSuffix_after_underscore lower "_re" "f"
                ltac:(discriminate)) as Huref.
  change ("_i" +:+ "d") with "_id" in Hid.
  change ("re" +:+ "f") with "ref" in Href.
  change ("_re" +:+ "f") with "_ref" in Huref.
  by rewrite Hid, Href, Huref.
Qed.

(** For a field [<base>_id] or [<base>_ref] the inferred collection names
    keep the underscore: they are [<base>_] and [<base>_s] in lower case.
    The rule for "id" (for "ref") has removed the end of the name before the
    rule for "_id" (for "_ref") is tried. *)
Theorem snake_case_inference base :
  inferCollectionFromFieldName (base +:+ "_id")
  = [toLowerCase base +:+ "_"; toLowerCase base +:+ "_s"]
  /\ inferCollectionFromFieldName (base +:+ "_ref")
     = [toLowerCase base +:+ "_"; toLowerCase base +:+ "_s"].
Proof.
  set (lower := toLowerCase base).
  assert (forall suf (d : ascii),
            d <> "_"%char ->
            stripSuffix (suf +:+ String d "") (lower +:+ "_") = lower +:+ "_")
    as Hkept.
  { intros suf d Hd. unfold stripSuffix.
    by rewrite endsWith_other_last by congruence. }
  pose proof (Hkept "_i" "d"%char ltac:(discriminate)) as Hid.
  pose proof (Hkept "re" "f"%char ltac:(discriminate)) as Href.
  pose proof (Hkept "_re" "f"%char ltac:(discriminate)) as Huref.
  pose proof (Hkept "i" "d"%char ltac:(discriminate)) as Hd.
  change ("_i" +:+ "d") with "_id" in Hid.
  change ("re" +:+ "f") with "ref" in Href.
  change ("_re" +:+ "f") with "_ref" in Huref.
  change ("i" +:+ "d") with "id" in Hd.
  assert (forall tail,
            stripSuffix tail ((lower +:+ "_") +:+ tail) = lower +:+ "_") as Hcut.
  { intros tail. unfold stripSuffix.
    by rewrite endsWith_append, dropLastN_append. }
  assert (endsWith (lower +:+ "_") "y" = false) as Hy
    by (apply (endsWith_other_last lower ""); discriminate).
  assert ((lower +:+ "_" =? "")%string = false) as Hempty.
  { apply String.eqb_neq. by destruct lower. }
  assert (forall tail, tail <> "" ->
            (lower +:+ "_" =? (lower +:+ "_") +:+ tail)%string = false) as Hlonger.
  { intros tail Htail. apply String.eqb_neq. intros H.
    apply (f_equal String.length) in H. rewrite !length_append in H.
    destruct tail; [done|]. simpl in H. lia. }
  split.
  - unfold inferCollectionFromFieldName.
    rewrite toLowerCase_append. change (toLowerCase "_id") with ("_" +:+ "id").
    fold lower. rewrite <- append_assoc.
    rewrite (Hcut "id"), Hid, Href, Huref, Hy, Hempty, (Hlonger "id") by done.
    cbn [negb andb]. by rewrite append_assoc.
  - unfold inferCollectionFromFieldName.
    rewrite toLowerCase_append. change (toLowerCase "_ref") with ("_" +:+ "ref").
    fold lower. rewrite <- append_assoc.
    assert (stripSuffix "id" ((lower +:+ "_") +:+ "ref")
            = (lower +:+ "_") +:+ "ref") as ->.
    { unfold stripSuffix. change "ref" with ("re" +:+ "f") at 1.
      rewrite <- append_assoc. change "id" with ("i" +:+ "d").
      by rewrite endsWith_other_last by discriminate. }
    assert (stripSuffix "_id" ((lower +:+ "_") +:+ "ref")
            = (lower +:+ "_") +:+ "ref") as ->.
    { unfold stripSuffix. change "ref" with ("re" +:+ "f") at 1.
      rewrite <- append_assoc. change "_id" with ("_i" +:+ "d").
      by rewrite endsWith_other_last by discriminate. }
    rewrite (Hcut "ref"), Huref, Hy, Hempty, (Hlonger "ref") by done.
    cbn [negb andb]. by rewrite append_assoc.
Qed.

(** With a limit of one, the identifier of highest confidence is kept. *)
Example best_identifier_is_kept :
  map objectId
    (suggestedIds (resolveObjectIdField MoreSamples.shopStore "userId" None 1))
  = ["65a000000000000000000002"].
Proof. reflexivity. Qed.

End ObjectIdResolverMore.

(** ** Further properties of the hybrid generator *)

Module HybridPayloadGeneratorMore.
Import Js RouteDetection HybridPayloadGenerator HybridOrder JsFacts JsMoreFacts.

(** *** What holds of every merged field *)

Section Pipeline.
Variable world : World.
Variable aiFields : list PredictedField.
Variable mongoData : option MongoData.
Variable route : DetectedRoute.
Variable options : PayloadGenerationOptions.
Variables merging merged : HybridFieldPrediction -> Prop.

Hypothesis from_schema :
  forall md sch mongoField field,
    mongoData = Some md -> schema md = Some sch ->
    In mongoField (detailedFields sch) ->
    shouldSkipField (sf_name mongoField) (method route) options = false ->
    mergeMongoField world aiFields md mongoField = Ok field ->
    merging field.

Hypothesis from_prediction :
  forall aiField fieldName realValues,
    In aiField aiFields ->
    pf_name aiField = VString fieldName ->
    shouldSkipField fieldName (method route) options = false ->
    match mongoData with
    | Some md =>
        getRealValuesForField world fieldName (sd_samples (primary md)) None
    | None => Ok []
    end = Ok realValues ->
    merging
      (mkHybridField (VString fieldName) (pf_type aiField) (pf_required aiField)
         (pf_example aiField) (pf_description aiField) (Some realValues)
         (nonEmpty realValues)
         (if nonEmpty realValues then 0.8%float else 0.6%float)
         (if nonEmpty realValues then hybrid else ai) None).

Hypothesis unresolved : forall field, merging field -> merged field.

Hypothesis resolved :
  forall resolutions field,
    merging field -> merged (applyResolution resolutions field).

Lemma first_loop md mongoFields :
  forall hybridFields processedFields result processed,
    (forall mongoField field,
        In mongoField mongoFields ->
        shouldSkipField (sf_name mongoField) (method route) options = false ->
        mergeMongoField world aiFields md mongoField = Ok field ->
        merging field) ->
    Forall merging hybridFields ->
    mergeMongoFields world aiFields md (method route) options mongoFields
      hybridFields processedFields = Ok (result, processed) ->
    Forall merging result.
Proof.
  induction mongoFields as [|mongoField mongoFields IH];
    intros hybridFields processedFields result processed Hfield Hall Hrun.
  - by injection Hrun as <- _.
  - cbn [mergeMongoFields] in Hrun.
    destruct (shouldSkipField _ _ _) eqn:Hskip.
    + eapply IH; [|exact Hall|exact Hrun]. intros. eapply Hfield; eauto.
      by right.
    + destruct (mergeMongoField _ _ _ _) as [field|] eqn:Hmerge; [|done].
      eapply IH; [| |exact Hrun].
      * intros. eapply Hfield; eauto. by right.
      * apply Forall_app. split; [done|]. constructor; [|constructor].
        eapply Hfield; eauto. by left.
Qed.

Lemma second_loop fields :
  forall hybridFields processedFields result,
    (forall aiField, In aiField fields -> In aiField aiFields) ->
    Forall merging hybridFields ->
    mergeAiFields world mongoData (method route) options fields hybridFields
      processedFields = Ok result ->
    Forall merging result.
Proof.
  induction fields as [|aiField fields IH];
    intros hybridFields processedFields result Hsub Hall Hrun.
  - by injection Hrun as <-.
  - cbn [mergeAiFields] in Hrun.
    destruct (pf_name aiField) as [| | | |fieldName| | | |] eqn:Hname; try done.
    destruct (negb (arrayIncludes processedFields fieldName)); cbn [andb] in Hrun.
    2: { eapply IH; [|exact Hall|exact Hrun]. intros. apply Hsub. by right. }
    destruct (shouldSkipField _ _ _) eqn:Hskip; cbn [negb] in Hrun.
    { eapply IH; [|exact Hall|exact Hrun]. intros. apply Hsub. by right. }
    destruct (match mongoData with Some _ => _ | None => _ end)
      as [realValues|] eqn:Hvalues; [|done].
    eapply IH; [| |exact Hrun].
    + intros. apply Hsub. by right.
    + apply Forall_app. split; [done|]. constructor; [|constructor].
      apply from_prediction; [apply Hsub; by left | done | done | done].
Qed.

Lemma sortInsert_all {A} (P : A -> Prop) cmp (x : A) (l : list A) :
  P x -> Forall P l -> Forall P (sortInsert cmp x l).
Proof.
  intros Hx. induction 1 as [|y l Hy Hl IH]; simpl.
  - by constructor.
  - destruct (PrimFloat.ltb 0 (cmp x y)); repeat constructor; done.
Qed.

Lemma sort_all {A} (P : A -> Prop) cmp (l : list A) :
  Forall P l -> Forall P (sort cmp l).
Proof.
  induction 1 as [|x l Hx Hl IH]; [constructor|]. by apply sortInsert_all.
Qed.

Lemma merged_fields result :
  mergeFieldPredictions world aiFields mongoData route options = Ok result ->
  Forall merged result.
Proof.
  unfold mergeFieldPredictions.
  destruct (match mongoData with Some _ => _ | None => _ end)
    as [[hybridFields processedFields]|] eqn:Hfirst; [|done].
  assert (Forall merging hybridFields) as Hone.
  { destruct mongoData as [md|] eqn:Hmd; [|by injection Hfirst as <- <-].
    destruct (schema md) as [sch|] eqn:Hsch; [|by injection Hfirst as <- <-].
    eapply first_loop; [| |exact Hfirst]; [|constructor].
    intros. eapply from_schema; eauto. }
  destruct (mergeAiFields _ _ _ _ _ _ _) as [all|] eqn:Hsecond; [|done].
  assert (Forall merging all) as Htwo
    by (eapply second_loop; [| |exact Hsecond]; done).
  destruct (resolveObjectIdFields world all _) as [settled|] eqn:Hresolve;
    [|done].
  assert (Forall merged settled) as Hthree.
  { unfold resolveObjectIdFields in Hresolve.
    destruct (filterExc isObjectIdField all) as [[|kept rest]|]; [| |done];
      injection Hresolve as <-.
    - eapply Forall_impl; [exact Htwo | exact unresolved].
    - apply Forall_fmap. eapply Forall_impl; [exact Htwo|].
      intros field. apply resolved. }
  apply (sort_all _ byImportance) in Hthree.
  destruct (limitFields options) as [[|n]|]; intros [= <-]; try done.
  unfold slice. by apply Forall_take, Forall_drop.
Qed.

End Pipeline.

(** *** Confidence *)

Lemma calculateFieldConfidence_steady aiField mongoField realValues :
  steady (calculateFieldConfidence aiField mongoField realValues).
Proof.
  unfold calculateFieldConfidence.
  destruct mongoField as [mf|], aiField as [af|], realValues as [[|v vs]|];
    try destruct (PrimFloat.ltb 80 (sf_frequency mf));
    try destruct (sf_isRequired mf);
    try destruct (pf_required af);
    try destruct (negb (isString (pf_type af) (sf_type mf)));
    by vm_compute.
Qed.

(** The confidence computed for a field lies between 0.1 and 1, whatever
    the predicted field, the schema field and the real values are. *)
Theorem field_confidence_in_range aiField mongoField realValues :
  inUnitRange (calculateFieldConfidence aiField mongoField realValues).
Proof. apply calculateFieldConfidence_steady. Qed.

(** Every field of a hybrid prediction has a confidence between 0.1 and 1:
    the fields merged from the schema and the prediction, those whose values
    were replaced by resolved identifiers, and those of the fallback when the
    merge throws. *)
Theorem prediction_confidences_in_range world route options field :
  In field (fields (generateHybridPrediction world route options)) ->
  inUnitRange (confidence field).
Proof.
  unfold generateHybridPrediction.
  destruct (mergeFieldPredictions _ _ _ _ _) as [result|] eqn:Hmerge.
  - cbn [fields]. revert field. apply List.Forall_forall.
    eapply (merged_fields world _ _ _ _ (fun f => steady (confidence f))
              (fun f => inUnitRange (confidence f))); [| | | |exact Hmerge].
    + intros md sch mongoField f _ _ _ _. unfold mergeMongoField.
      destruct (getRealValuesForField _ _ _ _); [|done].
      intros [= <-]. apply calculateFieldConfidence_steady.
    + intros aiField fieldName realValues _ _ _ _. cbn [confidence].
      destruct (nonEmpty realValues); by vm_compute.
    + by intros f [? _].
    + intros resolutions f [Hin Hmax]. unfold applyResolution.
      destruct (isObjectIdField f) as [[|]|]; [|done|done].
      destruct (match nameText f with Some _ => _ | None => _ end)
        as [resolution|]; [|done].
      by destruct (_ && _).
  - unfold aiOnlyFallback. cbn [fields].
    destruct (getAIPrediction world 1 options) as [prediction|]; [|done].
    intros Hin. apply in_map_iff in Hin as (aiField & <- & _). by vm_compute.
Qed.

Lemma prediction_confidences_in_range_witness :
  exists field,
    In field
      (fields (generateHybridPrediction MoreSamples.accountsWorld
                 Samples.createUserRoute getDefaultOptions))
    /\ name field = VString "email"
    /\ inUnitRange (confidence field).
Proof.
  eexists. split; [left; reflexivity|]. split; [reflexivity|].
  apply (prediction_confidences_in_range MoreSamples.accountsWorld
           Samples.createUserRoute getDefaultOptions).
  left. reflexivity.
Defined.

(** *** Which fields are merged *)

Lemma applyResolution_name resolutions field :
  name (applyResolution resolutions field) = name field
  /\ required (applyResolution resolutions field) = required field.
Proof.
  unfold applyResolution.
  destruct (isObjectIdField field) as [[|]|]; [|done|done].
  destruct (match nameText field with Some _ => _ | None => _ end)
    as [resolution|]; [|done].
  by destruct (_ && _).
Qed.

(** The merged fields are fields the schema or the prediction names, none
    of them a field to skip for the route's method and the options (so no
    excluded field is among them), and each has a string for its name; with
    a positive limit there are at most that many. *)
Theorem merged_fields_are_wanted world aiFields mongoData route options result :
  mergeFieldPredictions world aiFields mongoData route options = Ok result ->
  Forall
    (fun field =>
       exists fieldName,
         name field = VString fieldName
         /\ shouldSkipField fieldName (method route) options = false
         /\ optionIncludes (excludeFields options) fieldName = false
         /\ In (name field) (knownNames aiFields mongoData))
    result
  /\ (forall n, limitFields options = Some (S n) -> length result <= S n).
Proof.
  intros Hmerge.
  assert (forall fieldName,
            shouldSkipField fieldName (method route) options = false ->
            optionIncludes (excludeFields options) fieldName = false) as Hexcluded.
  { intros fieldName. unfold shouldSkipField.
    by destruct (optionIncludes (excludeFields options) fieldName). }
  split.
  - set (wanted := fun field : HybridFieldPrediction =>
                     exists fieldName,
                       name field = VString fieldName
                       /\ shouldSkipField fieldName (method route) options = false
                       /\ optionIncludes (excludeFields options) fieldName = false
                       /\ In (name field) (knownNames aiFields mongoData)).
    eapply (merged_fields world _ _ _ _ wanted wanted); [| | | |exact Hmerge].
    + intros md sch mongoField field -> Hsch Hin Hskip. unfold mergeMongoField.
      destruct (getRealValuesForField _ _ _ _); [|done].
      intros [= <-]. unfold wanted, knownNames. cbn [name]. rewrite Hsch.
      exists (sf_name mongoField).
      split; [done|]. split; [done|]. split; [by apply Hexcluded|].
      apply in_or_app. right.
      by apply (in_map (fun mongoField => VString (sf_name mongoField))).
    + intros aiField fieldName realValues Hin Hname Hskip _.
      unfold wanted, knownNames. cbn [name]. exists fieldName.
      split; [done|]. split; [done|]. split; [by apply Hexcluded|].
      apply in_or_app. left. rewrite <- Hname. by apply in_map.
    + done.
    + intros resolutions field. unfold wanted.
      by rewrite (proj1 (applyResolution_name resolutions field)).
  - intros n Hlimit. unfold mergeFieldPredictions in Hmerge.
    destruct (match mongoData with Some _ => _ | None => _ end)
      as [[hybridFields processedFields]|]; [|done].
    destruct (mergeAiFields _ _ _ _ _ _ _); [|done].
    destruct (resolveObjectIdFields _ _ _); [|done].
    rewrite Hlimit in Hmerge. injection Hmerge as <-.
    rewrite slice_from_start, length_take. lia.
Qed.

Lemma merged_fields_are_wanted_witness :
  exists result,
    mergeFieldPredictions MoreSamples.accountsWorld
      (pp_fields Samples.onePrediction) (Some MoreSamples.accountsData)
      Samples.createUserRoute getDefaultOptions = Ok result
    /\ map name result = [VString "email"; VString "nick"]
    /\ length result <= 15.
Proof.
  eexists. split; [reflexivity|]. split; [reflexivity|].
  exact (proj2 (merged_fields_are_wanted MoreSamples.accountsWorld
                  (pp_fields Samples.onePrediction)
                  (Some MoreSamples.accountsData) Samples.createUserRoute
                  getDefaultOptions _ eq_refl) 14 eq_refl).
Defined.

(** *** Required fields first *)

Lemma sortInsert_requiredFirst x requiredFields optionalFields :
  Forall (fun field => required field = true) requiredFields ->
  Forall (fun field => required field = false) optionalFields ->
  requiredFirst (sortInsert byImportance x (requiredFields ++ optionalFields)).
Proof.
  intros Hreq Hopt. destruct (required x) eqn:Hx.
  - induction Hreq as [|y requiredFields Hy Hreq IH].
    + exists [x], optionalFields.
      split; [|by split; [repeat constructor|]].
      destruct optionalFields as [|y optionalFields]; [done|].
      apply Forall_cons in Hopt as [Hy _]. cbn [app sortInsert].
      unfold byImportance. by rewrite Hx, Hy.
    + cbn [app sortInsert].
      destruct (PrimFloat.ltb 0 (byImportance x y)).
      * destruct IH as (requiredFields' & optionalFields' & -> & ? & ?).
        exists (y :: requiredFields'), optionalFields'.
        by split; [|split; [constructor|]].
      * exists (x :: y :: requiredFields), optionalFields.
        by split; [|split; [repeat (constructor; [done|])|]].
  - induction Hreq as [|y requiredFields Hy Hreq IH].
    + exists [], (sortInsert byImportance x optionalFields).
      split; [done|]. split; [constructor|].
      by apply (sortInsert_all (fun field => required field = false)).
    + cbn [app sortInsert]. unfold byImportance at 1. rewrite Hx, Hy.
      cbn [andb negb]. change (PrimFloat.ltb 0 1) with true. cbv iota.
      destruct IH as (requiredFields' & optionalFields' & -> & ? & ?).
      exists (y :: requiredFields'), optionalFields'.
      by split; [|split; [constructor|]].
Qed.

Lemma sort_requiredFirst l : requiredFirst (sort byImportance l).
Proof.
  induction l as [|x l IH].
  - exists [], []. by repeat split.
  - change (sort byImportance (x :: l))
      with (sortInsert byImportance x (sort byImportance l)).
    destruct IH as (requiredFields & optionalFields & -> & ? & ?).
    by apply sortInsert_requiredFirst.
Qed.

Lemma take_requiredFirst n l : requiredFirst l -> requiredFirst (take n l).
Proof.
  intros (requiredFields & optionalFields & -> & Hreq & Hopt).
  exists (take n requiredFields), (take (n - length requiredFields) optionalFields).
  split; [apply take_app|]. split; by apply Forall_take.
Qed.

(** In the merged fields every required field comes before every optional
    one, also after the list has been cut to the limit. *)
Theorem required_fields_first world aiFields mongoData route options result :
  mergeFieldPredictions world aiFields mongoData route options = Ok result ->
  requiredFirst result.
Proof.
  unfold mergeFieldPredictions.
  destruct (match mongoData with Some _ => _ | None => _ end)
    as [[hybridFields processedFields]|]; [|done].
  destruct (mergeAiFields _ _ _ _ _ _ _) as [all|]; [|done].
  destruct (resolveObjectIdFields _ _ _) as [settled|]; [|done].
  destruct (limitFields options) as [[|n]|]; intros [= <-];
    try apply sort_requiredFirst.
  rewrite slice_from_start. apply take_requiredFirst, sort_requiredFirst.
Qed.

Lemma required_fields_first_witness :
  exists result,
    mergeFieldPredictions MoreSamples.accountsWorld
      (pp_fields Samples.onePrediction) (Some MoreSamples.accountsData)
      Samples.createUserRoute getDefaultOptions = Ok result
    /\ map required result = [true; false]
    /\ requiredFirst result.
Proof.
  eexists. split; [reflexivity|]. split; [reflexivity|].
  exact (required_fields_first MoreSamples.accountsWorld
           (pp_fields Samples.onePrediction) (Some MoreSamples.accountsData)
           Samples.createUserRoute getDefaultOptions _ eq_refl).
Defined.

(** *** Real values *)

Section RealValues.
Variable world : World.

Lemma sanitizeValue_present value :
  isNullish value = false -> isNullish (sanitizeValue world value) = false.
Proof.
  destruct value; try done; intros _; unfold sanitizeValue;
    by destruct (_ =? _)%nat.
Qed.

Lemma scanSamples_present fieldName sampleDocuments :
  forall values seen result,
    Forall (fun value => isNullish value = false) values ->
    scanSamples world fieldName sampleDocuments values seen = Ok result ->
    Forall (fun value => isNullish value = false) result.
Proof.
  induction sampleDocuments as [|sample rest IH];
    intros values seen result Hall Hrun.
  - by injection Hrun as <-.
  - cbn [scanSamples] in Hrun.
    destruct (getNestedFieldValue (data sample) fieldName) as
      [| |b|x|s|iso|hex|items|props] eqn:Hvalue;
      try (by eapply IH; [exact Hall|exact Hrun]);
      (destruct (JSON_stringify world _) as [text|]; [|done];
       destruct (arrayIncludes seen text);
       [by eapply IH; [exact Hall|exact Hrun]|];
       eapply IH; [|exact Hrun];
       apply Forall_app; split; [done|];
       constructor; [by apply sanitizeValue_present | constructor]).
Qed.

Lemma getRealValuesForField_present fieldName sampleDocuments collectionName
  result :
  getRealValuesForField world fieldName sampleDocuments collectionName
  = Ok result ->
  Forall (fun value => isNullish value = false) result.
Proof.
  unfold getRealValuesForField.
  destruct (scanSamples world fieldName sampleDocuments [] []) as [values|] eqn:E;
    [|done].
  apply scanSamples_present in E; [|constructor].
  destruct values as [|v vs]; [|by intros [= <-]].
  destruct (truthyString collectionName) as [collection|]; [|by intros [= <-]].
  intros [= <-]. apply Forall_fmap. unfold fetchFieldSamples.
  destruct (negb (mongoAvailable world)); [constructor|].
  destruct (findWithField world collection fieldName 5) as [docs|];
    [|constructor].
  apply List.Forall_forall. intros value Hin.
  apply filter_In in Hin as [_ Hin]. apply negb_true_iff in Hin.
  by apply sanitizeValue_present.
Qed.

End RealValues.

(** The real values attached to a field of a hybrid prediction never
    contain [null] or [undefined]: absent values are dropped from the
    samples and from the fetched field samples, and resolved identifiers are
    strings. *)
Theorem real_values_are_present world route options field values :
  In field (fields (generateHybridPrediction world route options)) ->
  realValues field = Some values ->
  Forall (fun value => isNullish value = false) values.
Proof.
  unfold generateHybridPrediction.
  destruct (mergeFieldPredictions _ _ _ _ _) as [result|] eqn:Hmerge.
  - cbn [fields].
    set (present := fun f : HybridFieldPrediction =>
                      forall values, realValues f = Some values ->
                        Forall (fun value => isNullish value = false) values).
    enough (Forall present result) as Hall.
    { intros Hin Hvalues. rewrite List.Forall_forall in Hall.
      exact (Hall field Hin values Hvalues). }
    eapply (merged_fields world _ _ _ _ present present); [| | | |exact Hmerge].
    + intros md sch mongoField f _ _ _ _. unfold mergeMongoField.
      destruct (getRealValuesForField _ _ _ _) as [real|] eqn:Hreal; [|done].
      intros [= <-] ? [= <-].
      by apply getRealValuesForField_present in Hreal.
    + intros aiField fieldName real _ _ _ Hreal ? [= <-].
      destruct (if mongoAvailable world then getMongoData world else None)
        as [md|]; [|by injection Hreal as <-].
      by apply getRealValuesForField_present in Hreal.
    + done.
    + intros resolutions f Hf. unfold applyResolution.
      destruct (isObjectIdField f) as [[|]|]; [|done|done].
      destruct (match nameText f with Some _ => _ | None => _ end)
        as [resolution|]; [|done].
      destruct (_ && _); [|done].
      intros ? [= <-]. apply Forall_fmap.
      by apply List.Forall_forall.
  - unfold aiOnlyFallback. cbn [fields].
    destruct (getAIPrediction world 1 options) as [prediction|]; [|done].
    intros Hin. by apply in_map_iff in Hin as (aiField & <- & _).
Qed.

Lemma real_values_are_present_witness :
  exists field,
    In field
      (fields (generateHybridPrediction MoreSamples.accountsWorld
                 Samples.createUserRoute getDefaultOptions))
    /\ realValues field = Some [VString "a@b.c"]
    /\ Forall (fun value => isNullish value = false) [VString "a@b.c"].
Proof.
  eexists. split; [left; reflexivity|]. split; [reflexivity|].
  eapply (real_values_are_present MoreSamples.accountsWorld
            Samples.createUserRoute getDefaultOptions).
  - left. reflexivity.
  - reflexivity.
Defined.

End HybridPayloadGeneratorMore.

(** ** Properties of the schema viewer *)

Module SchemaViewerFacts.
Import Js SchemaViewer JsFacts JsMoreFacts.
Import ObjectIdResolverMore (strip_snake_id).

(** A guessed collection name is not empty and ends in "s"; for a field
    [<base>_id] it is [<base>_s] in lower case, underscore included. *)
Theorem guessed_collection_is_plural :
  (forall fieldName target,
      guessTargetCollection fieldName = Some target ->
      target <> "" /\ endsWith target "s" = true)
  /\ (forall base,
        guessTargetCollection (base +:+ "_id")
        = Some (toLowerCase base +:+ "_s")).
Proof.
  split.
  - intros fieldName target. unfold guessTargetCollection.
    set (baseName := ObjectIdResolver.stripSuffix _ _).
    destruct (String.eqb_spec baseName "") as [|Hbase]; [done|].
    destruct (endsWith baseName "s") eqn:Es; cbn [negb].
    + intros [= <-]. by split.
    + destruct (endsWith baseName "y") eqn:Ey; intros [= <-].
      * split; [by destruct (dropLast baseName)|].
        change "ies" with ("ie" +:+ "s"). rewrite <- append_assoc.
        apply endsWith_append.
      * split; [by destruct baseName | apply endsWith_append].
  - intros base. unfold guessTargetCollection.
    rewrite toLowerCase_append. change (toLowerCase "_id") with ("_" +:+ "id").
    set (lower := toLowerCase base). rewrite <- append_assoc.
    rewrite strip_snake_id.
    assert (endsWith (lower +:+ "_") "s" = false) as ->
      by (apply (endsWith_other_last lower ""); discriminate).
    assert (endsWith (lower +:+ "_") "y" = false) as ->
      by (apply (endsWith_other_last lower ""); discriminate).
    assert ((lower +:+ "_" =? "")%string = false) as ->.
    { apply String.eqb_neq. by destruct lower. }
    cbn [negb]. by rewrite append_assoc.
Qed.

Lemma relation_cases availableCollections name info :
  analyzeFieldRelation availableCollections name = Some info ->
  includes (toLowerCase name) "id" = true
  /\ name <> "_id"
  /\ isReference info = true
  /\ match targetCollection info with
     | None =>
         referenceType info = unknown
         /\ (confidence info = 0.3%float \/ confidence info = 0.4%float)
     | Some target =>
         guessTargetCollection name = Some target
         /\ In target availableCollections
         /\ confidence info = 0.8%float
         /\ referenceType info = many_to_one
     end.
Proof.
  unfold analyzeFieldRelation.
  destruct (includes (toLowerCase name) "id") eqn:Eid; cbn [negb andb].
  2: { destruct (String.eqb_spec name "_id") as [->|]; [done|].
       cbn [negb]. done. }
  destruct (String.eqb_spec name "_id") as [|Hname]; [done|].
  destruct (guessTargetCollection name) as [[|c target]|] eqn:Eguess;
    cbn [truthyString].
  - intros [= <-]. cbn. by repeat split; [|left].
  - destruct (arrayIncludes availableCollections (String c target)) eqn:Ein;
      cbn [negb]; intros [= <-]; cbn.
    + apply arrayIncludes_In in Ein. by repeat split.
    + by repeat split; [|right].
  - intros [= <-]. cbn. by repeat split; [|left].
Qed.

(** Every relationship reported for a collection goes from a field other
    than [_id] whose lower-case name contains "id" to the [_id] of a
    collection that exists, the one guessed from the field's name; it is
    many-to-one with confidence 0.8.  Fields whose target is not known give
    no relationship. *)
Theorem reported_relationships availableCollections collectionName
    (analysed : list (string * bool)) :
  Forall
    (fun relationship =>
       fromCollection relationship = collectionName
       /\ toField relationship = "_id"
       /\ relationshipType relationship = many_to_one
       /\ relationshipConfidence relationship = 0.8%float
       /\ In (toCollection relationship) availableCollections
       /\ guessTargetCollection (fromField relationship)
          = Some (toCollection relationship)
       /\ fromField relationship <> "_id"
       /\ In (fromField relationship, true) analysed)
    (analyzeRelationships collectionName
       (map (fun field => detailedFieldOf availableCollections field.1 field.2)
          analysed)).
Proof.
  unfold analyzeRelationships. apply List.Forall_forall.
  intros relationship Hin.
  apply list_elem_of_In, list_elem_of_omap in Hin as (field & Hfield & Hrel).
  apply list_elem_of_In, in_map_iff in Hfield as ([name isObjectId] & <- & Hin).
  unfold detailedFieldOf in Hrel. cbn [relationInfo fieldName fst snd] in Hrel.
  destruct isObjectId; [|done].
  destruct (analyzeFieldRelation availableCollections name) as [info|] eqn:Einfo;
    [|done].
  apply relation_cases in Einfo as (_ & Hname & _ & Htarget).
  destruct (isReference info); [|done].
  destruct (targetCollection info) as [[|c target]|]; try done.
  cbn [truthyString] in Hrel. destruct Htarget as (Hguess & Havailable & Hc & Ht).
  injection Hrel as <-. cbn. rewrite Ht. by repeat split.
Qed.

(** [userId] is related to [users]; [user_id] only to a collection named
    [user_s]. *)
Example relationships_of_orders :
  map (fun relationship =>
         (fromField relationship, toCollection relationship))
    (analyzeRelationships "orders"
       (map (fun field => detailedFieldOf ["users"; "user_s"] field.1 field.2)
          [("userId", true); ("user_id", true); ("_id", true); ("paid", false)]))
  = [("userId", "users"); ("user_id", "user_s")].
Proof. reflexivity. Qed.

End SchemaViewerFacts.

(** ** Properties of the sample data fetcher *)

Module SampleDataFetcherFacts.
Import Js MongoConnector SampleDataFetcher JsFacts JsMoreFacts.
Import HybridPayloadGenerator (sd_collectionName, sd_samples,
  sd_totalDocuments, sd_success).

(** Induction on a value and on the values it holds. *)
Lemma Value_nested_ind (P : Value -> Prop) :
  P VNull -> P VUndefined -> (forall b, P (VBool b)) ->
  (forall x, P (VNumber x)) -> (forall s, P (VString s)) ->
  (forall iso, P (VDate iso)) -> (forall hex, P (VObjectId hex)) ->
  (forall items, Forall P items -> P (VArray items)) ->
  (forall props, Forall (fun entry => P entry.2) props -> P (VObject props)) ->
  forall value, P value.
Proof.
  intros Hnull Hundefined Hbool Hnumber Hstring Hdate Hid Harray Hobject.
  fix IH 1. intros [ | |b|x|s|iso|hex|items|props].
  - exact Hnull.
  - exact Hundefined.
  - apply Hbool.
  - apply Hnumber.
  - apply Hstring.
  - apply Hdate.
  - apply Hid.
  - apply Harray. induction items as [|item items IHitems]; constructor;
      [apply IH | exact IHitems].
  - apply Hobject. induction props as [|[key item] props IHprops]; constructor;
      [apply IH | exact IHprops].
Qed.

Lemma sanitized_values_aux value :
  holdsDatabaseObject (sanitizeValueForPayload value) = false.
Proof.
  induction value as [| | | | | | |items IH|props IH] using Value_nested_ind;
    try done.
  - cbn [sanitizeValueForPayload holdsDatabaseObject].
    induction IH as [|item items Hitem _ IHitems]; [done|].
    cbn [map existsb]. by rewrite Hitem.
  - cbn [sanitizeValueForPayload holdsDatabaseObject].
    induction IH as [|[key item] props Hitem _ IHprops]; [done|].
    destruct (String.eqb key "__proto__"); [done|]. cbn in Hitem.
    by rewrite Hitem.
Qed.

(** A sanitised value holds no ObjectId and no Date at any depth, and
    sanitising it again changes nothing. *)
Theorem sanitized_values value :
  holdsDatabaseObject (sanitizeValueForPayload value) = false
  /\ sanitizeValueForPayload (sanitizeValueForPayload value)
     = sanitizeValueForPayload value.
Proof.
  induction value as [| | | | | | |items IH|props IH] using Value_nested_ind;
    try done.
  - cbn [sanitizeValueForPayload holdsDatabaseObject]. split.
    + induction IH as [|item items [Hitem _] _ IHitems]; [done|].
      cbn [map existsb]. by rewrite Hitem.
    + f_equal. induction IH as [|item items [_ Hitem] _ IHitems]; [done|].
      cbn [map]. by rewrite Hitem, IHitems.
  - cbn [sanitizeValueForPayload holdsDatabaseObject]. split.
    + induction IH as [|[key item] props [Hitem _] _ IHprops]; [done|].
      destruct (String.eqb key "__proto__"); [done|]. cbn in Hitem.
      by rewrite Hitem.
    + f_equal. induction IH as [|[key item] props [_ Hitem] _ IHprops]; [done|].
      destruct (String.eqb key "__proto__") eqn:Ekey; [done|]. rewrite Ekey.
      cbn in Hitem. by rewrite Hitem, IHprops.
Qed.

(** A payload made from a sample for a method other than DELETE has no
    key that starts with an underscore, and each of its values is the
    sanitised value of that key in the document, free of ObjectIds and
    Dates.  For POST a key that contains "id" in any case is kept only if
    it is "userId" or ends in "Id".  For DELETE the payload is empty or holds
    the document's [_id] as it is stored, under the key [id]. *)
Theorem payload_from_sample doc method :
  (method <> "DELETE" ->
   Forall
     (fun entry =>
        startsWith entry.1 "_" = false
        /\ holdsDatabaseObject entry.2 = false
        /\ exists value,
             In (entry.1, value) doc
             /\ entry.2 = sanitizeValueForPayload value)
     (generatePayloadFromSample doc method))
  /\ Forall
       (fun entry =>
          includes (toLowerCase entry.1) "id" = true ->
          entry.1 = "userId" \/ endsWith entry.1 "Id" = true)
       (generatePayloadFromSample doc "POST")
  /\ (generatePayloadFromSample doc "DELETE" = []
      \/ exists id,
           assocGet doc "_id" = Some id
           /\ generatePayloadFromSample doc "DELETE" = [("id", id)]).
Proof.
  split; [|split].
  - intros Hmethod. unfold generatePayloadFromSample.
    destruct (String.eqb method "GET"); [constructor|].
    destruct (String.eqb_spec method "DELETE"); [done|].
    apply List.Forall_forall. intros [key sanitized] Hin.
    apply list_elem_of_In, list_elem_of_omap in Hin
      as ([key' value] & Hdoc & Hentry).
    apply list_elem_of_In in Hdoc.
    destruct (_ || startsWith key' "_") eqn:Eskip; [done|].
    apply orb_false_elim in Eskip as [_ Eunderscore].
    assert (key = key' /\ sanitized = sanitizeValueForPayload value) as [-> ->].
    { destruct (String.eqb method "POST"); [destruct (_ || _); [|done]|];
        by injection Hentry as <- <-. }
    cbn [fst snd]. split; [done|].
    split; [apply sanitized_values_aux | by exists value].
  - unfold generatePayloadFromSample. cbn [String.eqb Ascii.eqb Bool.eqb andb].
    apply List.Forall_forall. intros [key sanitized] Hin.
    apply list_elem_of_In, list_elem_of_omap in Hin
      as ([key' value] & _ & Hentry).
    destruct (_ || startsWith key' "_"); [done|].
    destruct (includes (toLowerCase key') "id") eqn:Eid; cbn [negb orb] in Hentry.
    + destruct (String.eqb_spec key' "userId") as [->|_]; cbn [orb] in Hentry.
      * injection Hentry as <- _. by left.
      * destruct (endsWith key' "Id") eqn:Eends; [|done].
        injection Hentry as <- _. by right.
    + injection Hentry as <- _. cbn [fst]. congruence.
  - unfold generatePayloadFromSample. cbn [String.eqb Ascii.eqb Bool.eqb andb].
    destruct (assocGet doc "_id") as [id|]; [|by left].
    destruct (isTruthy id); [right; by exists id | by left].
Qed.

(** *** Sample data for a route *)

Lemma drawSample_short choose size docs :
  length (drawSample choose size docs) <= size.
Proof.
  revert docs. induction size as [|size IH]; intros docs; [done|].
  simpl. destruct (docs !! _); simpl; [|lia].
  specialize (IH (delete (choose size `mod` length docs) docs)). lia.
Qed.

Lemma getSampleDocuments_short c ch collectionName limit docs :
  getCollection c collectionName = Some docs ->
  0 < limit ->
  length (getSampleDocuments c ch collectionName limit) <= limit
  /\ length (getSampleDocuments c ch collectionName limit) <= length docs.
Proof.
  intros Hdocs Hlimit. unfold getSampleDocuments.
  destruct (negb (isAvailable c)); [simpl; lia|]. rewrite Hdocs.
  destruct (Nat.leb_spec (length docs) limit); [lia|].
  destruct (_ <? _)%nat.
  - unfold findSkipLimit. destruct (Nat.eqb_spec limit 0); [lia|].
    rewrite length_take, length_drop. lia.
  - unfold aggregateSample. destruct (Nat.eqb_spec limit 0); [lia|].
    pose proof (drawSample_short (choose ch) limit docs). lia.
Qed.

Lemma toSamples_length database sampleDocuments :
  forall index samples,
    toSamples database index sampleDocuments = Ok samples ->
    length samples = length sampleDocuments.
Proof.
  induction sampleDocuments as [|doc rest IH]; intros index samples.
  - by intros [= <-].
  - cbn [toSamples].
    destruct (generateDisplayName database doc (index + 1)); [|done].
    destruct (generateSummary database doc); [|done].
    destruct (toSamples database (S index) rest) as [more|] eqn:Hmore; [|done].
    intros [= <-]. cbn. by rewrite (IH _ _ Hmore).
Qed.

Lemma fetched_samples database collectionName confidence limit :
  0 < limit ->
  let sampleData :=
    fetchSampleDataFromCollection database collectionName confidence limit in
  sd_collectionName sampleData = collectionName
  /\ length (sd_samples sampleData) <= limit
  /\ length (sd_samples sampleData) <= sd_totalDocuments sampleData.
Proof.
  intros Hlimit. cbv zeta. unfold fetchSampleDataFromCollection.
  destruct (negb (isAvailable (connector database)));
    [cbn; split; [done|lia]|].
  destruct (getCollection (connector database) collectionName) as [docs|] eqn:E;
    [|cbn; split; [done|lia]].
  destruct (length docs =? 0)%nat; [cbn; split; [done|lia]|].
  destruct (toSamples database 0 _) as [samples|] eqn:Hsamples;
    [|cbn; split; [done|lia]].
  apply toSamples_length in Hsamples.
  cbn [sd_collectionName sd_samples sd_totalDocuments].
  rewrite Hsamples. split; [done|].
  by destruct (getSampleDocuments_short (connector database)
                 (chance database collectionName) collectionName limit docs E
                 Hlimit).
Qed.

(** The sample data offered for a route, primary or alternative, belongs
    to a collection that exists and that one of the first five suggestions
    names; it was fetched successfully and has between one and three sample
    documents, never more than the collection holds.  There are at most four
    alternatives.  Nothing is offered without a connection or when the
    inference of the collection name throws. *)
Theorem data_offered_for_a_route database route :
  let offered := fetchSampleDataForRoute database route in
  Forall
    (fun sampleData =>
       sd_success sampleData = true
       /\ 1 <= length (sd_samples sampleData) <= 3
       /\ length (sd_samples sampleData) <= sd_totalDocuments sampleData
       /\ In (sd_collectionName sampleData) (listCollections database)
       /\ exists suggestions,
            CollectionInferencer.getCollectionSuggestions route = Ok suggestions
            /\ In (sd_collectionName sampleData)
                 (map CollectionInferencer.collectionName (take 5 suggestions)))
    (option_list (primary offered) ++ alternatives offered)%list
  /\ length (alternatives offered) <= 4
  /\ (isAvailable (connector database) = false
      \/ (exists message,
            CollectionInferencer.getCollectionSuggestions route = Thrown message) ->
      offered = noRealData).
Proof.
  cbv zeta. unfold fetchSampleDataForRoute.
  destruct (isAvailable (connector database)) eqn:Havailable; cbn [negb].
  2: { split; [constructor|]. split; [cbn; lia | done]. }
  destruct (CollectionInferencer.getCollectionSuggestions route)
    as [suggestions|message] eqn:Hsuggestions.
  2: { split; [constructor|]. split; [cbn; lia | done]. }
  cbn [primary alternatives]. rewrite (slice_from_start _ 5).
  set (collectionResults := omap _ (take 5 suggestions)).
  assert ((option_list (head collectionResults) ++ drop 1 collectionResults)%list
          = collectionResults) as -> by by destruct collectionResults.
  split; [|split].
  - apply List.Forall_forall. intros sampleData Hin.
    apply list_elem_of_In, list_elem_of_omap in Hin
      as (suggestion & Hsuggestion & Hdata).
    destruct (arrayIncludes _ _) eqn:Hexists; [|done].
    destruct (_ && _) eqn:Hgood; [|done]. injection Hdata as <-.
    apply andb_prop in Hgood as [Hsuccess Hsome].
    apply Nat.ltb_lt in Hsome. apply arrayIncludes_In in Hexists.
    destruct (fetched_samples database
                (CollectionInferencer.collectionName suggestion)
                (CollectionInferencer.confidence suggestion) 3 ltac:(lia))
      as (Hname & Hshort & Htotal).
    rewrite Hname. split; [done|]. split; [lia|]. split; [done|].
    split; [done|]. exists suggestions. split; [done|].
    apply in_map. by apply list_elem_of_In.
  - rewrite length_drop.
    assert (length collectionResults <= length (take 5 suggestions)) as Hle
      by apply length_omap_le.
    rewrite length_take in Hle. lia.
  - intros [?|[? ?]]; congruence.
Qed.

(** A stored order sent back with POST: the identifiers are kept as
    strings, and [paidAt] is left out because its name contains "id". *)
Example post_payload_of_an_order :
  generatePayloadFromSample MoreSamples.storedOrder "POST"
  = [("userId", VString "65a000000000000000000001");
     ("lines",
      VArray [VObject [("item", VString "65a000000000000000000005");
                       ("count", VNumber 2)]])]
  /\ generatePayloadFromSample MoreSamples.storedOrder "DELETE"
     = [("id", VObjectId "65a000000000000000000009")].
Proof. split; reflexivity. Qed.

(** Three of the five users are offered for [POST /users]; nothing is
    offered for a route through [/constructor]. *)
Example data_offered_for_users :
  option_map (fun sampleData =>
                (sd_collectionName sampleData, length (sd_samples sampleData)))
    (primary (fetchSampleDataForRoute MoreSamples.usersDatabase
                Samples.createUserRoute))
  = Some ("users", 3)
  /\ fetchSampleDataForRoute MoreSamples.usersDatabase
       MoreSamples.constructorRoute = noRealData.
Proof. split; reflexivity. Qed.

End SampleDataFetcherFacts.
